(** * grading.py: the analysis engine of the grading system

    A shallow embedding of the six analysis functions of [grading.py]
    ([calculate_student_averages], [calculate_class_averages],
    [identify_highest_achieving_students],
    [identify_lowest_achieving_students], [analyze_performance_trends],
    [get_most_improved_student]) and the properties the specification
    states about them; then of [main] from the loaded data on and of the
    row loop of [get_data_list], with further properties read off the code
    (exceptions, output order, composition).

    Modelling choices.
    - A row [[sid, term, s1, ..., sn]] of [data_list] is a record with the
      two leading strings and the slice [row[2:]]; [row[i+2]] is index [i]
      of that slice and raises [IndexError] when the slice is too short.
    - Scores are Python floats: binary64 numbers, here the primitive
      floats of the prover, whose operations and comparisons are those of
      IEEE 754 with rounding to nearest even.  NaN, the infinities and the
      two zeros are values like the others; [float(x)] yields them for the
      fields [nan] and [inf], and sums yield them by overflow.
    - [sum] adds from left to right, starting from 0, and rounds at every
      addition, as CPython does up to version 3.11; [round(x, 2)] rounds
      the exact value of [x] to the nearest hundredth, a tie to the even
      one, and returns the float nearest to it.
    - Python exceptions are an error monad [result].
    - A Python [dict] keeps insertion order, and the order decides the
      output order and the tie-breaks, so a dict is an association list
      whose update keeps the position of an existing key. *)

From Stdlib Require Import List String Bool Arith ZArith Lia.
From Stdlib Require Import QArith Qabs Qpower Lqa Floats.
Import ListNotations.
Set Warnings "-inexact-float".
Local Open Scope string_scope.
Local Open Scope list_scope.
Local Open Scope float_scope.

(** ** Exceptions *)

Inductive exn : Type :=
| IndexError
| ZeroDivisionError
| ValueError.

Inductive result (A : Type) : Type :=
| Ok (a : A)
| Raise (e : exn).

Arguments Ok {A} a.
Arguments Raise {A} e.

Definition bind {A B : Type} (m : result A) (k : A -> result B) : result B :=
  match m with
  | Ok a => k a
  | Raise e => Raise e
  end.

Notation "x <- m ;; k" := (bind m (fun x => k))
  (at level 61, m at next level, right associativity).

(** A [for] loop whose body updates the accumulator and may raise. *)
Fixpoint for_each {A S : Type} (l : list A) (body : A -> S -> result S)
  (s : S) : result S :=
  match l with
  | [] => Ok s
  | x :: l' => s' <- body x s ;; for_each l' body s'
  end.

(** A list comprehension [[f x for x in l]] whose element expression may
    raise. *)
Fixpoint comprehension {A B : Type} (f : A -> result B) (l : list A)
  : result (list B) :=
  match l with
  | [] => Ok []
  | x :: l' => y <- f x ;; ys <- comprehension f l' ;; Ok (y :: ys)
  end.

(** ** Python built-ins on numbers and lists *)

(** [float(n)] of an int: the nearest float, a tie going to the even
    one. *)
Definition float_of_int (n : Z) : float :=
  SF2Prim (binary_normalize prec emax n 0 false).

(** [sum(l)] of floats: the start value is the int 0, every addition is one
    of binary64. *)
Definition py_sum (l : list float) : float := fold_left PrimFloat.add l 0.

Definition py_len {A : Type} (l : list A) : Z := Z.of_nat (List.length l).

(** [a / b] on floats: raises on a zero divisor, of either sign; a NaN
    divisor does not raise. *)
Definition py_truediv (a b : float) : result float :=
  if b =? 0 then Raise ZeroDivisionError else Ok (a / b).

(** [a / n] of a float by an int: the int is converted and the floats are
    divided.  Only the int 0 converts to a zero, so the test for a zero
    divisor is the one on the int.  (The conversion raises for an int
    beyond the range of the floats; the divisors here are lengths of
    lists.) *)
Definition py_truediv_int (a : float) (n : Z) : result float :=
  if (n =? 0)%Z then Raise ZeroDivisionError else Ok (a / float_of_int n).

(** [l[i]] for a non-negative [i]. *)
Definition getitem {A : Type} (l : list A) (i : nat) : result A :=
  match nth_error l i with
  | Some x => Ok x
  | None => Raise IndexError
  end.

Definition enumerate {A : Type} (l : list A) : list (nat * A) :=
  combine (seq 0 (List.length l)) l.

(** [min] and [max] with a [key]: one loop, the first item is the initial
    best, a later item replaces it only when its key compares strictly
    better ([>] for [max], [<] for [min]).  Among keys that are not NaN the
    first extremal item wins; a comparison with a NaN key is false, so a
    NaN key is never better and, once it is the best, is never replaced.
    The key is evaluated once on every item. *)
Fixpoint extremum_loop {A : Type} (better : float -> float -> bool)
  (key : A -> result float) (best : A) (best_key : float) (l : list A)
  : result A :=
  match l with
  | [] => Ok best
  | x :: l' =>
      k <- key x ;;
      if better k best_key
      then extremum_loop better key x k l'
      else extremum_loop better key best best_key l'
  end.

Definition extremum {A : Type} (better : float -> float -> bool)
  (key : A -> result float) (l : list A) : result A :=
  match l with
  | [] => Raise ValueError
  | x :: l' => k <- key x ;; extremum_loop better key x k l'
  end.

Definition better_max (k best_key : float) : bool := best_key <? k.
Definition better_min (k best_key : float) : bool := k <? best_key.

Definition py_max {A : Type} := @extremum A better_max.
Definition py_min {A : Type} := @extremum A better_min.

(** The integer nearest to a rational, a tie going to the even one. *)
Definition round_half_even (q : Q) : Z :=
  let n := Qnum q in
  let d := Zpos (Qden q) in
  let f := (n / d)%Z in
  match (2 * (n mod d) ?= d)%Z with
  | Lt => f
  | Gt => (f + 1)%Z
  | Eq => if Z.even f then f else (f + 1)%Z
  end.

(** The exact value of the finite float of mantissa [m] and exponent [e],
    sign apart. *)
Definition magnitude (m : positive) (e : Z) : Q :=
  (inject_Z (Zpos m) * Qpower 2 e)%Q.

(** The float nearest to [z / 100] for a natural number [z] of hundredths,
    with the given sign: the quotient is taken with 70 more bits, the last
    bit says whether the division left a remainder, and the rounding to 53
    bits is that of binary64. *)
Definition nearest_hundredths (negative : bool) (z : Z) : float :=
  let q := (z * 2 ^ 70 / 100)%Z in
  let sticky := if (z * 2 ^ 70 mod 100 =? 0)%Z then 0%Z else 1%Z in
  let m := (2 * q + sticky)%Z in
  SF2Prim (binary_normalize prec emax (if negative then (- m)%Z else m)
             (-71) negative).

(** [round(x, 2)]: NaN, the infinities and the zeros are returned as they
    are; a finite [x] is rounded, from its exact value, to the nearest
    multiple of 1/100, a tie going to the even one, and the result is the
    float nearest to that multiple, with the sign of [x]. *)
Definition py_round2 (x : float) : float :=
  match Prim2SF x with
  | S754_finite s m e =>
      nearest_hundredths s (round_half_even (magnitude m e * 100)%Q)
  | _ => x
  end.

(** ** Insertion-ordered dictionaries with string keys *)

Definition dict (V : Type) : Type := list (string * V).

Fixpoint dict_get {V : Type} (k : string) (d : dict V) : option V :=
  match d with
  | [] => None
  | (k', v) :: d' => if String.eqb k' k then Some v else dict_get k d'
  end.

Definition dict_mem {V : Type} (k : string) (d : dict V) : bool :=
  match dict_get k d with Some _ => true | None => false end.

(** [d[k] = v]: an existing key keeps its position, a new one goes last. *)
Fixpoint dict_set {V : Type} (k : string) (v : V) (d : dict V) : dict V :=
  match d with
  | [] => [(k, v)]
  | (k', v') :: d' =>
      if String.eqb k' k then (k', v) :: d' else (k', v') :: dict_set k v d'
  end.

(** ** Data model *)

Record row : Type := mkRow {
  row_sid : string;          (* row[0] *)
  row_term : string;         (* row[1] *)
  row_scores : list float    (* row[2:] *)
}.

Definition subjects : list string :=
  ["Chi"; "Eng"; "Math"; "GS"; "CS"; "Music"; "VA"; "PE"].

Definition terms : list string := ["1"; "2"].

(** [[term, sid, average]] *)
Definition student_average : Type := (string * string * float)%type.
(** [[term, subject, average]] *)
Definition class_average : Type := (string * string * float)%type.
(** [[term, subject, sid, score]] *)
Definition achiever : Type := (string * string * string * float)%type.
(** [[subject, percent_change]] *)
Definition trend : Type := (string * float)%type.

(** ** calculate_student_averages *)

(** One iteration of the grouping loop. *)
Definition group_row (students : dict (dict (list float))) (r : row)
  : dict (dict (list float)) :=
  let sid := row_sid r in
  let term := row_term r in
  let scores := row_scores r in
  let students :=
    if dict_mem sid students then students else dict_set sid [] students in
  let of_sid := match dict_get sid students with Some t => t | None => [] end in
  let of_sid :=
    if dict_mem term of_sid then of_sid else dict_set term [] of_sid in
  let of_sid := dict_set term scores of_sid in
  dict_set sid of_sid students.

Definition group_rows (data_list : list row) : dict (dict (list float)) :=
  fold_left group_row data_list [].

Definition calculate_student_averages (data_list : list row)
  : result (list student_average) :=
  let students := group_rows data_list in
  for_each students (fun '(sid, student_terms_data) acc =>
    for_each student_terms_data (fun '(term, scores) acc =>
      match scores with
      | [] => Ok acc
      | _ :: _ =>
          average_score <- py_truediv_int (py_sum scores) (py_len scores) ;;
          Ok (acc ++ [(term, sid, average_score)])
      end) acc) [].

(** ** calculate_class_averages *)

Definition rows_of_term (data_list : list row) (term : string) : list row :=
  filter (fun r => String.eqb (row_term r) term) data_list.

Definition calculate_class_averages (data_list : list row)
  : result (list class_average) :=
  for_each terms (fun term acc =>
    for_each (enumerate subjects) (fun '(subject_index, subject) acc =>
      subject_scores <-
        comprehension (fun r => getitem (row_scores r) subject_index)
          (rows_of_term data_list term) ;;
      match subject_scores with
      | [] => Ok acc
      | _ :: _ =>
          class_average <-
            py_truediv_int (py_sum subject_scores) (py_len subject_scores) ;;
          Ok (acc ++ [(term, subject, class_average)])
      end) acc) [].

(** ** identify_highest_achieving_students, identify_lowest_achieving_students *)

(** The two functions differ only in the built-in they call. *)
Definition identify_achievers
  (select : (row -> result float) -> list row -> result row)
  (data_list : list row) : result (list achiever) :=
  for_each terms (fun term acc =>
    for_each (enumerate subjects) (fun '(subject_index, subject) acc =>
      let term_subject_data := rows_of_term data_list term in
      match term_subject_data with
      | [] => Ok acc
      | _ :: _ =>
          score_row <-
            select (fun x => getitem (row_scores x) subject_index)
              term_subject_data ;;
          score <- getitem (row_scores score_row) subject_index ;;
          Ok (acc ++ [(term, subject, row_sid score_row, score)])
      end) acc) [].

Definition identify_highest_achieving_students :=
  identify_achievers py_max.

Definition identify_lowest_achieving_students :=
  identify_achievers py_min.

(** ** analyze_performance_trends *)

Definition class_average_for (term subject : string)
  (class_averages : list class_average) : option class_average :=
  find (fun avg : class_average =>
          let '(t, s, _) := avg in String.eqb t term && String.eqb s subject)
    class_averages.

(** The body of the loop over the subjects. *)
Definition trend_of_subject (class_averages : list class_average)
  (subject : string) (performance_trend_list : list trend)
  : result (list trend) :=
  let term_one_average := class_average_for "1" subject class_averages in
  let term_two_average := class_average_for "2" subject class_averages in
  match term_one_average, term_two_average with
  | Some (_, _, one), Some (_, _, two) =>
      ratio <- py_truediv (two - one) one ;;
      let percentage_change := ratio * 100 in
      Ok (performance_trend_list ++ [(subject, py_round2 percentage_change)])
  | _, _ => Ok performance_trend_list
  end.

Definition analyze_performance_trends (data_list : list row)
  : result (list trend) :=
  class_averages <- calculate_class_averages data_list ;;
  for_each subjects (trend_of_subject class_averages) [].

(** ** get_most_improved_student *)

(** One iteration of the grouping loop; [None] is Python's [None]. *)
Definition group_average (student_term_avg : dict (dict (option float)))
  (entry : student_average) : dict (dict (option float)) :=
  let '(term, sid, avg) := entry in
  let student_term_avg :=
    if dict_mem sid student_term_avg then student_term_avg
    else dict_set sid [("1", None); ("2", None)] student_term_avg in
  let of_sid :=
    match dict_get sid student_term_avg with Some t => t | None => [] end in
  dict_set sid (dict_set term (Some avg) of_sid) student_term_avg.

Definition group_averages (student_averages : list student_average)
  : dict (dict (option float)) :=
  fold_left group_average student_averages [].

Definition improvements_of (student_term_avg : dict (dict (option float)))
  : list (string * float) :=
  fold_left (fun improvements '(sid, terms) =>
    match dict_get "1" terms, dict_get "2" terms with
    | Some (Some one), Some (Some two) => improvements ++ [(sid, two - one)]
    | _, _ => improvements
    end) student_term_avg [].

Definition get_most_improved_student (student_averages : list student_average)
  : result (option string) :=
  let improvements := improvements_of (group_averages student_averages) in
  match improvements with
  | [] => Ok None
  | _ :: _ =>
      best <- py_max (fun x : string * float => Ok (snd x)) improvements ;;
      Ok (Some (fst best))
  end.

(** ** main

    [main] from the loaded [data_list] on: the analyses, the five values
    picked from them and the text written to [StudentScoresAnalysis.txt].
    Reading the file name and the file is [get_data_list]'s part. *)

(** [max(l, key=..., default=...)]: [None] stands for the default. *)
Definition py_max_default {A : Type} (key : A -> result float) (l : list A)
  : result (option A) :=
  match l with
  | [] => Ok None
  | _ :: _ => best <- py_max key l ;; Ok (Some best)
  end.

Record analysis : Type := mkAnalysis {
  most_improved_student : option string;
  highest_term_one_subject : string;
  highest_math_student_term_one : string;
  lowest_cs_student_term_two : string;
  highest_trend_subject : string
}.

(** [next((student[2] for student in students
           if student[0] == term and student[1] == subject), "N/A")] *)
Definition achiever_of (term subject : string) (students : list achiever)
  : string :=
  match find (fun student : achiever =>
                let '(t, s, _, _) := student in
                String.eqb t term && String.eqb s subject) students with
  | Some (_, _, sid, _) => sid
  | None => "N/A"
  end.

Definition analyse (data_list : list row) : result analysis :=
  student_averages <- calculate_student_averages data_list ;;
  class_averages <- calculate_class_averages data_list ;;
  highest_students <- identify_highest_achieving_students data_list ;;
  lowest_students <- identify_lowest_achieving_students data_list ;;
  performance_trends <- analyze_performance_trends data_list ;;
  most_improved <- get_most_improved_student student_averages ;;
  best_average <-
    py_max_default (fun x : class_average => Ok (snd x))
      (filter (fun avg : class_average => String.eqb (fst (fst avg)) "1")
         class_averages) ;;
  (* [default[1]] of the default [["N/A", "N/A", 0]] *)
  let term_one_subject :=
    match best_average with
    | Some (_, subject, _) => subject
    | None => "N/A"
    end in
  let math_student := achiever_of "1" "Math" highest_students in
  let cs_student := achiever_of "2" "CS" lowest_students in
  best_trend <-
    py_max_default (fun x : trend => Ok (snd x))
      (filter (fun t : trend => 0 <? snd t) performance_trends) ;;
  (* [default[0]] of the default [["N/A", "N/A", 0]] *)
  let trend_subject :=
    match best_trend with
    | Some (subject, _) => subject
    | None => "N/A"
    end in
  Ok (mkAnalysis most_improved term_one_subject math_student cs_student
        trend_subject).

Definition newline : string := String (Ascii.ascii_of_nat 10) EmptyString.

(** [f"{x}"] of a student id or of [None]. *)
Definition format_sid (x : option string) : string :=
  match x with
  | Some sid => sid
  | None => "None"
  end.

(** The text of the five [f.write] calls. *)
Definition report_text (a : analysis) : string :=
  String.concat ""
    ["The SID is "; format_sid (most_improved_student a); newline;
     "The subject is "; highest_term_one_subject a; newline;
     "The SID is "; highest_math_student_term_one a; newline;
     "The SID is "; lowest_cs_student_term_two a; newline;
     "The subject is "; highest_trend_subject a; newline].

Definition main_report (data_list : list row) : result string :=
  a <- analyse data_list ;; Ok (report_text a).

(** ** get_data_list

    The file system and the parsers are outside the program.  The file is
    given by the rows [csv.reader] yields from it, the header row first, or
    by [None] when it does not exist; [float(x)] is a function [float] that
    gives the float a field denotes (which may be NaN or an infinity) and
    [None] where Python raises [ValueError]. *)

(** How a call of [get_data_list] ends. *)
Inductive loaded (A : Type) : Type :=
| Loaded (a : A)            (* [return data_list] *)
| SysExit (status : nat)    (* [sys.exit(status)], after the message *)
| StopIteration             (* raised by [next], caught by no handler *)
| Propagates (e : exn).     (* another exception no handler catches *)

Arguments Loaded {A} a.
Arguments SysExit {A} status.
Arguments StopIteration {A}.
Arguments Propagates {A} e.

(** [[float(x) for x in fields]] *)
Fixpoint floats (float : string -> option PrimFloat.float)
  (fields : list string) : option (list PrimFloat.float) :=
  match fields with
  | [] => Some []
  | x :: fields' =>
      match float x with
      | None => None
      | Some q =>
          match floats float fields' with
          | None => None
          | Some qs => Some (q :: qs)
          end
      end
  end.

(** [[row[0], row[1]] + [float(x) for x in row[2:]]], under the handler of
    [ValueError]. *)
Definition num_row (float : string -> option PrimFloat.float)
  (fields : list string)
  : loaded row :=
  match fields with
  | sid :: term :: rest =>
      match floats float rest with
      | Some scores => Loaded (mkRow sid term scores)
      | None => SysExit 1
      end
  | _ => Propagates IndexError
  end.

(** The loop over the rows after the header. *)
Fixpoint read_rows (float : string -> option PrimFloat.float)
  (rows : list (list string))
  (data_list : list row) : loaded (list row) :=
  match rows with
  | [] => Loaded data_list
  | fields :: rows' =>
      match num_row float fields with
      | Loaded r => read_rows float rows' (data_list ++ [r])
      | SysExit status => SysExit status
      | StopIteration => StopIteration
      | Propagates e => Propagates e
      end
  end.

Definition get_data_list (float : string -> option PrimFloat.float)
  (file : option (list (list string))) : loaded (list row) :=
  match file with
  | None => SysExit 1                 (* [FileNotFoundError] *)
  | Some [] => StopIteration           (* [next(csv_reader)] *)
  | Some (_ :: rows) => read_rows float rows []
  end.

(** * Vocabulary of the specification and of the proofs *)

(** The binary64 mean of a list: the elements are added from left to
    right, starting from 0, every addition rounding to the nearest float,
    and the sum is divided by the number of elements. *)
Definition mean (l : list float) : float :=
  fold_left PrimFloat.add l 0 / float_of_int (Z.of_nat (List.length l)).

(** The exact value of a float, a rational in lowest terms; NaN and the
    infinities have none. *)
Definition exact (x : float) : option Q :=
  match Prim2SF x with
  | S754_zero _ => Some 0%Q
  | S754_finite s m e =>
      Some (Qred (if s then (- magnitude m e)%Q else magnitude m e))
  | _ => None
  end.




(** The percent change as a number: ((two - one) / one) * 100. *)
Definition exact_percent_change (one two : Q) : Q :=
  ((two - one) / one * 100)%Q.

(** The integer nearest to a rational, a tie going away from zero. *)
Definition round_half_away (q : Q) : Z :=
  let n := Qnum q in
  let d := Zpos (Qden q) in
  (Z.sgn n * ((2 * Z.abs n + d) / (2 * d)))%Z.

(** The float that stands for a whole number of hundredths. *)
Definition hundredths (k : Z) : float :=
  nearest_hundredths (k <? 0)%Z (Z.abs k).

(** [x] is the number [v] rounded to 2 decimal places, a tie going to the
    even hundredth or away from zero. *)
Definition rounded_to_hundredths (v : Q) (x : float) : Prop :=
  x = hundredths (round_half_even (v * 100)%Q) \/
  x = hundredths (round_half_away (v * 100)%Q).

(** The position of a float in the order of the comparisons: the lists of
    three integers are compared lexicographically, the two zeros have one
    position and NaN has none. *)
Definition position (x : float) : option (Z * Z * Z) :=
  match Prim2SF x with
  | S754_nan => None
  | S754_infinity s => Some (if s then (-2)%Z else 2%Z, 0%Z, 0%Z)
  | S754_zero _ => Some (0%Z, 0%Z, 0%Z)
  | S754_finite s m e =>
      Some (if s then ((-1)%Z, (- e)%Z, Zneg m) else (1%Z, e, Zpos m))
  end.

Definition lexicographic (a b : Z * Z * Z) : comparison :=
  match (fst (fst a) ?= fst (fst b))%Z with
  | Eq =>
      match (snd (fst a) ?= snd (fst b))%Z with
      | Eq => (snd a ?= snd b)%Z
      | c => c
      end
  | c => c
  end.

(** The loop of [extremum] when the key never raises. *)
Fixpoint first_best {A : Type} (better : float -> float -> bool)
  (key : A -> float)
  (best : A) (l : list A) : A :=
  match l with
  | [] => best
  | x :: l' =>
      if better (key x) (key best) then first_best better key x l'
      else first_best better key best l'
  end.

(** The invariant of the data model: every record carries one score per
    subject. *)
Definition well_formed (data_list : list row) : Prop :=
  Forall (fun r => List.length (row_scores r) = List.length subjects) data_list.

(** The score of a record at a subject index. *)
Definition score (r : row) (i : nat) : float := nth i (row_scores r) 0.

(** The scores of one subject over the records of one term, in input
    order. *)
Definition column (data_list : list row) (term : string) (i : nat)
  : list float :=
  map (fun r => score r i) (rows_of_term data_list term).

(** Whether at least one record has the term. *)
Definition has_records (data_list : list row) (term : string) : bool :=
  existsb (fun r => String.eqb (row_term r) term) data_list.

(** The (term, subject) combinations: terms in listed order, and for each
    term the subjects in fixed order. *)
Definition term_subject_pairs : list (string * string) :=
  list_prod terms subjects.

(** What a double loop appends when, for a term with records [x :: l], it
    appends [entry term index subject x l] for every subject, and nothing
    for a term without records. *)
Definition per_term_subject {R X : Type} (group : string -> list R)
  (entry : string -> nat -> string -> R -> list R -> X) : list X :=
  flat_map (fun term =>
    flat_map (fun '(i, subject) =>
      match group term with
      | [] => []
      | x :: l => [entry term i subject x l]
      end) (enumerate subjects)) terms.

(** The truth value of a list. *)
Definition nonempty {R : Type} (l : list R) : bool :=
  match l with [] => false | _ :: _ => true end.

(** What [calculate_class_averages] returns on well-formed records. *)
Definition class_averages_of (data_list : list row) : list class_average :=
  per_term_subject (rows_of_term data_list)
    (fun term i subject x l =>
       (term, subject, mean (map (fun r => score r i) (x :: l)))).

(** What the extremum identifiers return on well-formed records. *)
Definition achievers_of (better : float -> float -> bool) (data_list : list row)
  : list achiever :=
  per_term_subject (rows_of_term data_list)
    (fun term i subject x l =>
       let r := first_best better (fun y => score y i) x l in
       (term, subject, row_sid r, score r i)).

(** [r] is the first record of [rows] with the greatest score at index [i]:
    every record before it scores strictly less, no record after it scores
    more. *)
Definition first_maximal (i : nat) (rows : list row) (r : row) : Prop :=
  exists pre post,
    rows = pre ++ r :: post /\
    Forall (fun y => (score y i <? score r i) = true) pre /\
    Forall (fun y => (score y i <=? score r i) = true) post.

(** The same for the least score. *)
Definition first_minimal (i : nat) (rows : list row) (r : row) : Prop :=
  exists pre post,
    rows = pre ++ r :: post /\
    Forall (fun y => (score r i <? score y i) = true) pre /\
    Forall (fun y => (score r i <=? score y i) = true) post.

(** The class average of a subject index in a term: the mean of the column,
    absent when the term has no record. *)
Definition class_average_at (data_list : list row) (term : string) (i : nat)
  : option float :=
  if has_records data_list term then Some (mean (column data_list term i))
  else None.

(** The trend entries: for each subject in fixed order, one entry when both
    class averages exist. *)
Definition trends_of (data_list : list row) : list trend :=
  flat_map (fun '(i, subject) =>
    match class_average_at data_list "1" i, class_average_at data_list "2" i
    with
    | Some one, Some two => [(subject, py_round2 ((two - one) / one * 100))]
    | _, _ => []
    end) (enumerate subjects).

(** What the double loop appends for one term and one subject when the
    entry is a class average. *)
Definition table_cell {R : Type} (group : string -> list R)
  (value : string -> nat -> R -> list R -> float) (t : string)
  : nat * string -> list class_average :=
  fun '(i, s) =>
    match group t with
    | [] => []
    | x :: l => [(t, s, value t i x l)]
    end.

(** Every class average of term "1" that exists is non-zero. *)
Definition term_one_averages_nonzero (data_list : list row) : Prop :=
  forall i one,
    (i < List.length subjects)%nat ->
    class_average_at data_list "1" i = Some one -> (one =? 0) = false.

(** Some subject has a zero class average in term "1" and a class average
    in term "2". *)
Definition zero_term_one_average (data_list : list row) : Prop :=
  exists i one two,
    (i < List.length subjects)%nat /\
    class_average_at data_list "1" i = Some one /\ (one =? 0) = true /\
    class_average_at data_list "2" i = Some two.

(** An update [(sid, term, value)] of a grouping loop, and its student. *)
Definition sid_of {V : Type} (u : string * string * V) : string :=
  fst (fst u).

(** One grouping step: store [v] under student [s] and term [t]; a new
    student starts with the dictionary [init]. *)
Definition regroup {V : Type} (init : dict V) (d : dict (dict V))
  (u : string * string * V) : dict (dict V) :=
  let '(s, t, v) := u in
  dict_set s
    (dict_set t v (match dict_get s d with Some i => i | None => init end))
    d.

(** The value of the last update for a student and a term. *)
Definition last_value {V : Type} (us : list (string * string * V))
  (s t : string) : option V :=
  match find (fun u : string * string * V =>
                let '(s', t', _) := u in String.eqb s' s && String.eqb t' t)
          (rev us) with
  | Some (_, _, v) => Some v
  | None => None
  end.

(** Student [s] has appeared in a prefix of the updates in which [s'] has
    not. *)
Definition encountered_before {V : Type} (us : list (string * string * V))
  (s s' : string) : Prop :=
  exists pre post,
    us = pre ++ post /\
    In s (map sid_of pre) /\ ~ In s' (map sid_of pre).

(** What holds of the dictionary of dictionaries after the updates [us]. *)
Record grouped_inv {V : Type} (init : dict V)
  (us : list (string * string * V)) (d : dict (dict V)) : Prop := {
  inv_nodup : NoDup (map fst d);
  inv_keys : forall s, In s (map fst d) <-> In s (map sid_of us);
  inv_order : forall a s b s',
    map fst d = a ++ s :: b -> In s' b -> encountered_before us s s';
  inv_inner : forall s inner,
    dict_get s d = Some inner ->
    forall t, dict_get t inner =
              match last_value us s t with
              | Some v => Some v
              | None => dict_get t init
              end;
  inv_inner_nodup : NoDup (map fst init) ->
    forall s inner, dict_get s d = Some inner -> NoDup (map fst inner)
}.

(** The update a record makes in [calculate_student_averages]. *)
Definition row_update (r : row) : string * string * list float :=
  (row_sid r, row_term r, row_scores r).

(** The update an entry makes in [get_most_improved_student]. *)
Definition average_update (e : student_average)
  : string * string * option float :=
  let '(term, sid, avg) := e in (sid, term, Some avg).

(** The kept score lists, one per stored (student, term) slot, in
    dictionary order. *)
Definition student_groups (students : dict (dict (list float)))
  : list (string * string * list float) :=
  flat_map (fun '(sid, d) => map (fun '(term, scores) => (sid, term, scores)) d)
    students.

(** The second loop: one average per non-empty kept score list. *)
Definition average_entries (groups : list (string * string * list float))
  : list student_average :=
  flat_map (fun '(sid, term, scores) =>
    match scores with
    | [] => []
    | _ :: _ => [(term, sid, mean scores)]
    end) groups.

(** The last record of a student in a term. *)
Definition last_record (data_list : list row) (sid term : string)
  : option row :=
  find (fun r => String.eqb (row_sid r) sid && String.eqb (row_term r) term)
    (rev data_list).

(** The (student, term) key of a student average. *)
Definition average_key (e : student_average) : string * string :=
  (snd (fst e), fst (fst e)).

(** Equality of (student, term) pairs is decidable. *)
Definition pair_eq_dec (p q : string * string) : {p = q} + {p <> q}.
Proof. decide equality; apply string_dec. Defined.

(** The distinct (student, term) pairs of the input. *)
Definition distinct_pairs (data_list : list row) : list (string * string) :=
  nodup pair_eq_dec (map (fun r => (row_sid r, row_term r)) data_list).

(** The student id of an entry [[term, sid, average]]. *)
Definition average_sid (e : student_average) : string := snd (fst e).

(** The average of the last entry of a student in a term. *)
Definition last_average (student_averages : list student_average)
  (sid term : string) : option float :=
  match find (fun e : student_average =>
                let '(t, s, _) := e in String.eqb s sid && String.eqb t term)
          (rev student_averages) with
  | Some (_, _, avg) => Some avg
  | None => None
  end.

(** The improvement of a student: defined when averages of both terms are
    present. *)
Definition improvement (student_averages : list student_average)
  (sid : string) : option float :=
  match last_average student_averages sid "1",
        last_average student_averages sid "2" with
  | Some one, Some two => Some (two - one)
  | _, _ => None
  end.

(** Student [s] is encountered before student [s']: some prefix of the
    input has an entry of [s] and none of [s']. *)
Definition seen_before (student_averages : list student_average)
  (s s' : string) : Prop :=
  exists pre post,
    student_averages = pre ++ post /\
    In s (map average_sid pre) /\ ~ In s' (map average_sid pre).

(** What the improvement loop appends for a student. *)
Definition improvement_entry (student_averages : list student_average)
  (sid : string) : list (string * float) :=
  match improvement student_averages sid with
  | Some imp => [(sid, imp)]
  | None => []
  end.

(** ** Vocabulary of the further properties *)

(** A record of term "1" or "2" with fewer scores than there are
    subjects. *)
Definition short_record (r : row) : bool :=
  existsb (String.eqb (row_term r)) terms &&
  (List.length (row_scores r) <? List.length subjects)%nat.

Definition has_short_record (data_list : list row) : bool :=
  existsb short_record data_list.

(** The body of the inner loop of [calculate_class_averages]. *)
Definition class_average_step (data_list : list row) (term : string)
  : nat * string -> list class_average -> result (list class_average) :=
  fun '(subject_index, subject) acc =>
    subject_scores <-
      comprehension (fun r => getitem (row_scores r) subject_index)
        (rows_of_term data_list term) ;;
    match subject_scores with
    | [] => Ok acc
    | _ :: _ =>
        class_average <-
          py_truediv_int (py_sum subject_scores) (py_len subject_scores) ;;
        Ok (acc ++ [(term, subject, class_average)])
    end.

(** The body of the inner loop of the extremum identifiers. *)
Definition achiever_step
  (select : (row -> result float) -> list row -> result row)
  (data_list : list row) (term : string)
  : nat * string -> list achiever -> result (list achiever) :=
  fun '(subject_index, subject) acc =>
    let term_subject_data := rows_of_term data_list term in
    match term_subject_data with
    | [] => Ok acc
    | _ :: _ =>
        score_row <-
          select (fun x => getitem (row_scores x) subject_index)
            term_subject_data ;;
        score <- getitem (row_scores score_row) subject_index ;;
        Ok (acc ++ [(term, subject, row_sid score_row, score)])
    end.

(** Some subject has a zero class average in term "1" and a class average
    in term "2", as a test. *)
Definition divides_by_zero (data_list : list row) : bool :=
  existsb (fun i =>
    match class_average_at data_list "1" i, class_average_at data_list "2" i
    with
    | Some one, Some _ => one =? 0
    | _, _ => false
    end) (seq 0 (List.length subjects)).

(** The distinct elements of a list, in the order of their first
    occurrence. *)
Definition first_seen (l : list string) : list string :=
  fold_left (fun seen x =>
               if existsb (String.eqb x) seen then seen else seen ++ [x])
    l [].

(** The term of an update [(sid, term, value)]. *)
Definition term_of {V : Type} (u : string * string * V) : string :=
  snd (fst u).

(** The terms under which the updates [us] store a value for student
    [s]. *)
Definition terms_of {V : Type} (us : list (string * string * V))
  (s : string) : list string :=
  map term_of (filter (fun u => String.eqb (sid_of u) s) us).

(** The (student, term) pairs of the input: students in the order of their
    first record, and for each student the terms in the order of the
    student's first record of the term. *)
Definition group_order (data_list : list row) : list (string * string) :=
  flat_map (fun sid =>
    map (pair sid)
      (first_seen
         (map row_term
            (filter (fun r => String.eqb (row_sid r) sid) data_list))))
    (first_seen (map row_sid data_list)).

(** Whether the score list kept for a (student, term) pair, the one of its
    last record, is non-empty. *)
Definition keeps_scores (data_list : list row) (p : string * string) : bool :=
  match last_record data_list (fst p) (snd p) with
  | Some r => nonempty (row_scores r)
  | None => false
  end.

(** The average a student gets for a term from the records: the mean of
    the scores of the student's last record of the term, when it has
    scores. *)
Definition term_average (data_list : list row) (sid term : string)
  : option float :=
  match last_record data_list sid term with
  | Some r =>
      match row_scores r with
      | [] => None
      | _ :: _ => Some (mean (row_scores r))
      end
  | None => None
  end.

(** The improvement of a student computed from the records. *)
Definition improvement_from_records (data_list : list row) (sid : string)
  : option float :=
  match term_average data_list sid "1", term_average data_list sid "2" with
  | Some one, Some two => Some (two - one)
  | _, _ => None
  end.

(** [a] occurs in a prefix of [l] in which [b] does not occur. *)
Definition occurs_before (l : list string) (a b : string) : Prop :=
  exists pre post, l = pre ++ post /\ In a pre /\ ~ In b pre.

(** Student [s] has a record before the first record of student [s']. *)
Definition recorded_before (data_list : list row) (s s' : string) : Prop :=
  occurs_before (map row_sid data_list) s s'.

(** The first element with the greatest key among the elements of [l] that
    pass the test [p]. *)
Definition first_max_where {A : Type} (p : A -> bool) (key : A -> float)
  (l : list A) : option A :=
  match filter p l with
  | [] => None
  | x :: l' => Some (first_best better_max key x l')
  end.

(** The term of a class average is "1". *)
Definition of_term_one (avg : class_average) : bool :=
  String.eqb (fst (fst avg)) "1".

(** The percent change of a trend is positive. *)
Definition positive_trend (t : trend) : bool := 0 <? snd t.

(** What the double loop appends for one term and one subject. *)
Definition table_entry {R X : Type} (group : string -> list R)
  (entry : string -> nat -> string -> R -> list R -> X) (t : string)
  : nat * string -> list X :=
  fun '(i, s) =>
    match group t with
    | [] => []
    | x :: l => [entry t i s x l]
    end.

(** A record loaded from the fields of a row: the first two fields as they
    are, one score per other field. *)
Definition line_record (float : string -> option PrimFloat.float)
  (fields : list string)
  (r : row) : Prop :=
  exists rest,
    fields = row_sid r :: row_term r :: rest /\
    Forall2 (fun x q => float x = Some q) rest (row_scores r).

(** A row that [get_data_list] loads. *)
Definition loadable (float : string -> option PrimFloat.float)
  (fields : list string)
  : Prop :=
  exists r, line_record float fields r.

(** The records of term "1" or "2". *)
Definition of_known_term (r : row) : bool :=
  existsb (String.eqb (row_term r)) terms.

(** * Properties *)

(** ** The error monad and the loops *)

Lemma for_each_app {A S : Type} (l1 l2 : list A) (body : A -> S -> result S)
  (s : S) :
  for_each (l1 ++ l2) body s = s' <- for_each l1 body s ;; for_each l2 body s'.
Proof.
  revert s; induction l1 as [|x l1 IH]; intros s; simpl; [reflexivity|].
  destruct (body x s); simpl; auto.
Qed.

(** A loop whose body only appends to the accumulator. *)
Lemma for_each_appends {A B : Type} (g : A -> list B) (l : list A)
  (body : A -> list B -> result (list B)) :
  (forall x acc, In x l -> body x acc = Ok (acc ++ g x)) ->
  forall acc, for_each l body acc = Ok (acc ++ flat_map g l).
Proof.
  induction l as [|x l IH]; intros Hb acc; simpl.
  - now rewrite app_nil_r.
  - rewrite Hb by now left. simpl.
    rewrite IH by (intros; apply Hb; now right).
    now rewrite app_assoc.
Qed.

Lemma comprehension_map {A B : Type} (f : A -> result B) (h : A -> B)
  (l : list A) :
  (forall x, In x l -> f x = Ok (h x)) -> comprehension f l = Ok (map h l).
Proof.
  induction l as [|x l IH]; intros Hf; simpl; [reflexivity|].
  rewrite Hf by now left. simpl.
  rewrite IH by (intros; apply Hf; now right). reflexivity.
Qed.

(** ** Numbers *)

Lemma py_truediv_len (l : list float) :
  l <> [] -> py_truediv_int (py_sum l) (py_len l) = Ok (mean l).
Proof.
  intros Hl. destruct l as [|x l]; [contradiction|].
  unfold py_truediv_int, py_len. cbn [List.length Z.of_nat Z.eqb].
  reflexivity.
Qed.

(** ** The order of the floats *)

(** The comparison of two floats is the lexicographic comparison of their
    positions. *)
Lemma SFcompare_position (x y : float) :
  SFcompare (Prim2SF x) (Prim2SF y) =
  match position x, position y with
  | Some a, Some b => Some (lexicographic a b)
  | _, _ => None
  end.
Proof.
  unfold position, lexicographic.
  destruct (Prim2SF x) as [sx|sx| |sx mx ex], (Prim2SF y) as [sy|sy| |sy my ey];
    try destruct sx; try destruct sy; cbn [SFcompare fst snd Z.compare];
    try reflexivity.
  rewrite Z.compare_opp, (Z.compare_antisym ex ey).
  destruct (ex ?= ey)%Z; reflexivity.
Qed.

Lemma lexicographic_Lt (a b : Z * Z * Z) :
  lexicographic a b = Lt <->
  (fst (fst a) < fst (fst b) \/
   fst (fst a) = fst (fst b) /\
   (snd (fst a) < snd (fst b) \/
    snd (fst a) = snd (fst b) /\ snd a < snd b))%Z.
Proof.
  unfold lexicographic.
  destruct (Z.compare_spec (fst (fst a)) (fst (fst b))),
    (Z.compare_spec (snd (fst a)) (snd (fst b))),
    (Z.compare_spec (snd a) (snd b));
    split; intros H'; try discriminate; try reflexivity; lia.
Qed.

Lemma lexicographic_Gt (a b : Z * Z * Z) :
  lexicographic a b = Gt <-> lexicographic b a = Lt.
Proof.
  unfold lexicographic.
  rewrite (Z.compare_antisym (fst (fst a))), (Z.compare_antisym (snd (fst a))),
    (Z.compare_antisym (snd a)).
  destruct (fst (fst a) ?= fst (fst b))%Z, (snd (fst a) ?= snd (fst b))%Z,
    (snd a ?= snd b)%Z; cbn; split; intros H; try discriminate; reflexivity.
Qed.

Lemma lexicographic_Eq (a b : Z * Z * Z) :
  lexicographic a b = Eq ->
  (fst (fst a) = fst (fst b) /\ snd (fst a) = snd (fst b) /\ snd a = snd b)%Z.
Proof.
  unfold lexicographic.
  destruct (Z.compare_spec (fst (fst a)) (fst (fst b))),
    (Z.compare_spec (snd (fst a)) (snd (fst b))),
    (Z.compare_spec (snd a) (snd b)); intros H'; try discriminate; auto.
Qed.

Lemma lexicographic_refl (a : Z * Z * Z) : lexicographic a a = Eq.
Proof. unfold lexicographic. now rewrite !Z.compare_refl. Qed.

Lemma ltb_position (x y : float) :
  (x <? y) = true <->
  exists a b,
    position x = Some a /\ position y = Some b /\ lexicographic a b = Lt.
Proof.
  rewrite ltb_spec. unfold SFltb. rewrite SFcompare_position.
  destruct (position x) as [a|], (position y) as [b|].
  - destruct (lexicographic a b) eqn:E; split.
    all: try discriminate.
    all: try (intros (a' & b' & Ha & Hb & H); congruence).
    intros _. now exists a, b.
  - split; [discriminate|]. intros (a' & b' & _ & H & _). discriminate.
  - split; [discriminate|]. intros (a' & b' & H & _). discriminate.
  - split; [discriminate|]. intros (a' & b' & H & _). discriminate.
Qed.

Lemma leb_position (x y : float) :
  (x <=? y) = true <->
  exists a b,
    position x = Some a /\ position y = Some b /\ lexicographic a b <> Gt.
Proof.
  rewrite leb_spec. unfold SFleb. rewrite SFcompare_position.
  destruct (position x) as [a|], (position y) as [b|].
  - destruct (lexicographic a b) eqn:E; split.
    all: try discriminate.
    all: try (intros (a' & b' & Ha & Hb & H); congruence).
    all: intros _; exists a, b; rewrite E; repeat split; discriminate.
  - split; [discriminate|]. intros (a' & b' & _ & H & _). discriminate.
  - split; [discriminate|]. intros (a' & b' & H & _). discriminate.
  - split; [discriminate|]. intros (a' & b' & H & _). discriminate.
Qed.

Lemma is_nan_position (x : float) :
  is_nan x = false <-> exists a, position x = Some a.
Proof.
  unfold is_nan. rewrite negb_false_iff, eqb_spec. unfold SFeqb.
  rewrite SFcompare_position. destruct (position x) as [a|].
  - rewrite lexicographic_refl. split; [now exists a | reflexivity].
  - split; [discriminate | now intros [a H]].
Qed.

Lemma ltb_trans (x y z : float) :
  (x <? y) = true -> (y <? z) = true -> (x <? z) = true.
Proof.
  rewrite !ltb_position.
  intros (a & b & Ha & Hb & Hab) (b' & c & Hb' & Hc & Hbc).
  exists a, c. repeat (split; [assumption|]).
  assert (b' = b) as -> by congruence.
  rewrite lexicographic_Lt in *. lia.
Qed.

Lemma ltb_leb (x y : float) : (x <? y) = true -> (x <=? y) = true.
Proof.
  rewrite ltb_position, leb_position. intros (a & b & Ha & Hb & Hab).
  exists a, b. repeat (split; [assumption|]). congruence.
Qed.

Lemma not_ltb_leb (x y : float) :
  is_nan x = false -> is_nan y = false ->
  (x <? y) = false -> (y <=? x) = true.
Proof.
  rewrite !is_nan_position, <- not_true_iff_false, ltb_position, leb_position.
  intros [a Ha] [b Hb] H. exists b, a. repeat (split; [assumption|]).
  rewrite lexicographic_Gt. intros Hlt. apply H. now exists a, b.
Qed.

Lemma leb_ltb_trans (x y z : float) :
  (x <=? y) = true -> (y <? z) = true -> (x <? z) = true.
Proof.
  rewrite !ltb_position, leb_position.
  intros (a & b & Ha & Hb & Hab) (b' & c & Hb' & Hc & Hbc).
  exists a, c. repeat (split; [assumption|]).
  assert (b' = b) as -> by congruence.
  destruct (lexicographic a b) eqn:E; [| |congruence].
  - apply lexicographic_Eq in E. rewrite lexicographic_Lt in *. lia.
  - rewrite lexicographic_Lt in *. lia.
Qed.

Lemma ltb_leb_trans (x y z : float) :
  (x <? y) = true -> (y <=? z) = true -> (x <? z) = true.
Proof.
  rewrite !ltb_position, leb_position.
  intros (a & b & Ha & Hb & Hab) (b' & c & Hb' & Hc & Hbc).
  exists a, c. repeat (split; [assumption|]).
  assert (b' = b) as -> by congruence.
  destruct (lexicographic b c) eqn:E; [| |congruence].
  - apply lexicographic_Eq in E. rewrite lexicographic_Lt in *. lia.
  - rewrite lexicographic_Lt in *. lia.
Qed.

Lemma leb_refl (x : float) : is_nan x = false -> (x <=? x) = true.
Proof.
  rewrite is_nan_position, leb_position. intros [a Ha]. exists a, a.
  rewrite lexicographic_refl. repeat split; (assumption || discriminate).
Qed.

Lemma ltb_nan (x y : float) :
  is_nan x = true -> (x <? y) = false /\ (y <? x) = false.
Proof.
  intros H. split; apply not_true_iff_false; rewrite ltb_position;
    intros (a & b & Ha & Hb & _).
  - assert (is_nan x = false) by (apply is_nan_position; eauto). congruence.
  - assert (is_nan x = false) by (apply is_nan_position; eauto). congruence.
Qed.

(** ** [min] and [max] with a key *)

Section Extremum.
Context {A : Type}.
Variable better : float -> float -> bool.
Variable key : A -> float.

Lemma extremum_loop_pure (fkey : A -> result float) (l : list A) :
  (forall x, In x l -> fkey x = Ok (key x)) ->
  forall best,
    extremum_loop better fkey best (key best) l = Ok (first_best better key best l).
Proof.
  induction l as [|x l IH]; intros Hk best; simpl; [reflexivity|].
  rewrite Hk by now left. simpl.
  destruct (better (key x) (key best)); apply IH; intros; apply Hk; now right.
Qed.

Lemma extremum_pure (fkey : A -> result float) (x : A) (l : list A) :
  (forall y, In y (x :: l) -> fkey y = Ok (key y)) ->
  extremum better fkey (x :: l) = Ok (first_best better key x l).
Proof.
  intros Hk. unfold extremum. rewrite Hk by now left. simpl.
  apply extremum_loop_pure. intros; apply Hk; now right.
Qed.

Lemma first_best_In (l : list A) :
  forall best, In (first_best better key best l) (best :: l).
Proof.
  induction l as [|x l IH]; intros best; simpl; [now left|].
  destruct (better (key x) (key best)).
  - right. apply IH.
  - destruct (IH best) as [H | H]; [now left | right; now right].
Qed.

(** [R a b]: key [b] is strictly better than key [a].  The keys that are
    not NaN are totally ordered; a NaN key is comparable with none. *)
Variable R : float -> float -> Prop.
Hypothesis better_spec : forall k b, better k b = true <-> R b k.
Hypothesis R_trans : forall a b c, R a b -> R b c -> R a c.
Hypothesis R_weak_trans :
  forall a b c,
    is_nan a = false -> is_nan b = false -> ~ R b a -> R b c -> R a c.

(** When no key is NaN, the selected item splits the list: everything
    before it is strictly worse, nothing after it is strictly better. *)
Lemma first_best_split (l : list A) :
  forall best,
    Forall (fun y => is_nan (key y) = false) (best :: l) ->
    exists pre post,
      best :: l = pre ++ first_best better key best l :: post /\
      Forall (fun y => R (key y) (key (first_best better key best l))) pre /\
      Forall (fun y => ~ R (key (first_best better key best l)) (key y)) post.
Proof.
  induction l as [|x l IH]; intros best Hnan; simpl.
  - exists [], []. repeat split; constructor.
  - inversion Hnan as [|? ? Hbest Hrest]; subst.
    inversion Hrest as [|? ? Hx Hl']; subst.
    destruct (better (key x) (key best)) eqn:Hb.
    + apply better_spec in Hb.
      destruct (IH x Hrest) as (pre & post & Heq & Hpre & Hpost).
      remember (first_best better key x l) as r eqn:Hr. clear Hr IH.
      exists (best :: pre), post. split; [simpl; now rewrite Heq|].
      split; [|assumption]. constructor; [|assumption].
      destruct pre as [|p pre]; simpl in Heq; injection Heq as Hx' Hl.
      * now rewrite <- Hx'.
      * rewrite <- Hx' in Hpre. inversion Hpre. eapply R_trans; eauto.
    + assert (Hn : ~ R (key best) (key x))
        by (intros H; apply better_spec in H; congruence).
      destruct (IH best (Forall_cons _ Hbest Hl'))
        as (pre & post & Heq & Hpre & Hpost).
      remember (first_best better key best l) as r eqn:Hr. clear Hr IH.
      destruct pre as [|p pre]; simpl in Heq; injection Heq as Hx' Hl.
      * exists [], (x :: post). split; [simpl; now rewrite Hx', Hl|].
        split; [constructor|]. constructor; [now rewrite <- Hx'|assumption].
      * exists (best :: x :: pre), post. split; [simpl; now rewrite Hl|].
        split; [|assumption]. rewrite <- Hx' in Hpre. inversion Hpre.
        constructor; [assumption|]. constructor; [|assumption].
        eapply (R_weak_trans (key x) (key best)); eauto.
Qed.
End Extremum.

Lemma better_max_weak_trans (a b c : float) :
  is_nan a = false -> is_nan b = false ->
  (b <? a) <> true -> (b <? c) = true -> (a <? c) = true.
Proof.
  intros Ha Hb Hba Hbc. apply (leb_ltb_trans a b c); [|assumption].
  apply not_ltb_leb; try assumption. now apply not_true_iff_false.
Qed.

Lemma better_min_weak_trans (a b c : float) :
  is_nan a = false -> is_nan b = false ->
  (a <? b) <> true -> (c <? b) = true -> (c <? a) = true.
Proof.
  intros Ha Hb Hab Hcb. apply (ltb_leb_trans c b a); [assumption|].
  apply not_ltb_leb; try assumption. now apply not_true_iff_false.
Qed.

Lemma first_max_split {A : Type} (key : A -> float) (x : A) (l : list A) :
  Forall (fun y => is_nan (key y) = false) (x :: l) ->
  exists pre post,
    x :: l = pre ++ first_best better_max key x l :: post /\
    Forall (fun y => (key y <? key (first_best better_max key x l)) = true)
      pre /\
    Forall (fun y => (key y <=? key (first_best better_max key x l)) = true)
      post.
Proof.
  intros Hnan.
  destruct (first_best_split better_max key (fun a b => (a <? b) = true))
    with (l := l) (best := x) as (pre & post & Heq & Hpre & Hpost).
  - intros; reflexivity.
  - intros a b c; apply ltb_trans.
  - intros a b c; apply better_max_weak_trans.
  - assumption.
  - exists pre, post. split; [assumption|]. split; [assumption|].
    rewrite Forall_forall in *. intros y Hy.
    apply not_ltb_leb; [| |apply not_true_iff_false; now apply Hpost].
    + apply Hnan. apply first_best_In.
    + apply Hnan. rewrite Heq. apply in_or_app. right. now right.
Qed.

Lemma first_min_split {A : Type} (key : A -> float) (x : A) (l : list A) :
  Forall (fun y => is_nan (key y) = false) (x :: l) ->
  exists pre post,
    x :: l = pre ++ first_best better_min key x l :: post /\
    Forall (fun y => (key (first_best better_min key x l) <? key y) = true)
      pre /\
    Forall (fun y => (key (first_best better_min key x l) <=? key y) = true)
      post.
Proof.
  intros Hnan.
  destruct (first_best_split better_min key (fun a b => (b <? a) = true))
    with (l := l) (best := x) as (pre & post & Heq & Hpre & Hpost).
  - intros; reflexivity.
  - intros a b c H1 H2; eapply ltb_trans; eauto.
  - intros a b c; apply better_min_weak_trans.
  - assumption.
  - exists pre, post. split; [assumption|]. split; [assumption|].
    rewrite Forall_forall in *. intros y Hy.
    apply not_ltb_leb; [| |apply not_true_iff_false; now apply Hpost].
    + apply Hnan. rewrite Heq. apply in_or_app. right. now right.
    + apply Hnan. apply first_best_In.
Qed.

Lemma first_min_le_first_max {A : Type} (key : A -> float) (x : A)
  (l : list A) :
  Forall (fun y => is_nan (key y) = false) (x :: l) ->
  (key (first_best better_min key x l)
   <=? key (first_best better_max key x l)) = true.
Proof.
  intros Hnan.
  destruct (first_min_split key x l Hnan) as (pre & post & Heq & Hpre & Hpost).
  pose proof (first_best_In better_max key l x) as Hin.
  rewrite Heq in Hin. apply in_app_or in Hin.
  rewrite Forall_forall in Hpre, Hpost.
  destruct Hin as [Hin | [Hin | Hin]].
  - apply ltb_leb. now apply Hpre.
  - rewrite <- Hin. apply leb_refl.
    rewrite Forall_forall in Hnan. apply Hnan. apply first_best_In.
  - now apply Hpost.
Qed.

(** ** Well-formed datasets *)

Lemma getitem_score (r : row) (i : nat) :
  List.length (row_scores r) = List.length subjects ->
  (i < List.length subjects)%nat ->
  getitem (row_scores r) i = Ok (score r i).
Proof.
  intros Hlen Hi. unfold getitem, score.
  destruct (nth_error (row_scores r) i) eqn:Hn.
  - now rewrite (nth_error_nth _ _ _ Hn).
  - apply nth_error_None in Hn. lia.
Qed.

Lemma in_enumerate {A : Type} (l : list A) (i : nat) (x : A) :
  In (i, x) (enumerate l) <-> nth_error l i = Some x.
Proof.
  unfold enumerate.
  assert (H : forall n, In (i, x) (combine (seq n (List.length l)) l) <->
                        (n <= i)%nat /\ nth_error l (i - n) = Some x).
  { induction l as [|y l IH]; intros n; simpl.
    - split; [tauto|]. intros [_ H]. now destruct (i - n)%nat.
    - rewrite IH. split.
      + intros [H | [Hle H]].
        * injection H as <- <-. split; [lia|]. now rewrite Nat.sub_diag.
        * split; [lia|]. replace (i - n)%nat with (S (i - S n)) by lia.
          exact H.
      + intros [Hle H]. destruct (Nat.eq_dec n i) as [<- | Hne].
        * rewrite Nat.sub_diag in H. simpl in H. left. congruence.
        * right. split; [lia|].
          replace (i - n)%nat with (S (i - S n)) in H by lia. exact H. }
  rewrite H, Nat.sub_0_r. split; [tauto|]. split; [lia|assumption].
Qed.

Lemma rows_of_term_well_formed (data_list : list row) (term : string) :
  well_formed data_list -> well_formed (rows_of_term data_list term).
Proof.
  unfold well_formed, rows_of_term. rewrite !Forall_forall.
  intros H r Hr. apply filter_In in Hr. now apply H.
Qed.

Lemma has_records_rows (data_list : list row) (term : string) :
  has_records data_list term =
  match rows_of_term data_list term with [] => false | _ :: _ => true end.
Proof.
  unfold has_records, rows_of_term.
  induction data_list as [|r l IH]; simpl; [reflexivity|].
  destruct (String.eqb (row_term r) term); simpl; [reflexivity | exact IH].
Qed.

(** ** The double loop over terms and subjects *)

Section PerTermSubject.
Context {R X : Type}.
Variable group : string -> list R.
Variable entry : string -> nat -> string -> R -> list R -> X.

Lemma per_term_subject_keys (key : X -> string * string) :
  (forall t i s x l, key (entry t i s x l) = (t, s)) ->
  map key (per_term_subject group entry) =
  filter (fun p => nonempty (group (fst p))) term_subject_pairs.
Proof.
  intros Hkey. unfold per_term_subject, term_subject_pairs, enumerate.
  generalize 0%nat as n. generalize subjects as ss. generalize terms as ts.
  induction ts as [|t ts IH]; intros ss n; [reflexivity|].
  cbn [flat_map list_prod]. rewrite map_app, filter_app, IH. f_equal.
  clear IH. revert n.
  induction ss as [|s ss IH]; intros n; [reflexivity|].
  cbn [List.length seq combine flat_map map filter fst].
  rewrite map_app, IH.
  destruct (group t) as [|x l]; cbn [nonempty map app];
    [reflexivity | now rewrite Hkey].
Qed.

Lemma per_term_subject_In (e : X) :
  In e (per_term_subject group entry) ->
  exists t i s x l,
    In t terms /\ nth_error subjects i = Some s /\ group t = x :: l /\
    e = entry t i s x l.
Proof.
  unfold per_term_subject. intros H.
  apply in_flat_map in H. destruct H as (t & Ht & H).
  apply in_flat_map in H. destruct H as ([i s] & Hin & H).
  apply in_enumerate in Hin.
  destruct (group t) as [|x l] eqn:Hg; simpl in H; [contradiction|].
  destruct H as [H | []]. exists t, i, s, x, l. now rewrite Hg.
Qed.
End PerTermSubject.

Lemma pairs_with_records_length (data_list : list row) :
  List.length
    (filter (fun p => has_records data_list (fst p)) term_subject_pairs) =
  (8 * List.length (filter (has_records data_list) terms))%nat.
Proof.
  change 8%nat with (List.length subjects).
  unfold term_subject_pairs.
  generalize subjects as ss. generalize terms as ts.
  induction ts as [|t ts IH]; intros ss; [simpl; lia|].
  cbn [list_prod filter]. rewrite filter_app, length_app, IH.
  assert (H : List.length
                (filter (fun p : string * string =>
                           has_records data_list (fst p))
                   (map (fun y => (t, y)) ss)) =
              if has_records data_list t then List.length ss else 0%nat).
  { clear IH. induction ss as [|s ss IH]; cbn [map filter fst].
    - now destruct (has_records data_list t).
    - destruct (has_records data_list t); simpl; [now rewrite IH | exact IH]. }
  rewrite H. destruct (has_records data_list t); simpl; lia.
Qed.

Lemma pairs_with_records_complete (data_list : list row)
  (term subject : string) :
  In term terms -> has_records data_list term = true -> In subject subjects ->
  In (term, subject)
    (filter (fun p => has_records data_list (fst p)) term_subject_pairs).
Proof.
  intros Ht Hr Hs. apply filter_In. split; [|exact Hr].
  unfold term_subject_pairs. now apply in_prod.
Qed.


Lemma filter_has_records (data_list : list row) :
  filter (fun p => nonempty (rows_of_term data_list (fst p)))
    term_subject_pairs =
  filter (fun p => has_records data_list (fst p)) term_subject_pairs.
Proof.
  apply filter_ext. intros p. now rewrite has_records_rows.
Qed.

(** ** calculate_class_averages on well-formed data *)

Lemma calculate_class_averages_well_formed (data_list : list row) :
  well_formed data_list ->
  calculate_class_averages data_list = Ok (class_averages_of data_list).
Proof.
  intros Hwf.
  unfold calculate_class_averages, class_averages_of, per_term_subject.
  rewrite <- (app_nil_l (flat_map _ terms)).
  apply for_each_appends. intros term acc _.
  apply for_each_appends. intros [i subject] acc' Hin.
  apply in_enumerate in Hin.
  assert (Hi : (i < List.length subjects)%nat)
    by (apply nth_error_Some; congruence).
  rewrite comprehension_map with (h := fun r => score r i).
  - destruct (rows_of_term data_list term) as [|r rs];
      [simpl; now rewrite app_nil_r|].
    cbv beta iota zeta.
    remember (map (fun r0 => score r0 i) (r :: rs)) as col eqn:Hcol.
    assert (Hne : col <> []) by (rewrite Hcol; discriminate).
    unfold bind. destruct col as [|c col]; [contradiction|].
    now rewrite py_truediv_len.
  - intros r Hr. apply getitem_score; [|assumption].
    pose proof (rows_of_term_well_formed _ term Hwf) as Hwf'.
    unfold well_formed in Hwf'. rewrite Forall_forall in Hwf'. now apply Hwf'.
Qed.

Lemma class_averages_of_keys (data_list : list row) :
  map fst (class_averages_of data_list) =
  filter (fun p => has_records data_list (fst p)) term_subject_pairs.
Proof.
  unfold class_averages_of.
  rewrite per_term_subject_keys by reflexivity. apply filter_has_records.
Qed.




(** The example of the specification: one term-1 record. *)
Example calculate_class_averages_one_record :
  calculate_class_averages [mkRow "s1" "1" [90; 80; 70; 60; 50; 40; 30; 20]]
  = Ok [("1", "Chi", 90); ("1", "Eng", 80); ("1", "Math", 70);
        ("1", "GS", 60); ("1", "CS", 50); ("1", "Music", 40);
        ("1", "VA", 30); ("1", "PE", 20)].
Proof. vm_compute. reflexivity. Qed.


(** ** The extremum identifiers on well-formed data *)

Lemma identify_achievers_well_formed (better : float -> float -> bool)
  (data_list : list row) :
  well_formed data_list ->
  identify_achievers (extremum better) data_list =
  Ok (achievers_of better data_list).
Proof.
  intros Hwf. unfold identify_achievers, achievers_of, per_term_subject.
  rewrite <- (app_nil_l (flat_map _ terms)).
  apply for_each_appends. intros term acc _.
  apply for_each_appends. intros [i subject] acc' Hin.
  apply in_enumerate in Hin.
  assert (Hi : (i < List.length subjects)%nat)
    by (apply nth_error_Some; congruence).
  pose proof (rows_of_term_well_formed _ term Hwf) as Hwf'.
  unfold well_formed in Hwf'. rewrite Forall_forall in Hwf'.
  destruct (rows_of_term data_list term) as [|x l];
    [simpl; now rewrite app_nil_r|].
  cbv beta iota zeta.
  rewrite extremum_pure with (key := fun y => score y i)
    by (intros y Hy; apply getitem_score; auto).
  simpl. rewrite getitem_score; [reflexivity | | assumption].
  apply Hwf', first_best_In.
Qed.

Lemma achievers_of_keys (better : float -> float -> bool)
  (data_list : list row) :
  map (fun e : achiever => fst (fst e)) (achievers_of better data_list) =
  filter (fun p => has_records data_list (fst p)) term_subject_pairs.
Proof.
  unfold achievers_of.
  rewrite per_term_subject_keys by reflexivity. apply filter_has_records.
Qed.

Lemma achievers_of_values (better : float -> float -> bool)
  (data_list : list row)
  (term subject sid : string) (sc : float) :
  In (term, subject, sid, sc) (achievers_of better data_list) ->
  exists i x l,
    nth_error subjects i = Some subject /\
    rows_of_term data_list term = x :: l /\
    sid = row_sid (first_best better (fun y => score y i) x l) /\
    sc = score (first_best better (fun y => score y i) x l) i.
Proof.
  intros H. apply per_term_subject_In in H.
  destruct H as (t & i & s & x & l & _ & Hs & Hg & H).
  injection H as -> -> -> ->. now exists i, x, l.
Qed.

Lemma achievers_of_rows (better : float -> float -> bool)
  (data_list : list row) (term subject sid : string) (sc : float) :
  In (term, subject, sid, sc) (achievers_of better data_list) ->
  exists i x l,
    nth_error subjects i = Some subject /\
    rows_of_term data_list term = x :: l /\
    In (first_best better (fun y => score y i) x l)
      (rows_of_term data_list term) /\
    sid = row_sid (first_best better (fun y => score y i) x l) /\
    sc = score (first_best better (fun y => score y i) x l) i.
Proof.
  intros H. apply achievers_of_values in H.
  destruct H as (i & x & l & Hs & Hrows & Hsid & Hsc).
  exists i, x, l. repeat (split; [assumption|]).
  split; [|now split]. rewrite Hrows. apply first_best_In.
Qed.

(** C5: on a dataset of well-formed records, the highest (resp. lowest)
    achievers have one entry per (term, subject) pair whose term has a
    record, and none for the other pairs; the entry carries the student id
    and the score of a record of the term; when none of the term's scores
    at the subject's index is NaN, this record is the first, among the
    records of the term in input order, whose score at that index is
    maximal (resp. minimal). *)
Theorem identify_achievers_spec (data_list : list row) :
  well_formed data_list ->
  exists high low,
    identify_highest_achieving_students data_list = Ok high /\
    identify_lowest_achieving_students data_list = Ok low /\
    map (fun e : achiever => fst (fst e)) high =
      filter (fun p => has_records data_list (fst p)) term_subject_pairs /\
    map (fun e : achiever => fst (fst e)) low =
      filter (fun p => has_records data_list (fst p)) term_subject_pairs /\
    (forall term subject sid sc,
        In (term, subject, sid, sc) high ->
        exists i r,
          nth_error subjects i = Some subject /\
          In r (rows_of_term data_list term) /\
          sid = row_sid r /\ sc = score r i /\
          (Forall (fun v => is_nan v = false) (column data_list term i) ->
           first_maximal i (rows_of_term data_list term) r)) /\
    (forall term subject sid sc,
        In (term, subject, sid, sc) low ->
        exists i r,
          nth_error subjects i = Some subject /\
          In r (rows_of_term data_list term) /\
          sid = row_sid r /\ sc = score r i /\
          (Forall (fun v => is_nan v = false) (column data_list term i) ->
           first_minimal i (rows_of_term data_list term) r)).
Proof.
  intros Hwf.
  exists (achievers_of better_max data_list), (achievers_of better_min data_list).
  split; [now apply identify_achievers_well_formed|].
  split; [now apply identify_achievers_well_formed|].
  split; [apply achievers_of_keys|]. split; [apply achievers_of_keys|].
  split; intros term subject sid sc Hin;
    apply achievers_of_rows in Hin;
    destruct Hin as (i & x & l & Hs & Hrows & Hr & -> & ->);
    exists i; eexists; (split; [exact Hs|]); (split; [exact Hr|]);
    (split; [reflexivity|]); (split; [reflexivity|]);
    unfold column; rewrite Hrows, Forall_map; intros Hnan.
  - now apply (first_max_split (fun y => score y i)).
  - now apply (first_min_split (fun y => score y i)).
Qed.

Lemma identify_achievers_spec_witness :
  exists high low,
    identify_highest_achieving_students
      [mkRow "s1" "1" [1; 2; 40.5; 4; 5; 6; 7; 8];
       mkRow "s2" "1" [1; 2; 95; 4; 5; 6; 7; 8];
       mkRow "s3" "1" [1; 2; 95; 4; 5; 6; 7; 8]] = Ok high /\
    identify_lowest_achieving_students
      [mkRow "s1" "1" [1; 2; 40.5; 4; 5; 6; 7; 8];
       mkRow "s2" "1" [1; 2; 95; 4; 5; 6; 7; 8];
       mkRow "s3" "1" [1; 2; 95; 4; 5; 6; 7; 8]] = Ok low /\
    In ("1", "Math", "s2", 95) high /\ In ("1", "Math", "s1", 40.5) low /\
    In ("1", "Chi", "s1", 1) high /\ In ("1", "Chi", "s1", 1) low /\
    first_maximal 2
      [mkRow "s1" "1" [1; 2; 40.5; 4; 5; 6; 7; 8];
       mkRow "s2" "1" [1; 2; 95; 4; 5; 6; 7; 8];
       mkRow "s3" "1" [1; 2; 95; 4; 5; 6; 7; 8]]
      (mkRow "s2" "1" [1; 2; 95; 4; 5; 6; 7; 8]).
Proof.
  destruct (identify_achievers_spec
              [mkRow "s1" "1" [1; 2; 40.5; 4; 5; 6; 7; 8];
               mkRow "s2" "1" [1; 2; 95; 4; 5; 6; 7; 8];
               mkRow "s3" "1" [1; 2; 95; 4; 5; 6; 7; 8]])
    as (high & low & Hh & Hl & _ & _ & Hmax & _).
  - repeat constructor.
  - exists high, low. split; [exact Hh|]. split; [exact Hl|].
    vm_compute in Hh, Hl. injection Hh as <-. injection Hl as <-.
    repeat (split; [simpl; tauto|]).
    destruct (Hmax "1" "Math" "s2" 95) as (i & r & Hi & Hr & Hsid & _ & H).
    + simpl; tauto.
    + assert (i = 2%nat) as ->.
      { destruct i as [|[|[|[|[|[|[|[|i]]]]]]]]; try discriminate Hi;
          [reflexivity | now destruct i]. }
      assert (r = mkRow "s2" "1" [1; 2; 95; 4; 5; 6; 7; 8]) as ->.
      { destruct Hr as [<- | [<- | [<- | []]]];
          [discriminate Hsid | reflexivity | discriminate Hsid]. }
      apply H. repeat constructor.
Defined.

(** A record whose score is NaN, when it comes first, is both the highest
    and the lowest achiever, although the score 5 of the other record is
    neither less nor greater than NaN. *)
Lemma identify_achievers_nan_counterexample :
  identify_highest_achieving_students
    [mkRow "s1" "1" [nan; 1; 1; 1; 1; 1; 1; 1];
     mkRow "s2" "1" [5; 1; 1; 1; 1; 1; 1; 1]]
  = Ok [("1", "Chi", "s1", nan); ("1", "Eng", "s1", 1);
        ("1", "Math", "s1", 1); ("1", "GS", "s1", 1); ("1", "CS", "s1", 1);
        ("1", "Music", "s1", 1); ("1", "VA", "s1", 1); ("1", "PE", "s1", 1)] /\
  ~ first_maximal 0
      [mkRow "s1" "1" [nan; 1; 1; 1; 1; 1; 1; 1];
       mkRow "s2" "1" [5; 1; 1; 1; 1; 1; 1; 1]]
      (mkRow "s1" "1" [nan; 1; 1; 1; 1; 1; 1; 1]) /\
  ~ (exists r,
        In r [mkRow "s1" "1" [nan; 1; 1; 1; 1; 1; 1; 1];
              mkRow "s2" "1" [5; 1; 1; 1; 1; 1; 1; 1]] /\
        row_sid r = "s1" /\
        Forall (fun y => (score y 0 <=? score r 0) = true)
          [mkRow "s1" "1" [nan; 1; 1; 1; 1; 1; 1; 1];
           mkRow "s2" "1" [5; 1; 1; 1; 1; 1; 1; 1]]).
Proof.
  split; [vm_compute; reflexivity|]. split.
  - intros (pre & post & Heq & _ & Hpost).
    destruct pre as [|p pre]; cbn [app] in Heq.
    + injection Heq as <-. inversion Hpost as [|? ? H _]. discriminate H.
    + injection Heq as _ Heq.
      destruct pre as [|p' pre]; cbn [app] in Heq; [discriminate Heq|].
      injection Heq as _ Heq. now destruct pre.
  - intros (r & Hr & Hsid & Hall).
    destruct Hr as [<- | [<- | []]]; [|discriminate Hsid].
    inversion Hall as [|? ? H _]. discriminate H.
Qed.

(** ** Shape of the per-term outputs *)

(** C9: on a dataset of well-formed records, the class averages, the highest
    achievers and the lowest achievers each contain an entry for every one of
    the 8 subjects of every term of ["1", "2"] that has a record, and their
    length is 8 times the number of such terms. *)
Theorem outputs_cover_all_subjects (data_list : list row) :
  well_formed data_list ->
  exists averages high low,
    calculate_class_averages data_list = Ok averages /\
    identify_highest_achieving_students data_list = Ok high /\
    identify_lowest_achieving_students data_list = Ok low /\
    List.length averages =
      (8 * List.length (filter (has_records data_list) terms))%nat /\
    List.length high =
      (8 * List.length (filter (has_records data_list) terms))%nat /\
    List.length low =
      (8 * List.length (filter (has_records data_list) terms))%nat /\
    forall term subject,
      In term terms -> has_records data_list term = true ->
      In subject subjects ->
      In (term, subject) (map fst averages) /\
      In (term, subject) (map (fun e : achiever => fst (fst e)) high) /\
      In (term, subject) (map (fun e : achiever => fst (fst e)) low).
Proof.
  intros Hwf.
  exists (class_averages_of data_list), (achievers_of better_max data_list),
    (achievers_of better_min data_list).
  split; [now apply calculate_class_averages_well_formed|].
  split; [now apply identify_achievers_well_formed|].
  split; [now apply identify_achievers_well_formed|].
  pose proof (class_averages_of_keys data_list) as Ha.
  pose proof (achievers_of_keys better_max data_list) as Hh.
  pose proof (achievers_of_keys better_min data_list) as Hl.
  repeat split.
  - rewrite <- pairs_with_records_length, <- Ha. now rewrite length_map.
  - rewrite <- pairs_with_records_length, <- Hh. now rewrite length_map.
  - rewrite <- pairs_with_records_length, <- Hl. now rewrite length_map.
  - rewrite Ha. now apply pairs_with_records_complete.
  - rewrite Hh. now apply pairs_with_records_complete.
  - rewrite Hl. now apply pairs_with_records_complete.
Qed.

Lemma outputs_cover_all_subjects_witness :
  exists averages high low,
    calculate_class_averages
      [mkRow "s1" "2" [1; 2; 3; 4; 5; 6; 7; 8]] = Ok averages /\
    identify_highest_achieving_students
      [mkRow "s1" "2" [1; 2; 3; 4; 5; 6; 7; 8]] = Ok high /\
    identify_lowest_achieving_students
      [mkRow "s1" "2" [1; 2; 3; 4; 5; 6; 7; 8]] = Ok low /\
    List.length averages = 8%nat /\ List.length high = 8%nat /\
    List.length low = 8%nat.
Proof.
  destruct (outputs_cover_all_subjects
              [mkRow "s1" "2" [1; 2; 3; 4; 5; 6; 7; 8]])
    as (averages & high & low & Ha & Hh & Hl & La & Lh & Ll & _).
  - repeat constructor.
  - exists averages, high, low. repeat split; assumption.
Defined.

Lemma Forall2_flat_map {A B C : Type} (P : B -> C -> Prop)
  (f : A -> list B) (g : A -> list C) (l : list A) :
  (forall x, In x l -> Forall2 P (f x) (g x)) ->
  Forall2 P (flat_map f l) (flat_map g l).
Proof.
  induction l as [|x l IH]; intros H; simpl; [constructor|].
  apply Forall2_app; [apply H; now left | apply IH; intros; apply H; now right].
Qed.

(** A NaN key is never better than the best key, so the loop passes over
    it. *)
Lemma first_best_skips_nan {A : Type} (better : float -> float -> bool)
  (key : A -> float) (l : list A) :
  (forall k b, is_nan k = true -> better k b = false) ->
  forall best,
    first_best better key best l =
    first_best better key best
      (filter (fun y => negb (is_nan (key y))) l).
Proof.
  intros Hb. induction l as [|x l IH]; intros best; [reflexivity|].
  cbn [first_best filter]. destruct (is_nan (key x)) eqn:Hx; cbn [negb].
  - rewrite (Hb _ _ Hx). apply IH.
  - cbn [first_best]. destruct (better (key x) (key best)); apply IH.
Qed.

(** No key is better than a NaN best key, so the loop keeps it. *)
Lemma first_best_keeps_nan {A : Type} (better : float -> float -> bool)
  (key : A -> float) (l : list A) (best : A) :
  (forall k b, is_nan b = true -> better k b = false) ->
  is_nan (key best) = true -> first_best better key best l = best.
Proof.
  intros Hb Hnan. induction l as [|x l IH]; [reflexivity|].
  cbn [first_best]. now rewrite (Hb _ _ Hnan).
Qed.

Lemma first_min_le_first_max_nan {A : Type} (key : A -> float) (x : A)
  (l : list A) :
  is_nan (key (first_best better_min key x l)) = false ->
  (key (first_best better_min key x l)
   <=? key (first_best better_max key x l)) = true.
Proof.
  intros Hlo. destruct (is_nan (key x)) eqn:Hx.
  - rewrite first_best_keeps_nan in Hlo; [congruence| |assumption].
    intros k b Hk. apply (ltb_nan b k Hk).
  - rewrite (first_best_skips_nan better_min),
      (first_best_skips_nan better_max).
    + apply first_min_le_first_max. constructor; [assumption|].
      apply Forall_forall. intros y Hy. apply filter_In in Hy.
      now apply negb_true_iff.
    + intros k b Hk. apply (ltb_nan k b Hk).
    + intros k b Hk. apply (ltb_nan k b Hk).
Qed.

Lemma achievers_low_le_high (data_list : list row) :
  Forall2 (fun lo hi : achiever =>
             fst (fst lo) = fst (fst hi) /\
             (is_nan (snd lo) = false -> (snd lo <=? snd hi) = true))
    (achievers_of better_min data_list) (achievers_of better_max data_list).
Proof.
  unfold achievers_of, per_term_subject.
  apply Forall2_flat_map. intros term _.
  apply Forall2_flat_map. intros [i subject] _.
  destruct (rows_of_term data_list term) as [|x l]; constructor; [|constructor].
  split; [reflexivity|]. cbn [snd].
  apply (first_min_le_first_max_nan (fun y => score y i)).
Qed.

(** C10: on a dataset of well-formed records, the highest and the lowest
    achievers have the same length, carry the same (term, subject) pair at
    every position, and at every position where the lowest achiever's
    score is not NaN it is less than or equal to the highest achiever's
    score. *)
Theorem lowest_le_highest (data_list : list row) :
  well_formed data_list ->
  exists high low,
    identify_highest_achieving_students data_list = Ok high /\
    identify_lowest_achieving_students data_list = Ok low /\
    List.length high = List.length low /\
    Forall2 (fun lo hi : achiever =>
               fst (fst lo) = fst (fst hi) /\
               (is_nan (snd lo) = false -> (snd lo <=? snd hi) = true))
      low high.
Proof.
  intros Hwf.
  exists (achievers_of better_max data_list), (achievers_of better_min data_list).
  split; [now apply identify_achievers_well_formed|].
  split; [now apply identify_achievers_well_formed|].
  pose proof (achievers_low_le_high data_list) as H.
  split; [|exact H]. symmetry. eapply Forall2_length; exact H.
Qed.

Lemma lowest_le_highest_witness :
  exists high low,
    identify_highest_achieving_students
      [mkRow "s1" "1" [9; 2; 3; 4; 5; 6; 7; 8];
       mkRow "s2" "1" [1.5; 7; 3; 4; 5; 6; 7; 8]] = Ok high /\
    identify_lowest_achieving_students
      [mkRow "s1" "1" [9; 2; 3; 4; 5; 6; 7; 8];
       mkRow "s2" "1" [1.5; 7; 3; 4; 5; 6; 7; 8]] = Ok low /\
    List.length high = List.length low /\
    Forall2 (fun lo hi : achiever =>
               fst (fst lo) = fst (fst hi) /\
               (is_nan (snd lo) = false -> (snd lo <=? snd hi) = true))
      low high.
Proof.
  apply (lowest_le_highest
           [mkRow "s1" "1" [9; 2; 3; 4; 5; 6; 7; 8];
            mkRow "s2" "1" [1.5; 7; 3; 4; 5; 6; 7; 8]]).
  repeat constructor.
Defined.

(** The scores of the example are ordered as the theorem says. *)
Example lowest_le_highest_scores :
  identify_lowest_achieving_students
    [mkRow "s1" "1" [9; 2; 3; 4; 5; 6; 7; 8];
     mkRow "s2" "1" [1.5; 7; 3; 4; 5; 6; 7; 8]]
  = Ok [("1", "Chi", "s2", 1.5); ("1", "Eng", "s1", 2);
        ("1", "Math", "s1", 3); ("1", "GS", "s1", 4); ("1", "CS", "s1", 5);
        ("1", "Music", "s1", 6); ("1", "VA", "s1", 7); ("1", "PE", "s1", 8)] /\
  identify_highest_achieving_students
    [mkRow "s1" "1" [9; 2; 3; 4; 5; 6; 7; 8];
     mkRow "s2" "1" [1.5; 7; 3; 4; 5; 6; 7; 8]]
  = Ok [("1", "Chi", "s1", 9); ("1", "Eng", "s2", 7);
        ("1", "Math", "s1", 3); ("1", "GS", "s1", 4); ("1", "CS", "s1", 5);
        ("1", "Music", "s1", 6); ("1", "VA", "s1", 7); ("1", "PE", "s1", 8)].
Proof. split; vm_compute; reflexivity. Qed.

(** When the first record of a term has a NaN score, this score is both
    the lowest and the highest of its subject, and NaN is not less than or
    equal to NaN. *)
Lemma lowest_le_highest_nan_counterexample :
  exists high low,
    identify_highest_achieving_students
      [mkRow "s1" "1" [nan; 1; 1; 1; 1; 1; 1; 1];
       mkRow "s2" "1" [5; 1; 1; 1; 1; 1; 1; 1]] = Ok high /\
    identify_lowest_achieving_students
      [mkRow "s1" "1" [nan; 1; 1; 1; 1; 1; 1; 1];
       mkRow "s2" "1" [5; 1; 1; 1; 1; 1; 1; 1]] = Ok low /\
    nth_error high 0 = Some ("1", "Chi", "s1", nan) /\
    nth_error low 0 = Some ("1", "Chi", "s1", nan) /\
    ~ Forall2 (fun lo hi : achiever =>
                 fst (fst lo) = fst (fst hi) /\ (snd lo <=? snd hi) = true)
        low high.
Proof.
  eexists. eexists.
  split; [vm_compute; reflexivity|]. split; [vm_compute; reflexivity|].
  split; [reflexivity|]. split; [reflexivity|].
  intros H. inversion H as [|? ? ? ? [_ Hle] _]. discriminate Hle.
Qed.

(** ** analyze_performance_trends on well-formed data *)

Lemma find_app {A : Type} (f : A -> bool) (l1 l2 : list A) :
  find f (l1 ++ l2) =
  match find f l1 with Some x => Some x | None => find f l2 end.
Proof.
  induction l1 as [|x l1 IH]; simpl; [reflexivity|]. now destruct (f x).
Qed.

Lemma class_average_for_app (term subject : string)
  (l1 l2 : list class_average) :
  class_average_for term subject (l1 ++ l2) =
  match class_average_for term subject l1 with
  | Some x => Some x
  | None => class_average_for term subject l2
  end.
Proof. apply find_app. Qed.

Section Lookup.
Context {R : Type}.
Variable group : string -> list R.
Variable value : string -> nat -> R -> list R -> float.
Variables term subject : string.

Lemma lookup_other_term (t : string) (cells : list (nat * string)) :
  t <> term ->
  class_average_for term subject (flat_map (table_cell group value t) cells) = None.
Proof.
  intros Hne. unfold class_average_for.
  induction cells as [|[i s] cells IH]; [reflexivity|].
  cbn [flat_map]. unfold table_cell at 1.
  destruct (group t) as [|x l]; [exact IH|].
  cbn [app find]. apply String.eqb_neq in Hne. rewrite Hne. exact IH.
Qed.

Lemma lookup_no_records (cells : list (nat * string)) :
  group term = [] -> flat_map (table_cell group value term) cells = [].
Proof.
  intros Hg. induction cells as [|[i s] cells IH]; [reflexivity|].
  cbn [flat_map]. unfold table_cell at 1. now rewrite Hg.
Qed.

Lemma lookup_same_term (ss : list string) (x : R) (l : list R) :
  NoDup ss -> group term = x :: l ->
  forall n i, nth_error ss i = Some subject ->
  class_average_for term subject
    (flat_map (table_cell group value term) (combine (seq n (List.length ss)) ss)) =
  Some (term, subject, value term (n + i) x l).
Proof.
  intros Hnd Hg. unfold class_average_for.
  induction ss as [|s ss IH]; intros n i Hi; [now destruct i|].
  inversion Hnd as [|? ? Hnin Hnd']; subst.
  cbn [List.length seq combine flat_map]. unfold table_cell at 1. rewrite Hg.
  cbn [app find]. rewrite String.eqb_refl. cbn [andb].
  destruct i as [|i]; simpl in Hi.
  - injection Hi as ->. rewrite String.eqb_refl, Nat.add_0_r. reflexivity.
  - assert (Hne : s <> subject)
      by (intros ->; apply Hnin; eapply nth_error_In; eauto).
    apply String.eqb_neq in Hne. rewrite Hne.
    rewrite (IH Hnd' (S n) i Hi). now rewrite Nat.add_succ_r.
Qed.

Lemma lookup_table (ts ss : list string) (i : nat) :
  NoDup ts -> NoDup ss -> In term ts -> nth_error ss i = Some subject ->
  class_average_for term subject
    (flat_map (fun t => flat_map (table_cell group value t) (enumerate ss)) ts) =
  match group term with
  | [] => None
  | x :: l => Some (term, subject, value term i x l)
  end.
Proof.
  intros Hts Hss Hin Hi.
  assert (Hout : forall ts', ~ In term ts' ->
            class_average_for term subject
              (flat_map (fun t => flat_map (table_cell group value t) (enumerate ss)) ts')
            = None).
  { induction ts' as [|t ts' IH]; intros Hnin; [reflexivity|].
    cbn [flat_map]. rewrite class_average_for_app.
    rewrite (lookup_other_term t) by (intros ->; apply Hnin; now left).
    apply IH. intros H; apply Hnin; now right. }
  induction ts as [|t ts IH]; [contradiction|].
  inversion Hts as [|? ? Hnin Hts']; subst.
  cbn [flat_map]. rewrite class_average_for_app.
  destruct (String.eqb_spec t term) as [-> | Hne].
  - destruct (group term) as [|x l] eqn:Hg.
    + rewrite lookup_no_records by assumption. now apply Hout.
    + unfold enumerate.
      now rewrite (lookup_same_term ss x l Hss Hg 0 i Hi).
  - rewrite (lookup_other_term t) by assumption.
    apply IH; [assumption|]. destruct Hin as [-> | Hin]; tauto.
Qed.
End Lookup.

Lemma subjects_NoDup : NoDup subjects.
Proof.
  unfold subjects.
  repeat (constructor; [simpl; intuition discriminate|]). constructor.
Qed.

Lemma terms_NoDup : NoDup terms.
Proof.
  unfold terms.
  repeat (constructor; [simpl; intuition discriminate|]). constructor.
Qed.

Lemma class_average_for_of (data_list : list row) (term subject : string)
  (i : nat) :
  In term terms -> nth_error subjects i = Some subject ->
  class_average_for term subject (class_averages_of data_list) =
  option_map (fun avg => (term, subject, avg))
    (class_average_at data_list term i).
Proof.
  intros Ht Hs. unfold class_averages_of, per_term_subject.
  etransitivity.
  - apply (lookup_table (rows_of_term data_list)
             (fun t j x l => mean (map (fun r => score r j) (x :: l)))
             term subject terms subjects i terms_NoDup subjects_NoDup Ht Hs).
  - unfold class_average_at, column. rewrite has_records_rows.
    now destruct (rows_of_term data_list term).
Qed.

Lemma trend_of_subject_of (data_list : list row) (subject : string) (i : nat)
  (acc : list trend) :
  nth_error subjects i = Some subject ->
  trend_of_subject (class_averages_of data_list) subject acc =
  match class_average_at data_list "1" i, class_average_at data_list "2" i
  with
  | Some one, Some two =>
      ratio <- py_truediv (two - one) one ;;
      Ok (acc ++ [(subject, py_round2 (ratio * 100))])
  | _, _ => Ok acc
  end.
Proof.
  intros Hs. unfold trend_of_subject.
  rewrite (class_average_for_of data_list "1" subject i) by (simpl; auto).
  rewrite (class_average_for_of data_list "2" subject i) by (simpl; auto).
  destruct (class_average_at data_list "1" i),
    (class_average_at data_list "2" i); reflexivity.
Qed.

Lemma py_truediv_nonzero (a b : float) :
  (b =? 0) = false -> py_truediv a b = Ok (a / b).
Proof. intros Hb. unfold py_truediv. now rewrite Hb. Qed.

Lemma py_truediv_zero (a b : float) :
  (b =? 0) = true -> py_truediv a b = Raise ZeroDivisionError.
Proof. intros Hb. unfold py_truediv. now rewrite Hb. Qed.

Lemma for_each_enumerate {A S : Type} (l : list A)
  (body : A -> S -> result S) (s : S) :
  for_each l body s = for_each (enumerate l) (fun '(_, x) => body x) s.
Proof.
  unfold enumerate. generalize 0%nat as n. revert s.
  induction l as [|x l IH]; intros s n; [reflexivity|].
  cbn [List.length seq combine for_each].
  destruct (body x s); simpl; [apply IH | reflexivity].
Qed.

(** A loop raises when one of its iterations always raises and every other
    iteration either goes on or raises the same exception. *)
Lemma for_each_raises {A S : Type} (l : list A) (body : A -> S -> result S)
  (e : exn) (x : A) :
  In x l -> (forall s, body x s = Raise e) ->
  (forall y s, In y l -> body y s = Raise e \/ exists s', body y s = Ok s') ->
  forall s, for_each l body s = Raise e.
Proof.
  intros Hin Hx. induction l as [|y l IH]; intros Hall s; [contradiction|].
  cbn [for_each]. destruct Hin as [-> | Hin].
  - now rewrite Hx.
  - destruct (Hall y s (or_introl eq_refl)) as [H | [s' H]]; rewrite H;
      [reflexivity|].
    simpl. apply IH; [assumption|]. intros; apply Hall; now right.
Qed.

Lemma analyze_performance_trends_nonzero (data_list : list row) :
  well_formed data_list -> term_one_averages_nonzero data_list ->
  analyze_performance_trends data_list = Ok (trends_of data_list).
Proof.
  intros Hwf Hnz. unfold analyze_performance_trends.
  rewrite calculate_class_averages_well_formed by assumption. cbn [bind].
  rewrite for_each_enumerate. unfold trends_of.
  rewrite <- (app_nil_l (flat_map _ (enumerate subjects))).
  apply for_each_appends. intros [i subject] acc Hin.
  apply in_enumerate in Hin.
  rewrite (trend_of_subject_of data_list subject i acc Hin).
  destruct (class_average_at data_list "1" i) as [one|] eqn:H1;
    [|now rewrite app_nil_r].
  destruct (class_average_at data_list "2" i) as [two|];
    [|now rewrite app_nil_r].
  rewrite py_truediv_nonzero; [reflexivity|].
  apply (Hnz i); [|assumption]. apply nth_error_Some. congruence.
Qed.

(** C3: on a dataset of well-formed records whose term-"1" class averages
    are non-zero, [analyze_performance_trends] returns, for each subject in
    fixed order, one entry exactly when the class averages of both terms
    exist, and no entry for a subject missing an average.  The value of the
    entry is ((term2 - term1) / term1) * 100 evaluated in binary64, every
    operation rounding to the nearest float, then rounded to 2 decimals by
    [round].  In particular Math class averages 50 in term 1 and 75 in
    term 2 give the entry ("Math", 50). *)
Theorem analyze_performance_trends_spec (data_list : list row) :
  well_formed data_list -> term_one_averages_nonzero data_list ->
  exists out,
    analyze_performance_trends data_list = Ok out /\
    out =
      flat_map (fun '(i, subject) =>
        match class_average_at data_list "1" i,
              class_average_at data_list "2" i with
        | Some one, Some two =>
            [(subject, py_round2 ((two - one) / one * 100))]
        | _, _ => []
        end) (enumerate subjects) /\
    forall one two,
      class_average_at data_list "1" 2 = Some one ->
      class_average_at data_list "2" 2 = Some two ->
      one = 50 -> two = 75 -> In ("Math", 50) out.
Proof.
  intros Hwf Hnz. exists (trends_of data_list).
  split; [now apply analyze_performance_trends_nonzero|].
  split; [reflexivity|].
  intros one two H1 H2 -> ->. unfold trends_of.
  apply in_flat_map. exists (2%nat, "Math"). split.
  - apply in_enumerate. reflexivity.
  - rewrite H1, H2. left. vm_compute. reflexivity.
Qed.

(** The Chi class averages 80 and 91.5 give 14.37: the quotient 0.14375 is
    no float, the product of the nearest float by 100 is
    14.374999999999998, and this is what [round] rounds. *)
Lemma analyze_performance_trends_spec_witness :
  exists out,
    analyze_performance_trends
      [mkRow "s1" "1" [60; 20; 50; 30; 50; 60; 70; 80];
       mkRow "s2" "1" [100; 20; 50; 30; 50; 60; 70; 80];
       mkRow "s1" "2" [91; 30; 75; 40; 50; 60; 35; 81];
       mkRow "s2" "2" [92; 30; 75; 40; 50; 60; 35; 81]] = Ok out /\
    In ("Math", 50) out /\
    out = [("Chi", 14.37); ("Eng", 50); ("Math", 50); ("GS", 33.33);
           ("CS", 0); ("Music", 0); ("VA", -50); ("PE", 1.25)].
Proof.
  destruct (analyze_performance_trends_spec
              [mkRow "s1" "1" [60; 20; 50; 30; 50; 60; 70; 80];
               mkRow "s2" "1" [100; 20; 50; 30; 50; 60; 70; 80];
               mkRow "s1" "2" [91; 30; 75; 40; 50; 60; 35; 81];
               mkRow "s2" "2" [92; 30; 75; 40; 50; 60; 35; 81]])
    as (out & Hout & Hvalue & Hmath).
  - repeat constructor.
  - intros i one Hi H.
    do 8 (destruct i as [|i];
          [vm_compute in H; injection H as <-; reflexivity|]).
    simpl in Hi. lia.
  - exists out. split; [exact Hout|].
    split; [apply (Hmath 50 75); reflexivity|].
    rewrite Hvalue. vm_compute. reflexivity.
Defined.

(** The trend example evaluated. *)
Example analyze_performance_trends_example :
  analyze_performance_trends
    [mkRow "s1" "1" [10; 20; 50; 40; 50; 60; 70; 80];
     mkRow "s1" "2" [10; 30; 75; 40; 50; 60; 35; 81]]
  = Ok [("Chi", 0); ("Eng", 50); ("Math", 50); ("GS", 0); ("CS", 0);
        ("Music", 0); ("VA", -50); ("PE", 1.25)].
Proof. vm_compute. reflexivity. Qed.

(** [round(x, 2)] on floats that are no multiples of 1/100. *)
Example py_round2_examples :
  py_round2 14.374999999999998 = 14.37 /\
  py_round2 33.33333333333333 = 33.33 /\
  py_round2 2.675 = 2.67 /\
  py_round2 0.125 = 0.12 /\
  py_round2 0.375 = 0.38 /\
  py_round2 (-0.001) = -0 /\
  py_round2 1e16 = 1e16 /\
  py_round2 infinity = infinity.
Proof. repeat split; vm_compute; reflexivity. Qed.

(** With the Chi class averages 80 and 91.5 the percent change is exactly
    14.375, which rounds to 14.38 to the even hundredth as well as away
    from zero; the function returns 14.37. *)
Lemma analyze_performance_trends_rounding_counterexample :
  exists out one two,
    analyze_performance_trends
      [mkRow "s1" "1" [60; 60; 60; 60; 60; 60; 60; 60];
       mkRow "s2" "1" [100; 100; 100; 100; 100; 100; 100; 100];
       mkRow "s1" "2" [91; 91; 91; 91; 91; 91; 91; 91];
       mkRow "s2" "2" [92; 92; 92; 92; 92; 92; 92; 92]] = Ok out /\
    nth_error out 0 = Some ("Chi", 14.37) /\
    class_average_at
      [mkRow "s1" "1" [60; 60; 60; 60; 60; 60; 60; 60];
       mkRow "s2" "1" [100; 100; 100; 100; 100; 100; 100; 100];
       mkRow "s1" "2" [91; 91; 91; 91; 91; 91; 91; 91];
       mkRow "s2" "2" [92; 92; 92; 92; 92; 92; 92; 92]] "1" 0 = Some one /\
    class_average_at
      [mkRow "s1" "1" [60; 60; 60; 60; 60; 60; 60; 60];
       mkRow "s2" "1" [100; 100; 100; 100; 100; 100; 100; 100];
       mkRow "s1" "2" [91; 91; 91; 91; 91; 91; 91; 91];
       mkRow "s2" "2" [92; 92; 92; 92; 92; 92; 92; 92]] "2" 0 = Some two /\
    exact one = Some (80 # 1) /\ exact two = Some (183 # 2) /\
    (exact_percent_change (80 # 1) (183 # 2) == 14375 # 1000)%Q /\
    ~ rounded_to_hundredths (exact_percent_change (80 # 1) (183 # 2)) 14.37.
Proof.
  eexists. exists 80, 91.5.
  split; [vm_compute; reflexivity|]. split; [reflexivity|].
  split; [vm_compute; reflexivity|]. split; [vm_compute; reflexivity|].
  split; [vm_compute; reflexivity|]. split; [vm_compute; reflexivity|].
  split; [reflexivity|].
  intros [H | H]; vm_compute in H; discriminate H.
Qed.

Lemma analyze_performance_trends_zero (data_list : list row) :
  well_formed data_list -> zero_term_one_average data_list ->
  analyze_performance_trends data_list = Raise ZeroDivisionError.
Proof.
  intros Hwf (i & one & two & Hi & H1 & Hz & H2).
  unfold analyze_performance_trends.
  rewrite calculate_class_averages_well_formed by assumption. cbn [bind].
  destruct (nth_error subjects i) as [subject|] eqn:Hs;
    [|apply nth_error_None in Hs; lia].
  apply for_each_raises with (x := subject).
  - eapply nth_error_In; eauto.
  - intros acc. rewrite (trend_of_subject_of data_list subject i acc Hs).
    rewrite H1, H2. now rewrite py_truediv_zero.
  - intros y acc Hy. apply In_nth_error in Hy. destruct Hy as [j Hj].
    rewrite (trend_of_subject_of data_list y j acc Hj).
    destruct (class_average_at data_list "1" j) as [a|]; [|right; eauto].
    destruct (class_average_at data_list "2" j) as [b|]; [|right; eauto].
    unfold py_truediv. destruct (a =? 0); [now left | right].
    simpl. eauto.
Qed.

(** C2: [analyze_performance_trends] raises [ZeroDivisionError] on a dataset
    of well-formed records in which a subject has a zero class average in
    term "1" and a class average in term "2" (such a dataset exists); on
    every dataset of well-formed records whose term-"1" class averages are
    all non-zero it raises nothing and returns a list. *)
Theorem analyze_performance_trends_division (data_list : list row) :
  well_formed data_list ->
  (zero_term_one_average data_list ->
   analyze_performance_trends data_list = Raise ZeroDivisionError) /\
  (term_one_averages_nonzero data_list ->
   exists out, analyze_performance_trends data_list = Ok out) /\
  exists zero_data,
    well_formed zero_data /\ zero_term_one_average zero_data /\
    analyze_performance_trends zero_data = Raise ZeroDivisionError.
Proof.
  intros Hwf. split; [now apply analyze_performance_trends_zero|].
  split.
  - intros Hnz. exists (trends_of data_list).
    now apply analyze_performance_trends_nonzero.
  - exists [mkRow "s1" "1" [0; 20; 50; 40; 50; 60; 70; 80];
            mkRow "s1" "2" [10; 30; 75; 40; 50; 60; 35; 81]].
    split; [repeat constructor|]. split; [|reflexivity].
    exists 0%nat, 0, 10. repeat split. simpl; lia.
Qed.

Lemma analyze_performance_trends_division_witness :
  analyze_performance_trends
    [mkRow "s1" "1" [5; 5; 5; 5; -5; 5; 5; 5];
     mkRow "s2" "1" [5; 5; 5; 5; 5; 5; 5; 5];
     mkRow "s1" "2" [1; 2; 3; 4; 5; 6; 7; 8]] = Raise ZeroDivisionError.
Proof.
  apply (analyze_performance_trends_division
           [mkRow "s1" "1" [5; 5; 5; 5; -5; 5; 5; 5];
            mkRow "s2" "1" [5; 5; 5; 5; 5; 5; 5; 5];
            mkRow "s1" "2" [1; 2; 3; 4; 5; 6; 7; 8]]).
  - repeat constructor.
  - exists 4%nat, 0, 5. repeat split. simpl; lia.
Defined.

(** C8: on the empty dataset every aggregator returns the empty list, and
    [get_most_improved_student] on the empty list of averages returns
    [None]. *)
Theorem empty_dataset :
  calculate_student_averages [] = Ok [] /\
  calculate_class_averages [] = Ok [] /\
  identify_highest_achieving_students [] = Ok [] /\
  identify_lowest_achieving_students [] = Ok [] /\
  analyze_performance_trends [] = Ok [] /\
  get_most_improved_student [] = Ok None.
Proof. repeat split; reflexivity. Qed.

(** ** Dictionaries *)

Section Dict.
Context {V : Type}.
Implicit Types (d : dict V) (k : string) (v : V).

Lemma dict_get_set_same k v d : dict_get k (dict_set k v d) = Some v.
Proof.
  induction d as [|[k' v'] d IH]; simpl.
  - now rewrite String.eqb_refl.
  - destruct (String.eqb k' k) eqn:E; simpl; rewrite E; auto.
Qed.

Lemma dict_get_set_other k k' v d :
  k' <> k -> dict_get k' (dict_set k v d) = dict_get k' d.
Proof.
  intros Hne. induction d as [|[k0 v0] d IH]; simpl.
  - apply not_eq_sym, String.eqb_neq in Hne. now rewrite Hne.
  - destruct (String.eqb k0 k) eqn:E; simpl.
    + apply String.eqb_eq in E. subst k0.
      apply not_eq_sym, String.eqb_neq in Hne. now rewrite Hne.
    + now rewrite IH.
Qed.

Lemma dict_get_In k d : dict_get k d <> None <-> In k (map fst d).
Proof.
  induction d as [|[k' v'] d IH]; simpl; [tauto|].
  destruct (String.eqb_spec k' k) as [-> | Hne].
  - split; [now left | discriminate].
  - rewrite IH. split; [now right | intros [H | H]; [contradiction | exact H]].
Qed.

Lemma dict_get_Some_In k v d : dict_get k d = Some v -> In (k, v) d.
Proof.
  induction d as [|[k' v'] d IH]; simpl; [discriminate|].
  destruct (String.eqb_spec k' k) as [-> | Hne].
  - intros H. injection H as ->. now left.
  - intros H. right. now apply IH.
Qed.

Lemma dict_In_get k v d :
  NoDup (map fst d) -> In (k, v) d -> dict_get k d = Some v.
Proof.
  induction d as [|[k' v'] d IH]; simpl; [contradiction|].
  intros Hnd [H | H]; inversion Hnd as [|? ? Hnin Hnd']; subst.
  - injection H as -> ->. now rewrite String.eqb_refl.
  - destruct (String.eqb_spec k' k) as [-> | Hne]; [|now apply IH].
    exfalso. apply Hnin. apply in_map_iff. now exists (k, v).
Qed.

(** An update keeps the key order; a new key is appended. *)
Lemma dict_set_keys k v d :
  map fst (dict_set k v d) =
  if dict_mem k d then map fst d else map fst d ++ [k].
Proof.
  unfold dict_mem. induction d as [|[k' v'] d IH]; simpl; [reflexivity|].
  destruct (String.eqb k' k) eqn:E; simpl; [reflexivity|].
  rewrite IH. now destruct (dict_get k d).
Qed.

Lemma dict_mem_In k d : dict_mem k d = true <-> In k (map fst d).
Proof.
  rewrite <- dict_get_In. unfold dict_mem.
  destruct (dict_get k d); split; congruence.
Qed.

Lemma dict_set_NoDup k v d :
  NoDup (map fst d) -> NoDup (map fst (dict_set k v d)).
Proof.
  intros Hnd. rewrite dict_set_keys.
  destruct (dict_mem k d) eqn:E; [assumption|].
  apply NoDup_app; [assumption | repeat constructor; simpl; tauto |].
  intros a Ha [<- | []]. apply dict_mem_In in Ha. congruence.
Qed.
End Dict.

(** ** Grouping by student and term

    Both grouping loops ([calculate_student_averages] and
    [get_most_improved_student]) store a value under a student id and a term
    in a dictionary of dictionaries; they differ in the dictionary a new
    student starts with. *)

Section Grouping.
Context {V : Type}.
Variable init : dict V.
Implicit Types (us : list (string * string * V)) (u : string * string * V).
Implicit Types (v : V) (d : dict (dict V)).

Lemma last_value_snoc us s0 t0 v0 s t :
  last_value (us ++ [(s0, t0, v0)]) s t =
  if String.eqb s0 s && String.eqb t0 t then Some v0 else last_value us s t.
Proof.
  unfold last_value. rewrite rev_unit. cbn [find].
  now destruct (String.eqb s0 s && String.eqb t0 t).
Qed.

Lemma last_value_sid us s t v :
  last_value us s t = Some v -> In s (map sid_of us).
Proof.
  unfold last_value.
  destruct (find _ (rev us)) as [[[s' t'] v']|] eqn:E; [|discriminate].
  intros _. apply find_some in E. destruct E as [Hin E].
  apply andb_true_iff in E. destruct E as [E _].
  apply String.eqb_eq in E. subst s'.
  apply in_rev in Hin. apply in_map_iff. now exists (s, t', v').
Qed.

Lemma encountered_before_snoc us u s s' :
  encountered_before us s s' -> encountered_before (us ++ [u]) s s'.
Proof.
  intros (pre & post & -> & H1 & H2).
  exists pre, (post ++ [u]). now rewrite app_assoc.
Qed.

Lemma grouped_inv_nil : grouped_inv init [] [].
Proof.
  split; simpl; try tauto; try discriminate.
  - constructor.
  - intros a s b s' H. now destruct a.
Qed.

Lemma grouped_inv_snoc us d u :
  grouped_inv init us d -> grouped_inv init (us ++ [u]) (regroup init d u).
Proof.
  intros [Hnd Hkeys Hord Hin Hind]. destruct u as [[s0 t0] v0].
  unfold regroup.
  set (old := match dict_get s0 d with Some i => i | None => init end).
  assert (Hfresh : dict_mem s0 d = false -> ~ In s0 (map sid_of us)).
  { intros E H. apply Hkeys, dict_mem_In in H. congruence. }
  split.
  - now apply dict_set_NoDup.
  - intros s. rewrite dict_set_keys, map_app, in_app_iff. simpl.
    destruct (dict_mem s0 d) eqn:E.
    + rewrite Hkeys. split; [tauto|]. intros [H | [<- | []]]; [assumption|].
      now apply Hkeys, dict_mem_In.
    + rewrite in_app_iff, Hkeys. simpl. tauto.
  - intros a s b s' Heq Hs'. rewrite dict_set_keys in Heq.
    destruct (dict_mem s0 d) eqn:E.
    + apply encountered_before_snoc. eapply Hord; eauto.
    + destruct (exists_last (l := b)) as (b' & y & ->);
        [intros ->; contradiction|].
      change (a ++ s :: b' ++ [y]) with (a ++ (s :: b') ++ [y]) in Heq.
      rewrite app_assoc in Heq. apply app_inj_tail in Heq.
      destruct Heq as [Heq <-].
      apply in_app_or in Hs'. destruct Hs' as [Hs' | [<- | []]].
      * apply encountered_before_snoc. eapply Hord; eauto.
      * exists us, [(s0, t0, v0)]. split; [reflexivity|].
        split; [|now apply Hfresh].
        apply Hkeys. rewrite Heq. apply in_or_app. right. now left.
  - intros s inner Hget t. rewrite last_value_snoc.
    destruct (String.eqb_spec s0 s) as [<- | Hne]; cbn [andb].
    + rewrite dict_get_set_same in Hget. injection Hget as <-.
      destruct (String.eqb_spec t0 t) as [<- | Hne'].
      * apply dict_get_set_same.
      * rewrite dict_get_set_other by congruence. unfold old.
        destruct (dict_get s0 d) as [i|] eqn:Ei; [now apply Hin|].
        destruct (last_value us s0 t) as [v|] eqn:El; [|reflexivity].
        apply last_value_sid, Hkeys, dict_get_In in El. congruence.
    + rewrite dict_get_set_other in Hget by congruence. now apply Hin.
  - intros Hinit s inner Hget.
    destruct (String.eqb_spec s0 s) as [<- | Hne].
    + rewrite dict_get_set_same in Hget. injection Hget as <-.
      apply dict_set_NoDup. unfold old.
      destruct (dict_get s0 d) as [i|] eqn:Ei; [|assumption].
      eapply Hind; eauto.
    + rewrite dict_get_set_other in Hget by congruence. eapply Hind; eauto.
Qed.

Lemma grouped_inv_fold us : grouped_inv init us (fold_left (regroup init) us []).
Proof.
  induction us as [|u us IH] using rev_ind; [apply grouped_inv_nil|].
  rewrite fold_left_app. now apply grouped_inv_snoc.
Qed.
End Grouping.

(** ** The grouping loops as [regroup] *)

Lemma dict_set_set {V : Type} (k : string) (v v0 : V) (d : dict V) :
  dict_set k v (dict_set k v0 d) = dict_set k v d.
Proof.
  induction d as [|[k' v'] d IH]; simpl.
  - now rewrite String.eqb_refl.
  - destruct (String.eqb k' k) eqn:E; simpl; rewrite E; [reflexivity|].
    now rewrite IH.
Qed.

(** Creating a missing key before storing under it changes nothing. *)
Lemma dict_set_ensure {V : Type} (k : string) (v v0 : V) (d : dict V) :
  dict_set k v (if dict_mem k d then d else dict_set k v0 d) = dict_set k v d.
Proof. destruct (dict_mem k d); [reflexivity | apply dict_set_set]. Qed.

Lemma dict_get_ensure {V : Type} (k : string) (v0 : V) (d : dict V) :
  dict_get k (if dict_mem k d then d else dict_set k v0 d) =
  Some (match dict_get k d with Some i => i | None => v0 end).
Proof.
  unfold dict_mem. destruct (dict_get k d) eqn:E; [exact E|].
  apply dict_get_set_same.
Qed.

Lemma group_row_regroup (students : dict (dict (list float))) (r : row) :
  group_row students r = regroup [] students (row_update r).
Proof.
  unfold group_row, regroup, row_update.
  rewrite dict_get_ensure, !dict_set_ensure. reflexivity.
Qed.

Lemma group_average_regroup (d : dict (dict (option float)))
  (e : student_average) :
  group_average d e = regroup [("1", None); ("2", None)] d (average_update e).
Proof.
  destruct e as [[term sid] avg]. unfold group_average, regroup, average_update.
  rewrite dict_get_ensure, dict_set_ensure. reflexivity.
Qed.

Lemma fold_left_map_ext {A B S : Type} (f : S -> A -> S) (g : S -> B -> S)
  (h : A -> B) (l : list A) :
  (forall s a, f s a = g s (h a)) ->
  forall s, fold_left f l s = fold_left g (map h l) s.
Proof.
  intros H. induction l as [|a l IH]; intros s; simpl; [reflexivity|].
  now rewrite H, IH.
Qed.

Lemma group_rows_inv (data_list : list row) :
  grouped_inv [] (map row_update data_list) (group_rows data_list).
Proof.
  unfold group_rows.
  rewrite (fold_left_map_ext group_row (regroup []) row_update)
    by apply group_row_regroup.
  apply grouped_inv_fold.
Qed.

Lemma group_averages_inv (student_averages : list student_average) :
  grouped_inv [("1", None); ("2", None)]
    (map average_update student_averages) (group_averages student_averages).
Proof.
  unfold group_averages.
  rewrite (fold_left_map_ext group_average
             (regroup [("1", None); ("2", None)]) average_update)
    by apply group_average_regroup.
  apply grouped_inv_fold.
Qed.

(** ** calculate_student_averages *)

Lemma flat_map_nested {A B C : Type} (f : A -> list B) (g : B -> list C)
  (l : list A) :
  flat_map g (flat_map f l) = flat_map (fun x => flat_map g (f x)) l.
Proof.
  induction l as [|x l IH]; simpl; [reflexivity|].
  now rewrite flat_map_app, IH.
Qed.

Lemma flat_map_of_map {A B C : Type} (f : A -> B) (g : B -> list C)
  (l : list A) :
  flat_map g (map f l) = flat_map (fun x => g (f x)) l.
Proof. induction l as [|x l IH]; simpl; [reflexivity | now rewrite IH]. Qed.

Lemma calculate_student_averages_groups (data_list : list row) :
  calculate_student_averages data_list =
  Ok (average_entries (student_groups (group_rows data_list))).
Proof.
  unfold calculate_student_averages, average_entries, student_groups.
  rewrite flat_map_nested.
  rewrite <- (app_nil_l (flat_map _ (group_rows data_list))).
  apply for_each_appends. intros [sid d] acc _.
  rewrite flat_map_of_map.
  apply for_each_appends. intros [term scores] acc' _.
  destruct scores as [|s scores]; [now rewrite app_nil_r|].
  now rewrite py_truediv_len.
Qed.

Lemma student_groups_In (students : dict (dict (list float))) (s t : string)
  (sc : list float) :
  NoDup (map fst students) ->
  (forall s' d, dict_get s' students = Some d -> NoDup (map fst d)) ->
  In (s, t, sc) (student_groups students) <->
  exists d, dict_get s students = Some d /\ dict_get t d = Some sc.
Proof.
  intros Hnd Hin. unfold student_groups. rewrite in_flat_map. split.
  - intros ([s' d] & Hd & H). apply in_map_iff in H.
    destruct H as ([t' sc'] & H & Ht). injection H as -> -> ->.
    exists d. pose proof (dict_In_get _ _ _ Hnd Hd) as Hg.
    split; [assumption|]. apply dict_In_get; [|assumption]. eapply Hin; eauto.
  - intros (d & Hd & Ht). exists (s, d). split; [now apply dict_get_Some_In|].
    apply in_map_iff. exists (t, sc). split; [reflexivity|].
    now apply dict_get_Some_In.
Qed.

Lemma student_groups_NoDup (students : dict (dict (list float))) :
  NoDup (map fst students) ->
  (forall s d, In (s, d) students -> NoDup (map fst d)) ->
  NoDup (map fst (student_groups students)).
Proof.
  unfold student_groups.
  induction students as [|[s d] students IH]; intros Hnd Hin; [constructor|].
  inversion Hnd as [|? ? Hnin Hnd']; subst.
  cbn [flat_map]. rewrite map_app. apply NoDup_app.
  - rewrite map_map.
    assert (Hd : NoDup (map fst d)) by (apply (Hin s); now left).
    clear -Hd. induction d as [|[t sc] d IH]; [constructor|].
    inversion Hd as [|? ? Hnin Hd']; subst. cbn [map fst]. constructor.
    + intros H. apply in_map_iff in H. destruct H as ([t' sc'] & H & Hin).
      injection H as ->. apply Hnin. apply in_map_iff. now exists (t, sc').
    + now apply IH.
  - apply IH; [assumption|]. intros; eapply Hin; right; eauto.
  - intros [s' t'] H1 H2. apply in_map_iff in H1, H2.
    destruct H1 as ([[s1 t1] sc1] & E1 & H1). injection E1 as -> ->.
    destruct H2 as ([[s2 t2] sc2] & E2 & H2). injection E2 as -> ->.
    apply in_map_iff in H1. destruct H1 as ([t0 sc0] & E & _).
    injection E as <- _ _.
    apply in_flat_map in H2. destruct H2 as ([s3 d3] & Hd3 & H2).
    apply in_map_iff in H2. destruct H2 as ([t4 sc4] & E & _).
    injection E as -> _ _.
    apply Hnin. apply in_map_iff. now exists (s, d3).
Qed.

Lemma last_value_rows (data_list : list row) (s t : string) :
  last_value (map row_update data_list) s t =
  option_map row_scores (last_record data_list s t).
Proof.
  unfold last_value, last_record. rewrite <- map_rev.
  induction (rev data_list) as [|r l IH]; [reflexivity|].
  cbn [map find row_update].
  destruct (String.eqb (row_sid r) s && String.eqb (row_term r) t);
    [reflexivity | exact IH].
Qed.

Lemma last_record_Some (data_list : list row) (s t : string) (r : row) :
  last_record data_list s t = Some r ->
  In r data_list /\ row_sid r = s /\ row_term r = t.
Proof.
  unfold last_record. intros H. apply find_some in H.
  destruct H as [Hin H]. apply andb_true_iff in H. destruct H as [H1 H2].
  apply String.eqb_eq in H1, H2. apply in_rev in Hin. auto.
Qed.

Lemma last_record_exists (data_list : list row) (r : row) :
  In r data_list ->
  exists r', last_record data_list (row_sid r) (row_term r) = Some r'.
Proof.
  intros Hin. unfold last_record.
  destruct (find _ (rev data_list)) as [r'|] eqn:E; [eauto|].
  apply find_none with (x := r) in E; [|now apply in_rev in Hin].
  now rewrite !String.eqb_refl in E.
Qed.

Lemma student_groups_rows (data_list : list row) (s t : string)
  (sc : list float) :
  In (s, t, sc) (student_groups (group_rows data_list)) <->
  exists r, last_record data_list s t = Some r /\ sc = row_scores r.
Proof.
  destruct (group_rows_inv data_list) as [Hnd Hkeys _ Hin Hind].
  rewrite student_groups_In;
    [|assumption | intros; eapply Hind; eauto; constructor].
  split.
  - intros (d & Hd & Ht). rewrite (Hin s d Hd t), last_value_rows in Ht.
    destruct (last_record data_list s t) as [r|]; [|discriminate].
    injection Ht as <-. eauto.
  - intros (r & Hr & ->).
    assert (Hl : last_value (map row_update data_list) s t
                 = Some (row_scores r))
      by (now rewrite last_value_rows, Hr).
    pose proof (last_value_sid _ _ _ _ Hl) as Hs.
    apply Hkeys, dict_get_In in Hs.
    destruct (dict_get s (group_rows data_list)) as [d|] eqn:Hd;
      [|contradiction].
    exists d. split; [reflexivity|]. now rewrite (Hin s d Hd t), Hl.
Qed.

Lemma student_groups_rows_NoDup (data_list : list row) :
  NoDup (map fst (student_groups (group_rows data_list))).
Proof.
  destruct (group_rows_inv data_list) as [Hnd _ _ _ Hind].
  apply student_groups_NoDup; [assumption|].
  intros s d Hd. apply (Hind (NoDup_nil _) s d). now apply dict_In_get.
Qed.

Lemma average_entries_In (groups : list (string * string * list float))
  (term sid : string) (avg : float) :
  In (term, sid, avg) (average_entries groups) <->
  exists sc, In (sid, term, sc) groups /\ sc <> [] /\ avg = mean sc.
Proof.
  unfold average_entries. rewrite in_flat_map. split.
  - intros ([[s t] sc] & Hin & H). destruct sc as [|x sc]; [contradiction|].
    destruct H as [H | []]. injection H as -> -> <-.
    exists (x :: sc). repeat split; [assumption | discriminate].
  - intros (sc & Hin & Hne & ->). exists (sid, term, sc).
    split; [assumption|]. destruct sc; [contradiction | now left].
Qed.

Lemma average_entries_keys (groups : list (string * string * list float)) :
  map average_key (average_entries groups) =
  map fst (filter (fun g => nonempty (snd g)) groups).
Proof.
  induction groups as [|[[s t] sc] groups IH]; [reflexivity|].
  unfold average_entries. cbn [flat_map filter snd]. rewrite map_app.
  fold (average_entries groups).
  destruct sc; cbn [nonempty map app]; [exact IH | f_equal; exact IH].
Qed.





Lemma filter_all {A : Type} (p : A -> bool) (l : list A) :
  (forall x, In x l -> p x = true) -> filter p l = l.
Proof.
  induction l as [|x l IH]; intros H; [reflexivity|]. cbn [filter].
  rewrite (H x) by now left. f_equal. apply IH. intros; apply H; now right.
Qed.

Lemma student_groups_count (data_list : list row) :
  List.length (student_groups (group_rows data_list)) =
  List.length (distinct_pairs data_list).
Proof.
  rewrite <- (length_map fst (student_groups (group_rows data_list))).
  assert (Hiff : forall p,
    In p (map fst (student_groups (group_rows data_list))) <->
    In p (distinct_pairs data_list)).
  { intros [s t]. unfold distinct_pairs. rewrite nodup_In, !in_map_iff. split.
    - intros ([[s' t'] sc] & E & H). injection E as -> ->.
      apply student_groups_rows in H. destruct H as (r & Hr & _).
      apply last_record_Some in Hr. destruct Hr as (Hin & <- & <-).
      now exists r.
    - intros (r & E & Hin). injection E as <- <-.
      destruct (last_record_exists data_list r Hin) as (r' & Hr').
      exists (row_sid r, row_term r, row_scores r'). split; [reflexivity|].
      apply student_groups_rows. eauto. }
  apply Nat.le_antisymm; apply NoDup_incl_length.
  - apply student_groups_rows_NoDup.
  - intros p. apply Hiff.
  - apply NoDup_nodup.
  - intros p. apply Hiff.
Qed.

(** C7: [calculate_student_averages] returns at most as many entries as
    there are distinct (student, term) pairs in the input, and exactly as
    many when the score list kept for every pair (the one of its last record)
    is non-empty. *)
Theorem calculate_student_averages_count (data_list : list row) :
  exists out,
    calculate_student_averages data_list = Ok out /\
    (List.length out <= List.length (distinct_pairs data_list))%nat /\
    ((forall sid term r,
         last_record data_list sid term = Some r -> row_scores r <> []) ->
     List.length out = List.length (distinct_pairs data_list)).
Proof.
  exists (average_entries (student_groups (group_rows data_list))).
  split; [apply calculate_student_averages_groups|].
  rewrite <- (length_map average_key), average_entries_keys, length_map.
  rewrite <- student_groups_count. split; [apply filter_length_le|].
  intros Hne. rewrite filter_all; [reflexivity|].
  intros [[s t] sc] Hin. apply student_groups_rows in Hin.
  destruct Hin as (r & Hr & ->). specialize (Hne s t r Hr).
  cbn [snd]. now destruct (row_scores r).
Qed.

Lemma calculate_student_averages_count_witness :
  exists out,
    calculate_student_averages
      [mkRow "s1" "1" [1; 2; 3; 4; 5; 6; 7; 8];
       mkRow "s2" "1" [8; 8; 8; 8; 8; 8; 8; 8];
       mkRow "s1" "1" [10; 20; 30; 40; 50; 60; 70; 80]] = Ok out /\
    List.length out = 2%nat.
Proof.
  destruct (calculate_student_averages_count
              [mkRow "s1" "1" [1; 2; 3; 4; 5; 6; 7; 8];
               mkRow "s2" "1" [8; 8; 8; 8; 8; 8; 8; 8];
               mkRow "s1" "1" [10; 20; 30; 40; 50; 60; 70; 80]])
    as (out & Hout & _ & Heq).
  exists out. split; [exact Hout|].
  rewrite Heq; [reflexivity|].
  intros sid term r Hr. apply last_record_Some in Hr.
  destruct Hr as [[<- | [<- | [<- | []]]] _]; discriminate.
Defined.

(** A group whose kept score list is empty has no entry. *)
Example calculate_student_averages_empty_scores :
  calculate_student_averages
    [mkRow "s1" "1" [1; 2; 3; 4; 5; 6; 7; 8]; mkRow "s1" "1" []] = Ok [].
Proof. reflexivity. Qed.

(** ** get_most_improved_student *)

Lemma prefix_comparable {A : Type} (pre1 post1 pre2 post2 : list A) :
  pre1 ++ post1 = pre2 ++ post2 ->
  (exists m, pre2 = pre1 ++ m) \/ (exists m, pre1 = pre2 ++ m).
Proof.
  revert pre2. induction pre1 as [|x pre1 IH]; intros pre2 H.
  - left. now exists pre2.
  - destruct pre2 as [|y pre2]; [right; now exists (x :: pre1)|].
    injection H as <- H. destruct (IH pre2 H) as [[m ->] | [m ->]].
    + left. now exists m.
    + right. now exists m.
Qed.

Lemma encountered_before_asym {V : Type} (us : list (string * string * V))
  (s s' : string) :
  encountered_before us s s' -> encountered_before us s' s -> False.
Proof.
  intros (pre1 & post1 & -> & H1 & N1) (pre2 & post2 & E & H2 & N2).
  destruct (prefix_comparable _ _ _ _ E) as [[m ->] | [m ->]].
  - apply N2. rewrite map_app. apply in_or_app. now left.
  - apply N1. rewrite map_app. apply in_or_app. now left.
Qed.

Lemma seen_before_encountered (student_averages : list student_average)
  (s s' : string) :
  seen_before student_averages s s' ->
  encountered_before (map average_update student_averages) s s'.
Proof.
  intros (pre & post & -> & H1 & H2).
  assert (E : forall l, map sid_of (map average_update l) = map average_sid l).
  { intros l. rewrite map_map. apply map_ext. now intros [[t x] a]. }
  exists (map average_update pre), (map average_update post).
  rewrite map_app, E. auto.
Qed.

Lemma last_value_averages (student_averages : list student_average)
  (s t : string) :
  last_value (map average_update student_averages) s t =
  option_map Some (last_average student_averages s t).
Proof.
  unfold last_value, last_average. rewrite <- map_rev.
  induction (rev student_averages) as [|[[t' s'] a] l IH]; [reflexivity|].
  cbn [map find average_update].
  destruct (String.eqb s' s && String.eqb t' t); [reflexivity | exact IH].
Qed.

Lemma last_average_sid (student_averages : list student_average)
  (s t : string) (a : float) :
  last_average student_averages s t = Some a ->
  In s (map sid_of (map average_update student_averages)).
Proof.
  intros H. apply (last_value_sid _ s t (Some a)).
  now rewrite last_value_averages, H.
Qed.

Lemma fold_left_appends {A B : Type} (f : list B -> A -> list B)
  (g : A -> list B) (l : list A) :
  (forall acc x, f acc x = acc ++ g x) ->
  forall acc, fold_left f l acc = acc ++ flat_map g l.
Proof.
  intros H. induction l as [|x l IH]; intros acc; simpl.
  - now rewrite app_nil_r.
  - now rewrite IH, H, app_assoc.
Qed.

Lemma flat_map_ext_In {A B : Type} (f g : A -> list B) (l : list A) :
  (forall x, In x l -> f x = g x) -> flat_map f l = flat_map g l.
Proof.
  induction l as [|x l IH]; intros H; simpl; [reflexivity|].
  rewrite (H x) by now left. f_equal. apply IH. intros; apply H; now right.
Qed.

Lemma improvements_of_group (student_averages : list student_average) :
  improvements_of (group_averages student_averages) =
  flat_map (improvement_entry student_averages)
    (map fst (group_averages student_averages)).
Proof.
  destruct (group_averages_inv student_averages) as [Hnd _ _ Hin _].
  unfold improvements_of.
  rewrite (fold_left_appends _
    (fun '(sid, terms) =>
       match dict_get "1" terms, dict_get "2" terms with
       | Some (Some one), Some (Some two) => [(sid, two - one)]
       | _, _ => []
       end)).
  - rewrite flat_map_of_map. cbn [app]. apply flat_map_ext_In.
    intros [sid inner] Hd. apply (dict_In_get _ _ _ Hnd) in Hd.
    rewrite (Hin sid inner Hd "1"), (Hin sid inner Hd "2").
    rewrite !last_value_averages. unfold improvement_entry, improvement.
    cbn [fst].
    destruct (last_average student_averages sid "1"),
      (last_average student_averages sid "2"); reflexivity.
  - intros acc [sid inner].
    destruct (dict_get "1" inner) as [[one|]|],
      (dict_get "2" inner) as [[two|]|]; now rewrite ?app_nil_r.
Qed.

Lemma improvement_entry_In (student_averages : list student_average)
  (keys : list string) (s : string) (imp : float) :
  In (s, imp) (flat_map (improvement_entry student_averages) keys) <->
  In s keys /\ improvement student_averages s = Some imp.
Proof.
  rewrite in_flat_map. unfold improvement_entry. split.
  - intros (k & Hk & H).
    destruct (improvement student_averages k) as [i|] eqn:E; [|contradiction].
    destruct H as [H | []]. injection H as -> ->. auto.
  - intros [Hk E]. exists s. rewrite E. split; [assumption | now left].
Qed.

(** A split of the improvements comes from a split of the keys. *)
Lemma improvement_entry_split (student_averages : list student_average)
  (keys : list string) (pre post : list (string * float)) (s : string)
  (imp : float) :
  flat_map (improvement_entry student_averages) keys = pre ++ (s, imp) :: post ->
  exists a b,
    keys = a ++ s :: b /\
    post = flat_map (improvement_entry student_averages) b.
Proof.
  revert pre. induction keys as [|k keys IH]; intros pre H.
  - now destruct pre.
  - cbn [flat_map] in H. unfold improvement_entry at 1 in H.
    destruct (improvement student_averages k) as [i|].
    + destruct pre as [|p pre]; cbn [app] in H.
      * injection H as -> -> <-. now exists [], keys.
      * injection H as _ H. destruct (IH pre H) as (a & b & -> & ->).
        now exists (k :: a), b.
    + destruct (IH pre H) as (a & b & -> & ->). now exists (k :: a), b.
Qed.

Lemma get_most_improved_student_improvements
  (student_averages : list student_average) :
  get_most_improved_student student_averages =
  Ok match flat_map (improvement_entry student_averages)
             (map fst (group_averages student_averages)) with
     | [] => None
     | x :: l => Some (fst (first_best better_max snd x l))
     end.
Proof.
  unfold get_most_improved_student. rewrite improvements_of_group.
  destruct (flat_map _ _) as [|x l]; [reflexivity|].
  unfold py_max. now rewrite extremum_pure with (key := snd).
Qed.

Lemma improvement_key (student_averages : list student_average)
  (s : string) (imp : float) :
  improvement student_averages s = Some imp ->
  In s (map fst (group_averages student_averages)).
Proof.
  intros H. unfold improvement in H.
  destruct (last_average student_averages s "1") as [one|] eqn:E;
    [|discriminate].
  apply last_average_sid in E.
  now apply (inv_keys _ _ _ (group_averages_inv student_averages)).
Qed.

Lemma last_average_present (student_averages : list student_average)
  (s t : string) :
  (exists a, last_average student_averages s t = Some a) <->
  (exists a, In (t, s, a) student_averages).
Proof.
  unfold last_average. split.
  - intros [a H].
    destruct (find _ (rev student_averages)) as [[[t' s'] a']|] eqn:E;
      [|discriminate].
    apply find_some in E. destruct E as [Hin E].
    apply andb_true_iff in E. destruct E as [E1 E2].
    apply String.eqb_eq in E1, E2. subst. exists a'. now apply in_rev.
  - intros [a Hin].
    destruct (find _ (rev student_averages)) as [[[t' s'] a']|] eqn:E;
      [eauto|].
    apply find_none with (x := (t, s, a)) in E; [|now apply in_rev in Hin].
    cbn in E. now rewrite !String.eqb_refl in E.
Qed.

(** A student has an improvement exactly when the input has an entry of
    the student for term "1" and one for term "2". *)
Lemma improvement_present (student_averages : list student_average)
  (sid : string) :
  improvement student_averages sid <> None <->
  (exists one, In ("1", sid, one) student_averages) /\
  (exists two, In ("2", sid, two) student_averages).
Proof.
  rewrite <- !last_average_present. unfold improvement.
  destruct (last_average student_averages sid "1") as [one|],
    (last_average student_averages sid "2") as [two|]; split;
    try (intros _; split; eauto; fail);
    try (intros H; now contradiction H);
    try discriminate;
    intros [[x Hx] [y Hy]]; discriminate.
Qed.

(** The improvements the loop collects are those of the students. *)
Lemma improvement_entries_nan_free (student_averages : list student_average)
  (keys : list string) :
  (forall s i, improvement student_averages s = Some i -> is_nan i = false) ->
  Forall (fun e : string * float => is_nan (snd e) = false)
    (flat_map (improvement_entry student_averages) keys).
Proof.
  intros Hnan. apply Forall_forall. intros [s i] H.
  apply improvement_entry_In in H. apply (Hnan s i), H.
Qed.

(** What [get_most_improved_student] returns, in terms of the improvements
    of its input. *)
Lemma get_most_improved_student_choice
  (student_averages : list student_average) :
  exists result,
    get_most_improved_student student_averages = Ok result /\
    (result = None <->
     forall sid, improvement student_averages sid = None) /\
    (forall sid,
        result = Some sid ->
        exists imp,
          improvement student_averages sid = Some imp /\
          ((forall s i,
               improvement student_averages s = Some i -> is_nan i = false) ->
           forall sid' imp',
             improvement student_averages sid' = Some imp' ->
             (imp' <=? imp) = true /\
             (seen_before student_averages sid' sid ->
              (imp' <? imp) = true))).
Proof.
  eexists. split; [apply get_most_improved_student_improvements|].
  pose proof (group_averages_inv student_averages) as Hinv.
  set (keys := map fst (group_averages student_averages)) in *.
  destruct (flat_map (improvement_entry student_averages) keys)
    as [|x l] eqn:HL.
  - split; [|discriminate]. split; [|reflexivity]. intros _ sid.
    destruct (improvement student_averages sid) as [imp|] eqn:E;
      [|reflexivity].
    assert (H : In (sid, imp) []); [|contradiction].
    rewrite <- HL. apply improvement_entry_In. split; [|assumption].
    eapply improvement_key; eauto.
  - split.
    + split; [discriminate|]. intros Hnone. destruct x as [s i].
      assert (H : In (s, i) ((s, i) :: l)) by now left.
      rewrite <- HL in H. apply improvement_entry_In in H.
      rewrite Hnone in H. destruct H; discriminate.
    + intros sid Hsid. injection Hsid as <-.
      pose proof (first_best_In better_max (@snd string float) l x) as Hs.
      rewrite <- HL in Hs.
      destruct (first_best better_max snd x l) as [s imp] eqn:Hbest.
      cbn [fst]. apply improvement_entry_In in Hs. destruct Hs as [_ Hs].
      exists imp. split; [assumption|]. intros Hnan sid' imp' H'.
      destruct (first_max_split (@snd string float) x l)
        as (pre & post & Hsplit & Hpre & Hpost).
      { rewrite <- HL. now apply improvement_entries_nan_free. }
      rewrite Hbest in Hsplit, Hpre, Hpost. cbn [snd] in Hpre, Hpost.
      assert (Hin : In (sid', imp') (x :: l)).
      { rewrite <- HL. apply improvement_entry_In. split; [|assumption].
        eapply improvement_key; eauto. }
      rewrite Hsplit in Hin. rewrite Forall_forall in Hpre, Hpost.
      apply in_app_or in Hin. destruct Hin as [Hin | [Hin | Hin]].
      * specialize (Hpre _ Hin). cbn [snd] in Hpre.
        split; [now apply ltb_leb | auto].
      * injection Hin as <- <-. split; [apply leb_refl; eauto|].
        intros (p & q & _ & H1 & H2). contradiction.
      * specialize (Hpost _ Hin). cbn [snd] in Hpost.
        split; [assumption|]. intros Hbefore. exfalso.
        rewrite <- HL in Hsplit.
        apply improvement_entry_split in Hsplit.
        destruct Hsplit as (a & b & Hkeys & ->).
        apply improvement_entry_In in Hin. destruct Hin as [Hin _].
        pose proof (inv_order _ _ _ Hinv a s b sid' Hkeys Hin) as Hord.
        apply seen_before_encountered in Hbefore.
        exact (encountered_before_asym _ _ _ Hord Hbefore).
Qed.

(** C1: [get_most_improved_student] never raises.  A student qualifies
    (has an improvement) exactly when the input has an entry of the student
    for term "1" and one for term "2"; the improvement is the binary64
    difference of the term-2 and the term-1 average.  The function returns
    [None] exactly when no student qualifies.  Otherwise it returns a
    student who qualifies; when no improvement is NaN, the improvement of
    this student is maximal among the students who qualify, and every such
    student encountered earlier in the input has a strictly smaller
    improvement, so the first student with the maximal improvement wins. *)
Theorem get_most_improved_student_spec
  (student_averages : list student_average) :
  exists result,
    get_most_improved_student student_averages = Ok result /\
    (forall sid,
        improvement student_averages sid <> None <->
        (exists one, In ("1", sid, one) student_averages) /\
        (exists two, In ("2", sid, two) student_averages)) /\
    (result = None <->
     forall sid, improvement student_averages sid = None) /\
    (forall sid,
        result = Some sid ->
        exists imp,
          improvement student_averages sid = Some imp /\
          ((forall s i,
               improvement student_averages s = Some i -> is_nan i = false) ->
           forall sid' imp',
             improvement student_averages sid' = Some imp' ->
             (imp' <=? imp) = true /\
             (seen_before student_averages sid' sid ->
              (imp' <? imp) = true))).
Proof.
  destruct (get_most_improved_student_choice student_averages)
    as (result & Hres & Hnone & Hsome).
  exists result. split; [assumption|].
  split; [apply improvement_present|]. now split.
Qed.

(** Students "s2" and "s1" both improve by 10.25; "s2" has the first entry
    of the two and wins; "s0" has one term only. *)
Lemma get_most_improved_student_spec_witness :
  get_most_improved_student
    [("1", "s0", 10); ("2", "s2", 50.5); ("1", "s1", 20); ("1", "s2", 40.25);
     ("2", "s1", 30.25)] = Ok (Some "s2") /\
  improvement
    [("1", "s0", 10); ("2", "s2", 50.5); ("1", "s1", 20); ("1", "s2", 40.25);
     ("2", "s1", 30.25)] "s2" = Some 10.25 /\
  forall sid' imp',
    improvement
      [("1", "s0", 10); ("2", "s2", 50.5); ("1", "s1", 20);
       ("1", "s2", 40.25); ("2", "s1", 30.25)] sid' = Some imp' ->
    (imp' <=? 10.25) = true.
Proof.
  destruct (get_most_improved_student_spec
              [("1", "s0", 10); ("2", "s2", 50.5); ("1", "s1", 20);
               ("1", "s2", 40.25); ("2", "s1", 30.25)])
    as (result & Hres & _ & _ & Hmax).
  vm_compute in Hres. injection Hres as <-.
  destruct (Hmax "s2" eq_refl) as (imp & Himp & H).
  vm_compute in Himp. injection Himp as <-.
  split; [reflexivity|]. split; [reflexivity|].
  intros sid' imp' H'. apply (H) with (sid' := sid'); [|exact H'].
  intros s i Hi. pose proof (improvement_key _ _ _ Hi) as Hk.
  vm_compute in Hk.
  destruct Hk as [<- | [<- | [<- | []]]]; vm_compute in Hi;
    try discriminate Hi; injection Hi as <-; reflexivity.
Defined.

(** The example of the specification: one student with averages 60 and 80. *)
Example get_most_improved_student_example :
  (averages <- calculate_student_averages
       [mkRow "s1" "1" [60; 60; 60; 60; 60; 60; 60; 60];
        mkRow "s1" "2" [80; 80; 80; 80; 80; 80; 80; 80]] ;;
   get_most_improved_student averages) = Ok (Some "s1").
Proof. vm_compute. reflexivity. Qed.

(** A tie goes to the student encountered first, and a student with one
    term only does not qualify. *)
Example get_most_improved_student_tie :
  get_most_improved_student
    [("1", "s0", 10); ("2", "s2", 50); ("1", "s1", 20); ("1", "s2", 40);
     ("2", "s1", 30)] = Ok (Some "s2").
Proof. vm_compute. reflexivity. Qed.

(** Student "a" has infinite averages in both terms, so an improvement
    that is NaN; "a" comes first and is returned, although "b" improves by
    1 and 1 is not less than or equal to NaN. *)
Lemma get_most_improved_student_nan_counterexample :
  get_most_improved_student
    [("1", "a", infinity); ("2", "a", infinity); ("1", "b", 1); ("2", "b", 2)]
  = Ok (Some "a") /\
  improvement
    [("1", "a", infinity); ("2", "a", infinity); ("1", "b", 1); ("2", "b", 2)]
    "a" = Some nan /\
  improvement
    [("1", "a", infinity); ("2", "a", infinity); ("1", "b", 1); ("2", "b", 2)]
    "b" = Some 1 /\
  (1 <=? nan) = false.
Proof. repeat split; vm_compute; reflexivity. Qed.

(** Averages are infinite for finite scores whose sum overflows; the most
    improved student is then the one whose improvement is NaN. *)
Example get_most_improved_student_overflow :
  calculate_student_averages
    [mkRow "a" "1" [1e308; 1e308; 1; 1; 1; 1; 1; 1];
     mkRow "a" "2" [1e308; 1e308; 2; 2; 2; 2; 2; 2];
     mkRow "b" "1" [1; 1; 1; 1; 1; 1; 1; 1];
     mkRow "b" "2" [2; 2; 2; 2; 2; 2; 2; 2]]
  = Ok [("1", "a", infinity); ("2", "a", infinity); ("1", "b", 1);
        ("2", "b", 2)] /\
  (averages <- calculate_student_averages
       [mkRow "a" "1" [1e308; 1e308; 1; 1; 1; 1; 1; 1];
        mkRow "a" "2" [1e308; 1e308; 2; 2; 2; 2; 2; 2];
        mkRow "b" "1" [1; 1; 1; 1; 1; 1; 1; 1];
        mkRow "b" "2" [2; 2; 2; 2; 2; 2; 2; 2]] ;;
   get_most_improved_student averages) = Ok (Some "a").
Proof. split; vm_compute; reflexivity. Qed.

(** * Further properties *)

(** ** Exceptions of the loops over terms and subjects *)

Lemma calculate_class_averages_steps (data_list : list row) :
  calculate_class_averages data_list =
  for_each terms (fun term acc =>
    for_each (enumerate subjects) (class_average_step data_list term) acc) [].
Proof. reflexivity. Qed.

Lemma identify_achievers_steps
  (select : (row -> result float) -> list row -> result row)
  (data_list : list row) :
  identify_achievers select data_list =
  for_each terms (fun term acc =>
    for_each (enumerate subjects) (achiever_step select data_list term) acc)
    [].
Proof. reflexivity. Qed.

Lemma getitem_cases {A : Type} (l : list A) (i : nat) :
  getitem l i = Raise IndexError \/ exists x, getitem l i = Ok x.
Proof. unfold getitem. destruct (nth_error l i); eauto. Qed.

Lemma getitem_beyond {A : Type} (l : list A) (i : nat) :
  (List.length l <= i)%nat -> getitem l i = Raise IndexError.
Proof.
  intros H. unfold getitem. apply nth_error_None in H. now rewrite H.
Qed.

Lemma getitem_within (r : row) (i : nat) :
  (i < List.length (row_scores r))%nat ->
  getitem (row_scores r) i = Ok (score r i).
Proof.
  intros Hi. unfold getitem, score.
  destruct (nth_error (row_scores r) i) eqn:Hn.
  - now rewrite (nth_error_nth _ _ _ Hn).
  - apply nth_error_None in Hn. lia.
Qed.

(** A comprehension raises what one of its elements raises, when the
    others raise the same or nothing. *)
Lemma comprehension_raises {A B : Type} (f : A -> result B) (l : list A)
  (e : exn) (x : A) :
  In x l -> f x = Raise e ->
  (forall y, In y l -> f y = Raise e \/ exists b, f y = Ok b) ->
  comprehension f l = Raise e.
Proof.
  intros Hin Hx. induction l as [|y l IH]; intros Hall; [contradiction|].
  cbn [comprehension]. destruct Hin as [-> | Hin].
  - now rewrite Hx.
  - destruct (Hall y (or_introl eq_refl)) as [H | [b H]]; rewrite H;
      [reflexivity|].
    cbn [bind]. rewrite IH; [reflexivity | assumption|].
    intros; apply Hall; now right.
Qed.

Lemma comprehension_cases {A B : Type} (f : A -> result B) (l : list A)
  (e : exn) :
  (forall y, In y l -> f y = Raise e \/ exists b, f y = Ok b) ->
  comprehension f l = Raise e \/
  exists bs, comprehension f l = Ok bs /\ List.length bs = List.length l.
Proof.
  induction l as [|y l IH]; intros Hall; cbn [comprehension].
  - right. now exists [].
  - destruct (Hall y (or_introl eq_refl)) as [H | [b H]]; rewrite H;
      [now left|].
    cbn [bind].
    destruct IH as [IH | (bs & IH & Hlen)];
      [intros; apply Hall; now right | rewrite IH; now left |].
    rewrite IH. right. exists (b :: bs). cbn. now rewrite Hlen.
Qed.

Lemma class_average_step_cases (data_list : list row) (term : string)
  (cell : nat * string) (acc : list class_average) :
  class_average_step data_list term cell acc = Raise IndexError \/
  exists acc', class_average_step data_list term cell acc = Ok acc'.
Proof.
  destruct cell as [i s]. unfold class_average_step.
  destruct (comprehension_cases
              (fun r => getitem (row_scores r) i)
              (rows_of_term data_list term) IndexError)
    as [H | (bs & H & _)]; [intros; apply getitem_cases | | ]; rewrite H.
  - now left.
  - right. cbn [bind]. destruct bs as [|b bs]; [eauto|].
    rewrite py_truediv_len by discriminate. cbn [bind]. eauto.
Qed.

Lemma class_average_step_short (data_list : list row) (term : string)
  (r : row) (i : nat) (s : string) (acc : list class_average) :
  In r (rows_of_term data_list term) ->
  (List.length (row_scores r) <= i)%nat ->
  class_average_step data_list term (i, s) acc = Raise IndexError.
Proof.
  intros Hin Hlen. unfold class_average_step.
  rewrite (comprehension_raises _ _ IndexError r Hin);
    [reflexivity | now apply getitem_beyond |].
  intros; apply getitem_cases.
Qed.

Lemma has_short_record_true (data_list : list row) :
  has_short_record data_list = true ->
  exists r term,
    In term terms /\ In r (rows_of_term data_list term) /\
    (List.length (row_scores r) <= 7)%nat.
Proof.
  unfold has_short_record, short_record. intros H.
  apply existsb_exists in H. destruct H as (r & Hin & H).
  apply andb_true_iff in H. destruct H as [Ht Hl].
  apply existsb_exists in Ht. destruct Ht as (term & Hterm & Ht).
  apply Nat.ltb_lt in Hl. cbn in Hl.
  exists r, term. split; [assumption|]. split; [|lia].
  unfold rows_of_term. apply filter_In. auto.
Qed.

Lemma has_short_record_false (data_list : list row) (term : string)
  (r : row) :
  has_short_record data_list = false ->
  In term terms -> In r (rows_of_term data_list term) ->
  (List.length subjects <= List.length (row_scores r))%nat.
Proof.
  unfold has_short_record, rows_of_term. intros H Hterm Hin.
  apply filter_In in Hin. destruct Hin as [Hin Ht].
  destruct (Nat.ltb_spec (List.length (row_scores r)) (List.length subjects))
    as [Hlt | Hge]; [|assumption].
  exfalso. apply Bool.not_true_iff_false in H. apply H.
  apply existsb_exists. exists r. split; [assumption|].
  unfold short_record. apply andb_true_iff. split.
  - apply existsb_exists. exists term. auto.
  - now apply Nat.ltb_lt.
Qed.

(** A double loop raises [e] when the step of some term and subject always
    raises [e] and no step raises anything else. *)
Lemma double_loop_raises {S : Type}
  (step : string -> nat * string -> S -> result S) (e : exn)
  (term : string) (cell : nat * string) :
  In term terms -> In cell (enumerate subjects) ->
  (forall acc, step term cell acc = Raise e) ->
  (forall t c acc, step t c acc = Raise e \/ exists acc', step t c acc = Ok acc') ->
  forall acc,
    for_each terms (fun t acc =>
      for_each (enumerate subjects) (step t) acc) acc = Raise e.
Proof.
  intros Hterm Hcell Hraise Hcases.
  assert (Hinner : forall t cells acc,
             for_each cells (step t) acc = Raise e \/
             exists acc', for_each cells (step t) acc = Ok acc').
  { intros t cells. induction cells as [|c cells IH]; intros acc.
    - right. now exists acc.
    - cbn [for_each]. destruct (Hcases t c acc) as [H | [acc' H]]; rewrite H;
        [now left | apply IH]. }
  apply for_each_raises with (x := term); [assumption | |].
  - intros acc. apply for_each_raises with (x := cell); auto.
  - intros t acc _. apply Hinner.
Qed.

Lemma calculate_class_averages_covered (data_list : list row) :
  has_short_record data_list = false ->
  calculate_class_averages data_list = Ok (class_averages_of data_list).
Proof.
  intros Hcov.
  unfold calculate_class_averages, class_averages_of, per_term_subject.
  rewrite <- (app_nil_l (flat_map _ terms)).
  apply for_each_appends. intros term acc Hterm.
  apply for_each_appends. intros [i subject] acc' Hin.
  apply in_enumerate in Hin.
  assert (Hi : (i < List.length subjects)%nat)
    by (apply nth_error_Some; congruence).
  rewrite comprehension_map with (h := fun r => score r i).
  - destruct (rows_of_term data_list term) as [|r rs];
      [simpl; now rewrite app_nil_r|].
    cbv beta iota zeta.
    remember (map (fun r0 => score r0 i) (r :: rs)) as col eqn:Hcol.
    assert (Hne : col <> []) by (rewrite Hcol; discriminate).
    unfold bind. destruct col as [|c col]; [contradiction|].
    now rewrite py_truediv_len.
  - intros r Hr. apply getitem_within.
    pose proof (has_short_record_false data_list term r Hcov Hterm Hr). lia.
Qed.

Lemma calculate_class_averages_outcome (data_list : list row) :
  calculate_class_averages data_list =
  if has_short_record data_list then Raise IndexError
  else Ok (class_averages_of data_list).
Proof.
  destruct (has_short_record data_list) eqn:Hs;
    [|now apply calculate_class_averages_covered].
  apply has_short_record_true in Hs.
  destruct Hs as (r & term & Hterm & Hin & Hlen).
  rewrite calculate_class_averages_steps.
  apply double_loop_raises with (term := term) (cell := (7%nat, "PE")).
  - assumption.
  - apply in_enumerate. reflexivity.
  - intros acc. now apply class_average_step_short with (r := r).
  - intros. apply class_average_step_cases.
Qed.

(** X1: whatever the records, [calculate_class_averages] raises
    [IndexError] when some record of term "1" or "2" has fewer than 8
    scores, and returns otherwise: it raises nothing else, and reads neither
    the records of another term nor a score beyond the eighth. *)
Theorem calculate_class_averages_index_error (data_list : list row) :
  calculate_class_averages data_list =
  if has_short_record data_list then Raise IndexError
  else Ok (class_averages_of data_list).
Proof. apply calculate_class_averages_outcome. Qed.

Lemma extremum_loop_raises {A : Type} (better : float -> float -> bool)
  (key : A -> result float) (e : exn) (x : A) (l : list A) :
  In x l -> key x = Raise e ->
  (forall y, In y l -> key y = Raise e \/ exists k, key y = Ok k) ->
  forall best best_key, extremum_loop better key best best_key l = Raise e.
Proof.
  intros Hin Hx. induction l as [|y l IH]; intros Hall best best_key;
    [contradiction|].
  cbn [extremum_loop]. destruct Hin as [-> | Hin]; [now rewrite Hx|].
  destruct (Hall y (or_introl eq_refl)) as [H | [k H]]; rewrite H;
    [reflexivity|].
  cbn [bind].
  destruct (better k best_key); apply IH; auto; intros; apply Hall; now right.
Qed.

Lemma extremum_raises {A : Type} (better : float -> float -> bool)
  (key : A -> result float) (e : exn) (x : A) (l : list A) :
  In x l -> key x = Raise e ->
  (forall y, In y l -> key y = Raise e \/ exists k, key y = Ok k) ->
  extremum better key l = Raise e.
Proof.
  intros Hin Hx Hall. destruct l as [|y l]; [contradiction|].
  cbn [extremum]. destruct Hin as [-> | Hin]; [now rewrite Hx|].
  destruct (Hall y (or_introl eq_refl)) as [H | [k H]]; rewrite H;
    [reflexivity|].
  cbn [bind]. apply extremum_loop_raises with (x := x); auto.
  intros; apply Hall; now right.
Qed.

Lemma extremum_loop_cases {A : Type} (better : float -> float -> bool)
  (key : A -> result float) (e : exn) (l : list A) :
  (forall y, In y l -> key y = Raise e \/ exists k, key y = Ok k) ->
  forall best best_key,
    extremum_loop better key best best_key l = Raise e \/
    exists r, extremum_loop better key best best_key l = Ok r /\
              (r = best \/ In r l).
Proof.
  induction l as [|y l IH]; intros Hall best best_key; cbn [extremum_loop].
  - right. exists best. auto.
  - destruct (Hall y (or_introl eq_refl)) as [H | [k H]]; rewrite H;
      [now left|].
    cbn [bind].
    assert (Hall' : forall z, In z l -> key z = Raise e \/ exists k, key z = Ok k)
      by (intros; apply Hall; now right).
    destruct (better k best_key).
    + destruct (IH Hall' y k) as [E | (r & E & Hr)]; [now left | right].
      exists r. split; [assumption|]. right. destruct Hr; [now left | now right].
    + destruct (IH Hall' best best_key) as [E | (r & E & Hr)];
        [now left | right].
      exists r. split; [assumption|]. destruct Hr; [now left | right; now right].
Qed.

Lemma achiever_step_cases (better : float -> float -> bool)
  (data_list : list row)
  (term : string) (cell : nat * string) (acc : list achiever) :
  achiever_step (extremum better) data_list term cell acc = Raise IndexError \/
  exists acc',
    achiever_step (extremum better) data_list term cell acc = Ok acc'.
Proof.
  destruct cell as [i s]. unfold achiever_step.
  destruct (rows_of_term data_list term) as [|x l]; [eauto|].
  cbv beta iota zeta. cbn [extremum].
  destruct (getitem_cases (row_scores x) i) as [H | [k H]]; rewrite H;
    [now left|].
  cbn [bind].
  destruct (extremum_loop_cases better
              (fun y => getitem (row_scores y) i) IndexError l) with
    (best := x) (best_key := k) as [E | (r & E & _)];
    [intros; apply getitem_cases | rewrite E; now left |].
  rewrite E. cbn [bind].
  destruct (getitem_cases (row_scores r) i) as [H' | [k' H']]; rewrite H';
    [now left | right]. cbn [bind]. eauto.
Qed.

Lemma achiever_step_short (better : float -> float -> bool)
  (data_list : list row)
  (term : string) (r : row) (i : nat) (s : string) (acc : list achiever) :
  In r (rows_of_term data_list term) ->
  (List.length (row_scores r) <= i)%nat ->
  achiever_step (extremum better) data_list term (i, s) acc = Raise IndexError.
Proof.
  intros Hin Hlen. unfold achiever_step.
  destruct (rows_of_term data_list term) as [|x l] eqn:E; [contradiction|].
  cbv beta iota zeta.
  rewrite (extremum_raises better _ IndexError r (x :: l) Hin);
    [reflexivity | now apply getitem_beyond |].
  intros; apply getitem_cases.
Qed.

Lemma identify_achievers_covered (better : float -> float -> bool)
  (data_list : list row) :
  has_short_record data_list = false ->
  identify_achievers (extremum better) data_list =
  Ok (achievers_of better data_list).
Proof.
  intros Hcov. unfold identify_achievers, achievers_of, per_term_subject.
  rewrite <- (app_nil_l (flat_map _ terms)).
  apply for_each_appends. intros term acc Hterm.
  apply for_each_appends. intros [i subject] acc' Hin.
  apply in_enumerate in Hin.
  assert (Hi : (i < List.length subjects)%nat)
    by (apply nth_error_Some; congruence).
  pose proof (has_short_record_false data_list term) as Hlen.
  destruct (rows_of_term data_list term) as [|x l];
    [simpl; now rewrite app_nil_r|].
  cbv beta iota zeta.
  assert (Hkey : forall y, In y (x :: l) ->
                 getitem (row_scores y) i = Ok (score y i)).
  { intros y Hy. apply getitem_within. specialize (Hlen y Hcov Hterm Hy). lia. }
  rewrite extremum_pure with (key := fun y => score y i) by exact Hkey.
  cbn [bind]. rewrite Hkey; [reflexivity|]. apply first_best_In.
Qed.

Lemma identify_achievers_index_error (better : float -> float -> bool)
  (data_list : list row) :
  identify_achievers (extremum better) data_list =
  if has_short_record data_list then Raise IndexError
  else Ok (achievers_of better data_list).
Proof.
  destruct (has_short_record data_list) eqn:Hs;
    [|now apply identify_achievers_covered].
  apply has_short_record_true in Hs.
  destruct Hs as (r & term & Hterm & Hin & Hlen).
  rewrite identify_achievers_steps.
  apply double_loop_raises with (term := term) (cell := (7%nat, "PE")).
  - assumption.
  - apply in_enumerate. reflexivity.
  - intros acc. now apply achiever_step_short with (r := r).
  - intros. apply achiever_step_cases.
Qed.

(** X2: whatever the records, the two extremum identifiers raise
    [IndexError] when some record of term "1" or "2" has fewer than 8
    scores, and return otherwise; they raise nothing else (in particular
    never the [ValueError] of [max] and [min] on an empty sequence). *)
Theorem identify_achievers_errors (data_list : list row) :
  identify_highest_achieving_students data_list =
    (if has_short_record data_list then Raise IndexError
     else Ok (achievers_of better_max data_list)) /\
  identify_lowest_achieving_students data_list =
    (if has_short_record data_list then Raise IndexError
     else Ok (achievers_of better_min data_list)).
Proof.
  split; apply identify_achievers_index_error.
Qed.

(** ** Exceptions of analyze_performance_trends *)

Lemma existsb_false_In {A : Type} (f : A -> bool) (l : list A) (x : A) :
  existsb f l = false -> In x l -> f x = false.
Proof.
  intros H Hin. destruct (f x) eqn:E; [|reflexivity].
  rewrite <- H. symmetry. apply existsb_exists. eauto.
Qed.

Lemma trend_loop (data_list : list row) :
  for_each subjects (trend_of_subject (class_averages_of data_list)) [] =
  if divides_by_zero data_list then Raise ZeroDivisionError
  else Ok (trends_of data_list).
Proof.
  destruct (divides_by_zero data_list) eqn:Hz.
  - unfold divides_by_zero in Hz. apply existsb_exists in Hz.
    destruct Hz as (i & Hi & Hz). apply in_seq in Hi.
    destruct (class_average_at data_list "1" i) as [one|] eqn:H1;
      [|discriminate].
    destruct (class_average_at data_list "2" i) as [two|] eqn:H2;
      [|discriminate].
    destruct (nth_error subjects i) as [subject|] eqn:Hs;
      [|apply nth_error_None in Hs; lia].
    apply for_each_raises with (x := subject).
    + eapply nth_error_In; eauto.
    + intros acc. rewrite (trend_of_subject_of data_list subject i acc Hs).
      rewrite H1, H2. unfold py_truediv. now rewrite Hz.
    + intros y acc Hy. apply In_nth_error in Hy. destruct Hy as [j Hj].
      rewrite (trend_of_subject_of data_list y j acc Hj).
      destruct (class_average_at data_list "1" j) as [a|]; [|right; eauto].
      destruct (class_average_at data_list "2" j) as [b|]; [|right; eauto].
      unfold py_truediv. destruct (a =? 0); [now left | right].
      simpl. eauto.
  - rewrite for_each_enumerate. unfold trends_of.
    rewrite <- (app_nil_l (flat_map _ (enumerate subjects))).
    apply for_each_appends. intros [i subject] acc Hin.
    apply in_enumerate in Hin.
    rewrite (trend_of_subject_of data_list subject i acc Hin).
    assert (Hi : In i (seq 0 (List.length subjects))).
    { apply in_seq. split; [lia|]. apply nth_error_Some. congruence. }
    pose proof (existsb_false_In _ _ i Hz Hi) as Hnz. cbv beta in Hnz.
    destruct (class_average_at data_list "1" i) as [one|];
      [|now rewrite app_nil_r].
    destruct (class_average_at data_list "2" i) as [two|];
      [|now rewrite app_nil_r].
    unfold py_truediv. now rewrite Hnz.
Qed.

Lemma analyze_performance_trends_outcome (data_list : list row) :
  analyze_performance_trends data_list =
  if has_short_record data_list then Raise IndexError
  else if divides_by_zero data_list then Raise ZeroDivisionError
  else Ok (trends_of data_list).
Proof.
  unfold analyze_performance_trends.
  rewrite calculate_class_averages_outcome.
  destruct (has_short_record data_list); [reflexivity|].
  cbn [bind]. apply trend_loop.
Qed.

(** X3: whatever the records, [analyze_performance_trends] raises
    [IndexError] when some record of term "1" or "2" has fewer than 8
    scores; otherwise it raises [ZeroDivisionError] exactly when some subject
    has a zero class average in term "1" and a class average in term "2";
    otherwise it returns.  A zero average of term "1" is harmless when
    term "2" has no record. *)
Theorem analyze_performance_trends_errors (data_list : list row) :
  analyze_performance_trends data_list =
  if has_short_record data_list then Raise IndexError
  else if divides_by_zero data_list then Raise ZeroDivisionError
  else Ok (trends_of data_list).
Proof. apply analyze_performance_trends_outcome. Qed.

(** A zero class average in term "1" without any record of term "2". *)
Example analyze_performance_trends_zero_without_term_two :
  analyze_performance_trends [mkRow "s1" "1" [0; 0; 0; 0; 0; 0; 0; 0]] = Ok [].
Proof. reflexivity. Qed.

(** ** Output order of calculate_student_averages *)

Lemma first_seen_snoc (l : list string) (x : string) :
  first_seen (l ++ [x]) =
  if existsb (String.eqb x) (first_seen l) then first_seen l
  else first_seen l ++ [x].
Proof. unfold first_seen. now rewrite fold_left_app. Qed.

Lemma first_seen_In (l : list string) (x : string) :
  In x (first_seen l) <-> In x l.
Proof.
  induction l as [|y l IH] using rev_ind; [reflexivity|].
  rewrite first_seen_snoc, in_app_iff. cbn [In].
  destruct (existsb (String.eqb y) (first_seen l)) eqn:E.
  - rewrite IH. split; [tauto|]. intros [H | [<- | []]]; [assumption|].
    apply existsb_exists in E. destruct E as (z & Hz & E).
    apply String.eqb_eq in E. subst z. now apply IH.
  - rewrite in_app_iff, IH. cbn [In]. tauto.
Qed.

Lemma dict_mem_existsb {V : Type} (k : string) (d : dict V) :
  dict_mem k d = existsb (String.eqb k) (map fst d).
Proof.
  unfold dict_mem. induction d as [|[k' v] d IH]; [reflexivity|].
  cbn [dict_get map fst existsb]. rewrite (String.eqb_sym k k').
  destruct (String.eqb k' k); [reflexivity | exact IH].
Qed.

Lemma filter_none {A : Type} (p : A -> bool) (l : list A) :
  (forall x, In x l -> p x = false) -> filter p l = [].
Proof.
  induction l as [|x l IH]; intros H; [reflexivity|]. cbn [filter].
  rewrite (H x) by now left. apply IH. intros; apply H; now right.
Qed.

Section GroupingOrder.
Context {V : Type}.
Variable init : dict V.
Hypothesis init_keys : first_seen (map fst init) = map fst init.
Implicit Types (us : list (string * string * V)) (d : dict (dict V)).

Lemma regroup_order us :
  map fst (fold_left (regroup init) us []) = first_seen (map sid_of us) /\
  forall s inner,
    dict_get s (fold_left (regroup init) us []) = Some inner ->
    map fst inner = first_seen (map fst init ++ terms_of us s).
Proof.
  induction us as [|[[s0 t0] v0] us [IHk IHi]] using rev_ind.
  - split; [reflexivity | discriminate].
  - rewrite fold_left_app. cbn [fold_left regroup].
    set (d := fold_left (regroup init) us []) in *.
    set (old := match dict_get s0 d with Some i => i | None => init end).
    assert (Hold : map fst old = first_seen (map fst init ++ terms_of us s0)).
    { unfold old. destruct (dict_get s0 d) as [i|] eqn:E; [now apply IHi|].
      assert (Hnin : ~ In s0 (map sid_of us)).
      { intros H. apply first_seen_In in H. rewrite <- IHk in H.
        apply dict_get_In in H. congruence. }
      assert (Hnil : terms_of us s0 = []).
      { unfold terms_of.
        rewrite filter_none; [reflexivity|].
        intros u Hu. apply String.eqb_neq. intros <-. apply Hnin.
        now apply in_map. }
      now rewrite Hnil, app_nil_r, init_keys. }
    split.
    + rewrite dict_set_keys, map_app. cbn [map sid_of fst].
      rewrite first_seen_snoc, <- IHk. now rewrite dict_mem_existsb.
    + intros s inner Hget. unfold terms_of. rewrite filter_app.
      cbn [filter sid_of fst].
      destruct (String.eqb_spec s0 s) as [<- | Hne].
      * rewrite dict_get_set_same in Hget. injection Hget as <-.
        rewrite map_app, app_assoc. cbn [map term_of fst snd].
        fold (terms_of us s0).
        rewrite first_seen_snoc, <- Hold, dict_set_keys.
        now rewrite dict_mem_existsb.
      * rewrite dict_get_set_other in Hget by congruence.
        rewrite app_nil_r. now apply IHi.
Qed.
End GroupingOrder.

Lemma student_groups_keys (students : dict (dict (list float))) :
  map fst (student_groups students) =
  flat_map (fun '(sid, d) => map (pair sid) (map fst d)) students.
Proof.
  unfold student_groups.
  induction students as [|[sid d] students IH]; [reflexivity|].
  cbn [flat_map]. rewrite map_app, IH. f_equal.
  rewrite !map_map. apply map_ext. now intros [t sc].
Qed.

Lemma group_rows_order (data_list : list row) :
  map fst (student_groups (group_rows data_list)) = group_order data_list.
Proof.
  destruct (group_rows_inv data_list) as [Hnd _ _ _ _].
  rewrite student_groups_keys. unfold group_order.
  assert (Hrows : group_rows data_list =
                  fold_left (regroup []) (map row_update data_list) []).
  { unfold group_rows. apply fold_left_map_ext. apply group_row_regroup. }
  destruct (regroup_order (@nil (string * list float)) eq_refl
              (map row_update data_list)) as [Hk Hi].
  rewrite <- Hrows in Hk, Hi.
  assert (Hsid : map sid_of (map row_update data_list)
                 = map row_sid data_list)
    by (rewrite map_map; reflexivity).
  rewrite <- Hsid, <- Hk, flat_map_of_map.
  apply flat_map_ext_In. intros [sid d] Hd. cbn [fst]. f_equal.
  rewrite (Hi sid d (dict_In_get _ _ _ Hnd Hd)). cbn [map app]. f_equal.
  clear. unfold terms_of.
  induction data_list as [|r l IH]; [reflexivity|].
  cbn [map filter row_update sid_of fst].
  destruct (String.eqb (row_sid r) sid); cbn [map]; now rewrite IH.
Qed.

Lemma filter_map_In {A B : Type} (f : A -> B) (p : A -> bool) (q : B -> bool)
  (l : list A) :
  (forall x, In x l -> p x = q (f x)) ->
  map f (filter p l) = filter q (map f l).
Proof.
  induction l as [|x l IH]; intros H; [reflexivity|].
  cbn [map filter]. rewrite <- (H x) by now left.
  rewrite <- IH by (intros; apply H; now right).
  now destruct (p x).
Qed.

(** X5: whatever the records, [calculate_student_averages] returns, and
    its entries follow the grouping dictionaries: students in the order of
    their first record, the terms of a student in the order of the student's
    first record of each term, one entry per (student, term) pair whose last
    record has a non-empty score list. *)
Theorem calculate_student_averages_order (data_list : list row) :
  exists out,
    calculate_student_averages data_list = Ok out /\
    map average_key out =
    filter (keeps_scores data_list) (group_order data_list).
Proof.
  exists (average_entries (student_groups (group_rows data_list))).
  split; [apply calculate_student_averages_groups|].
  rewrite average_entries_keys, <- group_rows_order.
  apply filter_map_In. intros [[s t] sc] Hin.
  apply student_groups_rows in Hin. destruct Hin as (r & Hr & ->).
  unfold keeps_scores. cbn [fst snd]. now rewrite Hr.
Qed.

(** The order on an input that interleaves students and terms, with a
    repeated pair and a record without scores. *)
Example calculate_student_averages_order_example :
  calculate_student_averages
    [mkRow "b" "2" [4]; mkRow "a" "1" [2]; mkRow "b" "1" [6];
     mkRow "a" "1" [8]; mkRow "c" "1" []; mkRow "a" "2" [10]]
  = Ok [("2", "b", 4); ("1", "b", 6); ("1", "a", 8); ("2", "a", 10)].
Proof. reflexivity. Qed.

(** ** From the records to the most improved student *)

Lemma student_averages_In (data_list : list row) (term sid : string)
  (avg : float) :
  In (term, sid, avg)
    (average_entries (student_groups (group_rows data_list))) <->
  term_average data_list sid term = Some avg.
Proof.
  rewrite average_entries_In. unfold term_average. split.
  - intros (sc & Hin & Hne & ->). apply student_groups_rows in Hin.
    destruct Hin as (r & -> & ->). destruct (row_scores r); congruence.
  - destruct (last_record data_list sid term) as [r|] eqn:Hr; [|discriminate].
    destruct (row_scores r) as [|x sc] eqn:Hsc; [discriminate|].
    intros H. injection H as <-. exists (x :: sc).
    split; [|split; [discriminate | reflexivity]].
    apply student_groups_rows. exists r. now rewrite Hsc.
Qed.

(** An average of the output is found again by student and term. *)
Lemma last_average_student_averages (data_list : list row)
  (sid term : string) :
  last_average (average_entries (student_groups (group_rows data_list)))
    sid term = term_average data_list sid term.
Proof.
  set (out := average_entries (student_groups (group_rows data_list))).
  unfold last_average.
  destruct (find _ (rev out)) as [[[t s] a]|] eqn:E.
  - apply find_some in E. destruct E as [Hin E].
    apply andb_true_iff in E. destruct E as [E1 E2].
    apply String.eqb_eq in E1, E2. subst s t.
    apply in_rev in Hin. apply student_averages_In in Hin. now rewrite Hin.
  - destruct (term_average data_list sid term) as [a|] eqn:Ht; [|reflexivity].
    apply student_averages_In in Ht. fold out in Ht.
    apply in_rev in Ht. apply (find_none _ _ E) in Ht.
    cbn in Ht. now rewrite !String.eqb_refl in Ht.
Qed.

Lemma improvement_student_averages (data_list : list row) (sid : string) :
  improvement (average_entries (student_groups (group_rows data_list))) sid =
  improvement_from_records data_list sid.
Proof.
  unfold improvement, improvement_from_records.
  now rewrite !last_average_student_averages.
Qed.

Lemma first_seen_prefix (pre post : list string) :
  exists extra, first_seen (pre ++ post) = first_seen pre ++ extra.
Proof.
  induction post as [|x post [extra IH]] using rev_ind.
  - exists []. now rewrite !app_nil_r.
  - rewrite app_assoc, first_seen_snoc, IH.
    destruct (existsb _ _); [now exists extra|].
    exists (extra ++ [x]). now rewrite app_assoc.
Qed.

Lemma occurs_before_first_seen (l : list string) (a b : string) :
  occurs_before l a b -> occurs_before (first_seen l) a b.
Proof.
  intros (pre & post & -> & Ha & Hb).
  destruct (first_seen_prefix pre post) as [extra E].
  exists (first_seen pre), extra. rewrite !first_seen_In. auto.
Qed.

Lemma map_split {A B : Type} (f : A -> B) (l : list A) (l1 l2 : list B) :
  map f l = l1 ++ l2 ->
  exists k1 k2, l = k1 ++ k2 /\ map f k1 = l1 /\ map f k2 = l2.
Proof.
  revert l. induction l1 as [|y l1 IH]; intros l H.
  - now exists [], l.
  - destruct l as [|x l]; [discriminate|]. cbn in H. injection H as Hx H.
    destruct (IH l H) as (k1 & k2 & -> & <- & <-).
    exists (x :: k1), k2. cbn. now rewrite Hx.
Qed.

Lemma student_averages_keys (data_list : list row) :
  map average_key (average_entries (student_groups (group_rows data_list))) =
  filter (keeps_scores data_list) (group_order data_list).
Proof.
  rewrite average_entries_keys, <- group_rows_order.
  apply filter_map_In. intros [[s t] sc] Hin.
  apply student_groups_rows in Hin. destruct Hin as (r & Hr & ->).
  unfold keeps_scores. cbn [fst snd]. now rewrite Hr.
Qed.

(** The output lists a student with an entry before a student recorded
    later. *)
Lemma student_averages_seen_before (data_list : list row) (a b term : string)
  (avg : float) :
  recorded_before data_list a b ->
  In (term, a, avg)
    (average_entries (student_groups (group_rows data_list))) ->
  seen_before (average_entries (student_groups (group_rows data_list))) a b.
Proof.
  intros Hbefore Hin.
  set (out := average_entries (student_groups (group_rows data_list))) in *.
  apply occurs_before_first_seen in Hbefore.
  destruct Hbefore as (P & E & Hsplit & Ha & Hb).
  pose proof (student_averages_keys data_list) as Hkeys. fold out in Hkeys.
  unfold group_order in Hkeys.
  rewrite Hsplit, flat_map_app, filter_app in Hkeys.
  set (g := fun sid : string =>
              map (pair sid)
                (first_seen
                   (map row_term
                      (filter (fun r => String.eqb (row_sid r) sid)
                         data_list)))) in *.
  assert (Hkey : In (a, term) (filter (keeps_scores data_list)
                                 (flat_map g (P ++ E)))).
  { rewrite flat_map_app, filter_app, <- Hkeys.
    apply in_map_iff. now exists (term, a, avg). }
  apply filter_In in Hkey. destruct Hkey as [Hkey Hkeep].
  apply in_flat_map in Hkey. destruct Hkey as (s & _ & Hkey).
  unfold g in Hkey. apply in_map_iff in Hkey.
  destruct Hkey as (t & Hst & Ht). injection Hst as -> ->.
  destruct (map_split _ _ _ _ Hkeys) as (o1 & o2 & Hout & H1 & _).
  assert (Hsid : map average_sid o1 = map fst (map average_key o1))
    by (rewrite map_map; reflexivity).
  exists o1, o2. split; [assumption|]. rewrite Hsid, H1. split.
  - apply in_map_iff. exists (a, term). split; [reflexivity|].
    apply filter_In. split; [|assumption].
    apply in_flat_map. exists a. split; [assumption|].
    unfold g. apply in_map_iff. now exists term.
  - intros H. apply in_map_iff in H. destruct H as ([s t] & Hs & H).
    cbn in Hs. subst s. apply filter_In in H. destruct H as [H _].
    apply in_flat_map in H. destruct H as (s & HsP & H).
    unfold g in H. apply in_map_iff in H. destruct H as (t' & E' & _).
    injection E' as -> _. contradiction.
Qed.

(** X6: whatever the records, [get_most_improved_student] applied to the
    output of [calculate_student_averages] returns [None] exactly when no
    student has a last record with scores in both term "1" and term "2";
    otherwise it returns such a student.  The improvement of a student is
    the binary64 mean of the last term-2 record minus the one of the last
    term-1 record; when no improvement is NaN, the one of the returned
    student is maximal, and every such student whose first record comes
    earlier in the input has a strictly smaller improvement. *)
Theorem most_improved_from_records (data_list : list row) :
  exists averages result,
    calculate_student_averages data_list = Ok averages /\
    get_most_improved_student averages = Ok result /\
    (result = None <->
     forall sid, improvement_from_records data_list sid = None) /\
    (forall sid,
        result = Some sid ->
        exists imp,
          improvement_from_records data_list sid = Some imp /\
          ((forall s i,
               improvement_from_records data_list s = Some i ->
               is_nan i = false) ->
           forall sid' imp',
             improvement_from_records data_list sid' = Some imp' ->
             (imp' <=? imp) = true /\
             (recorded_before data_list sid' sid -> (imp' <? imp) = true))).
Proof.
  set (out := average_entries (student_groups (group_rows data_list))).
  destruct (get_most_improved_student_choice out)
    as (result & Hres & Hnone & Hsome).
  exists out, result.
  split; [apply calculate_student_averages_groups|].
  split; [assumption|]. split.
  - rewrite Hnone. split; intros H sid; specialize (H sid);
      unfold out in *; now rewrite improvement_student_averages in *.
  - intros sid Hsid. destruct (Hsome sid Hsid) as (imp & Himp & Hmax).
    unfold out in Himp. rewrite improvement_student_averages in Himp.
    exists imp. split; [assumption|]. intros Hnan sid' imp' H'.
    pose proof H' as H''.
    rewrite <- improvement_student_averages in H'. fold out in H'.
    destruct (Hmax) with (sid' := sid') (imp' := imp') as [Hle Hlt];
      [|assumption|].
    { intros s i Hi. apply (Hnan s). unfold out in Hi.
      now rewrite improvement_student_averages in Hi. }
    split; [assumption|].
    intros Hbefore. apply Hlt.
    unfold improvement_from_records in H''.
    destruct (term_average data_list sid' "1") as [one|] eqn:E1;
      [|discriminate].
    apply student_averages_In in E1.
    now apply student_averages_seen_before with (term := "1") (avg := one).
Qed.

Lemma most_improved_from_records_witness :
  exists averages,
    calculate_student_averages
      [mkRow "s2" "2" [50; 51]; mkRow "s1" "1" [10; 30];
       mkRow "s2" "1" [30; 30]; mkRow "s1" "2" [40; 41]] = Ok averages /\
    get_most_improved_student averages = Ok (Some "s2") /\
    forall sid' imp',
      improvement_from_records
        [mkRow "s2" "2" [50; 51]; mkRow "s1" "1" [10; 30];
         mkRow "s2" "1" [30; 30]; mkRow "s1" "2" [40; 41]] sid' = Some imp' ->
      (imp' <=? 20.5) = true.
Proof.
  destruct (most_improved_from_records
              [mkRow "s2" "2" [50; 51]; mkRow "s1" "1" [10; 30];
               mkRow "s2" "1" [30; 30]; mkRow "s1" "2" [40; 41]])
    as (averages & result & Hav & Hres & _ & Hmax).
  exists averages. split; [exact Hav|].
  vm_compute in Hav. injection Hav as <-.
  vm_compute in Hres. injection Hres as <-.
  split; [reflexivity|].
  destruct (Hmax "s2" eq_refl) as (imp & Himp & H).
  vm_compute in Himp. injection Himp as <-.
  intros sid' imp' H'. apply H with (sid' := sid'); [|exact H'].
  intros s i Hi.
  assert (Hs : In s ["s2"; "s1"]).
  { unfold improvement_from_records, term_average in Hi.
    destruct (last_record _ s "1") as [r|] eqn:Hr; [|discriminate Hi].
    apply last_record_Some in Hr. destruct Hr as (Hin & <- & _).
    destruct Hin as [<- | [<- | [<- | [<- | []]]]]; simpl; tauto. }
  destruct Hs as [<- | [<- | []]]; vm_compute in Hi; injection Hi as <-;
    reflexivity.
Defined.

(** Two students improve by 20.5; the one recorded first is returned. *)
Example most_improved_from_records_tie :
  (averages <- calculate_student_averages
       [mkRow "s2" "2" [50; 51]; mkRow "s1" "1" [10; 30];
        mkRow "s2" "1" [30; 30]; mkRow "s1" "2" [40; 41]] ;;
   get_most_improved_student averages) = Ok (Some "s2") /\
  improvement_from_records
    [mkRow "s2" "2" [50; 51]; mkRow "s1" "1" [10; 30];
     mkRow "s2" "1" [30; 30]; mkRow "s1" "2" [40; 41]] "s2" = Some 20.5 /\
  improvement_from_records
    [mkRow "s2" "2" [50; 51]; mkRow "s1" "1" [10; 30];
     mkRow "s2" "1" [30; 30]; mkRow "s1" "2" [40; 41]] "s1" = Some 20.5.
Proof. repeat split; vm_compute; reflexivity. Qed.

(** ** main *)

Lemma py_max_default_filter {A : Type} (p : A -> bool) (key : A -> float)
  (l : list A) :
  py_max_default (fun x => Ok (key x)) (filter p l) =
  Ok (first_max_where p key l).
Proof.
  unfold py_max_default, first_max_where.
  destruct (filter p l) as [|x l']; [reflexivity|].
  unfold py_max. now rewrite extremum_pure with (key := key).
Qed.

Lemma filter_split {A : Type} (p : A -> bool) (l : list A) (r : A)
  (fpre fpost : list A) :
  filter p l = fpre ++ r :: fpost ->
  exists pre post,
    l = pre ++ r :: post /\ p r = true /\
    filter p pre = fpre /\ filter p post = fpost.
Proof.
  revert fpre. induction l as [|x l IH]; intros fpre H.
  - now destruct fpre.
  - cbn [filter] in H. destruct (p x) eqn:Hx.
    + destruct fpre as [|y fpre]; cbn [app] in H; injection H as -> H.
      * exists [], l. now rewrite Hx.
      * destruct (IH fpre H) as (pre & post & -> & Hr & <- & <-).
        exists (y :: pre), post. cbn [filter]. now rewrite Hx.
    + destruct (IH fpre H) as (pre & post & -> & Hr & <- & <-).
      exists (x :: pre), post. cbn [filter]. now rewrite Hx.
Qed.

Lemma first_max_where_None {A : Type} (p : A -> bool) (key : A -> float)
  (l : list A) :
  first_max_where p key l = None <-> forall x, In x l -> p x = false.
Proof.
  unfold first_max_where. split.
  - destruct (filter p l) as [|y l'] eqn:E; [|discriminate].
    intros _ x Hin. destruct (p x) eqn:Hx; [|reflexivity].
    assert (H : In x (filter p l)) by (apply filter_In; auto).
    now rewrite E in H.
  - intros H. now rewrite filter_none.
Qed.

(** The element picked passes the test. *)
Lemma first_max_where_In {A : Type} (p : A -> bool) (key : A -> float)
  (l : list A) (r : A) :
  first_max_where p key l = Some r -> In r l /\ p r = true.
Proof.
  unfold first_max_where.
  destruct (filter p l) as [|x l'] eqn:E; [discriminate|].
  intros H. injection H as <-. apply filter_In. rewrite E.
  apply first_best_In.
Qed.

(** When no passing element has a NaN key, the element picked splits the
    list: a passing element before it has a strictly smaller key, a passing
    element after it has no greater key. *)
Lemma first_max_where_Some {A : Type} (p : A -> bool) (key : A -> float)
  (l : list A) (r : A) :
  (forall y, In y l -> p y = true -> is_nan (key y) = false) ->
  first_max_where p key l = Some r ->
  exists pre post,
    l = pre ++ r :: post /\ p r = true /\
    Forall (fun y => p y = true -> (key y <? key r) = true) pre /\
    Forall (fun y => p y = true -> (key y <=? key r) = true) post.
Proof.
  unfold first_max_where. intros Hnan.
  destruct (filter p l) as [|x l'] eqn:E; [discriminate|].
  intros H. injection H as <-.
  destruct (first_max_split key x l') as (fpre & fpost & Hs & Hpre & Hpost).
  { apply Forall_forall. intros y Hy. rewrite <- E in Hy.
    apply filter_In in Hy. now apply Hnan. }
  rewrite Hs in E. apply filter_split in E.
  destruct E as (pre & post & -> & Hr & <- & <-).
  exists pre, post. split; [reflexivity|]. split; [assumption|].
  rewrite Forall_forall in Hpre, Hpost.
  split; apply Forall_forall; intros y Hy Hp;
    [apply Hpre | apply Hpost]; apply filter_In; auto.
Qed.

(** The values [analyse] picks when no analysis raises. *)
Lemma analyse_outcome (data_list : list row) :
  has_short_record data_list = false ->
  divides_by_zero data_list = false ->
  exists improved,
    get_most_improved_student
      (average_entries (student_groups (group_rows data_list)))
    = Ok improved /\
    analyse data_list =
    Ok (mkAnalysis improved
          match first_max_where of_term_one snd
                  (class_averages_of data_list) with
          | Some (_, subject, _) => subject
          | None => "N/A"
          end
          (achiever_of "1" "Math" (achievers_of better_max data_list))
          (achiever_of "2" "CS" (achievers_of better_min data_list))
          match first_max_where positive_trend snd (trends_of data_list) with
          | Some (subject, _) => subject
          | None => "N/A"
          end).
Proof.
  intros Hshort Hzero.
  destruct (get_most_improved_student_choice
              (average_entries (student_groups (group_rows data_list))))
    as (improved & Himp & _).
  exists improved. split; [assumption|].
  unfold analyse.
  rewrite calculate_student_averages_groups, calculate_class_averages_outcome.
  unfold identify_highest_achieving_students,
    identify_lowest_achieving_students, py_max, py_min.
  rewrite !identify_achievers_index_error,
    analyze_performance_trends_outcome, Hshort, Hzero.
  cbn [bind]. rewrite Himp. cbn [bind].
  rewrite (py_max_default_filter of_term_one (@snd (string * string) float)).
  cbn [bind].
  rewrite (py_max_default_filter positive_trend (@snd string float)).
  reflexivity.
Qed.

Section Find.
Context {R X : Type}.
Variable group : string -> list R.
Variable entry : string -> nat -> string -> R -> list R -> X.
Variable p : X -> bool.
Variables term subject : string.
Hypothesis p_entry : forall t i s x l,
  p (entry t i s x l) = String.eqb t term && String.eqb s subject.

Lemma find_other_term (t : string) (cells : list (nat * string)) :
  t <> term -> find p (flat_map (table_entry group entry t) cells) = None.
Proof.
  intros Hne. induction cells as [|[i s] cells IH]; [reflexivity|].
  cbn [flat_map]. unfold table_entry at 1.
  destruct (group t) as [|x l]; [exact IH|].
  cbn [app find]. rewrite p_entry.
  apply String.eqb_neq in Hne. rewrite Hne. exact IH.
Qed.

Lemma find_no_records (cells : list (nat * string)) :
  group term = [] -> flat_map (table_entry group entry term) cells = [].
Proof.
  intros Hg. induction cells as [|[i s] cells IH]; [reflexivity|].
  cbn [flat_map]. unfold table_entry at 1. now rewrite Hg.
Qed.

Lemma find_same_term (ss : list string) (x : R) (l : list R) :
  NoDup ss -> group term = x :: l ->
  forall n i, nth_error ss i = Some subject ->
  find p (flat_map (table_entry group entry term)
            (combine (seq n (List.length ss)) ss)) =
  Some (entry term (n + i) subject x l).
Proof.
  intros Hnd Hg.
  induction ss as [|s ss IH]; intros n i Hi; [now destruct i|].
  apply NoDup_cons_iff in Hnd. destruct Hnd as [Hnin Hnd].
  cbn [List.length seq combine flat_map]. unfold table_entry at 1.
  rewrite Hg. cbn [app find]. rewrite p_entry, String.eqb_refl. cbn [andb].
  destruct i as [|i]; cbn [nth_error] in Hi.
  - injection Hi as ->. now rewrite String.eqb_refl, Nat.add_0_r.
  - assert (Hne : s <> subject)
      by (intros ->; apply Hnin; eapply nth_error_In; eauto).
    apply String.eqb_neq in Hne. rewrite Hne.
    rewrite (IH Hnd (S n) i Hi). now rewrite Nat.add_succ_r.
Qed.

Lemma per_term_subject_find (i : nat) :
  In term terms -> nth_error subjects i = Some subject ->
  find p (per_term_subject group entry) =
  match group term with
  | [] => None
  | x :: l => Some (entry term i subject x l)
  end.
Proof.
  intros Hin Hi.
  change (per_term_subject group entry) with
    (flat_map (fun t => flat_map (table_entry group entry t)
                          (enumerate subjects)) terms).
  pose proof terms_NoDup as Hts. revert Hts Hin. generalize terms as ts.
  assert (Hout : forall ts, ~ In term ts ->
            find p (flat_map (fun t => flat_map (table_entry group entry t)
                                         (enumerate subjects)) ts) = None).
  { induction ts as [|t ts IH]; intros Hnin; [reflexivity|].
    cbn [flat_map]. rewrite find_app.
    rewrite find_other_term by (intros ->; apply Hnin; now left).
    apply IH. intros H; apply Hnin; now right. }
  induction ts as [|t ts IH]; intros Hts Hin; [contradiction|].
  apply NoDup_cons_iff in Hts. destruct Hts as [Hnin Hts].
  cbn [flat_map]. rewrite find_app.
  destruct (String.eqb_spec t term) as [-> | Hne].
  - destruct (group term) as [|x l] eqn:Hg.
    + rewrite find_no_records by assumption. now apply Hout.
    + unfold enumerate.
      now rewrite (find_same_term subjects x l subjects_NoDup Hg 0 i Hi).
  - rewrite find_other_term by assumption.
    apply IH; [assumption|]. destruct Hin as [-> | Hin]; tauto.
Qed.
End Find.

Lemma achiever_of_table (better : float -> float -> bool)
  (data_list : list row)
  (term subject : string) (i : nat) :
  In term terms -> nth_error subjects i = Some subject ->
  achiever_of term subject (achievers_of better data_list) =
  match rows_of_term data_list term with
  | [] => "N/A"
  | x :: l => row_sid (first_best better (fun y => score y i) x l)
  end.
Proof.
  intros Hterm Hs. unfold achiever_of, achievers_of.
  rewrite (per_term_subject_find _ _ _ term subject) with (i := i);
    [|reflexivity | assumption | assumption].
  now destruct (rows_of_term data_list term).
Qed.

(** X7: when no analysis raises, the student [main] reports for Math in
    term "1" is the student of a term-1 record and the student it reports
    for CS in term "2" is the student of a term-2 record; each is "N/A"
    when the term has no record.  When no Math score of term "1" is NaN,
    the record is the first term-1 record with the greatest Math score;
    when no CS score of term "2" is NaN, the record is the first term-2
    record with the least CS score. *)
Theorem analyse_named_achievers (data_list : list row) :
  has_short_record data_list = false ->
  divides_by_zero data_list = false ->
  exists a,
    analyse data_list = Ok a /\
    (has_records data_list "1" = false ->
     highest_math_student_term_one a = "N/A") /\
    (has_records data_list "1" = true ->
     exists r, In r (rows_of_term data_list "1") /\
               highest_math_student_term_one a = row_sid r /\
               (Forall (fun v => is_nan v = false) (column data_list "1" 2) ->
                first_maximal 2 (rows_of_term data_list "1") r)) /\
    (has_records data_list "2" = false ->
     lowest_cs_student_term_two a = "N/A") /\
    (has_records data_list "2" = true ->
     exists r, In r (rows_of_term data_list "2") /\
               lowest_cs_student_term_two a = row_sid r /\
               (Forall (fun v => is_nan v = false) (column data_list "2" 4) ->
                first_minimal 4 (rows_of_term data_list "2") r)).
Proof.
  intros Hshort Hzero.
  destruct (analyse_outcome data_list Hshort Hzero) as (improved & _ & Ha).
  eexists. split; [exact Ha|].
  cbn [highest_math_student_term_one lowest_cs_student_term_two].
  rewrite (achiever_of_table better_max data_list "1" "Math" 2)
    by (cbn; auto).
  rewrite (achiever_of_table better_min data_list "2" "CS" 4)
    by (cbn; auto).
  rewrite !has_records_rows. unfold column.
  destruct (rows_of_term data_list "1") as [|x1 l1],
    (rows_of_term data_list "2") as [|x2 l2];
    repeat split; try discriminate; try reflexivity; intros _;
    eexists; (split; [apply first_best_In|]); (split; [reflexivity|]);
    rewrite Forall_map; intros Hnan;
    first [ now apply (first_max_split (fun y => score y 2))
          | now apply (first_min_split (fun y => score y 4)) ].
Qed.

Lemma analyse_named_achievers_witness :
  exists a,
    analyse [mkRow "s1" "1" [10; 20; 50; 40; 50; 60; 70; 80];
             mkRow "s2" "1" [10; 20; 60.5; 40; 50; 60; 70; 80];
             mkRow "s3" "1" [10; 20; 60.5; 40; 50; 60; 70; 80]] = Ok a /\
    highest_math_student_term_one a = "s2" /\
    lowest_cs_student_term_two a = "N/A" /\
    first_maximal 2
      [mkRow "s1" "1" [10; 20; 50; 40; 50; 60; 70; 80];
       mkRow "s2" "1" [10; 20; 60.5; 40; 50; 60; 70; 80];
       mkRow "s3" "1" [10; 20; 60.5; 40; 50; 60; 70; 80]]
      (mkRow "s2" "1" [10; 20; 60.5; 40; 50; 60; 70; 80]).
Proof.
  destruct (analyse_named_achievers
              [mkRow "s1" "1" [10; 20; 50; 40; 50; 60; 70; 80];
               mkRow "s2" "1" [10; 20; 60.5; 40; 50; 60; 70; 80];
               mkRow "s3" "1" [10; 20; 60.5; 40; 50; 60; 70; 80]])
    as (a & Ha & _ & Hmath & Hcs & _); [reflexivity | reflexivity |].
  exists a. split; [exact Ha|].
  destruct (Hmath eq_refl) as (r & Hr & Hsid & Hmax).
  vm_compute in Ha. injection Ha as <-.
  split; [reflexivity|]. split; [reflexivity|].
  cbn [highest_math_student_term_one] in Hsid.
  assert (r = mkRow "s2" "1" [10; 20; 60.5; 40; 50; 60; 70; 80]) as ->.
  { destruct Hr as [<- | [<- | [<- | []]]];
      [discriminate Hsid | reflexivity | discriminate Hsid]. }
  apply Hmax. repeat constructor.
Defined.

Lemma class_averages_of_term_one (data_list : list row) :
  has_records data_list "1" = false <->
  forall avg, In avg (class_averages_of data_list) -> of_term_one avg = false.
Proof.
  split.
  - intros Hnone [[t s] v] Hin. unfold of_term_one. cbn [fst].
    apply String.eqb_neq. intros ->.
    assert (Hkey : In ("1", s) (map fst (class_averages_of data_list)))
      by (apply in_map_iff; now exists ("1", s, v)).
    rewrite class_averages_of_keys in Hkey. apply filter_In in Hkey.
    cbn [fst] in Hkey. destruct Hkey as [_ Hkey]. congruence.
  - intros Hall. destruct (has_records data_list "1") eqn:E; [|reflexivity].
    assert (Hkey : In ("1", "Chi") (map fst (class_averages_of data_list))).
    { rewrite class_averages_of_keys.
      apply pairs_with_records_complete; cbn; auto. }
    apply in_map_iff in Hkey. destruct Hkey as ([[t s] v] & Hk & Hin).
    cbn in Hk. injection Hk as -> ->. now apply Hall in Hin.
Qed.

(** X8: when no analysis raises, the subject [main] reports as the one with
    the highest term-1 average is "N/A" when term "1" has no record;
    otherwise it is the subject of a term-1 entry of the class averages,
    and when no term-1 class average is NaN this entry is the first whose
    average is the greatest: every term-1 entry before it has a strictly
    smaller average, no term-1 entry after it has a greater one. *)
Theorem analyse_highest_term_one_subject (data_list : list row) :
  has_short_record data_list = false ->
  divides_by_zero data_list = false ->
  exists a averages,
    analyse data_list = Ok a /\
    calculate_class_averages data_list = Ok averages /\
    (has_records data_list "1" = false ->
     highest_term_one_subject a = "N/A") /\
    (has_records data_list "1" = true ->
     (exists avg, In ("1", highest_term_one_subject a, avg) averages) /\
     ((forall e : class_average,
          In e averages -> fst (fst e) = "1" -> is_nan (snd e) = false) ->
      exists pre post avg,
        averages = pre ++ ("1", highest_term_one_subject a, avg) :: post /\
        Forall (fun e : class_average =>
                  fst (fst e) = "1" -> (snd e <? avg) = true) pre /\
        Forall (fun e : class_average =>
                  fst (fst e) = "1" -> (snd e <=? avg) = true) post)).
Proof.
  intros Hshort Hzero.
  destruct (analyse_outcome data_list Hshort Hzero) as (improved & _ & Ha).
  eexists. exists (class_averages_of data_list). split; [exact Ha|].
  split; [now rewrite calculate_class_averages_outcome, Hshort|].
  cbn [highest_term_one_subject].
  destruct (first_max_where of_term_one snd (class_averages_of data_list))
    as [[[t s] v]|] eqn:E.
  - pose proof (first_max_where_In _ _ _ _ E) as [Hin Hr].
    unfold of_term_one in Hr. cbn [fst] in Hr.
    apply String.eqb_eq in Hr. subst t. split.
    + intros Hnone. exfalso.
      now apply (proj1 (class_averages_of_term_one data_list)) with
        (avg := ("1", s, v)) in Hnone.
    + intros _. split; [now exists v|]. intros Hnan.
      apply first_max_where_Some in E.
      * destruct E as (pre & post & Hsplit & _ & Hpre & Hpost).
        exists pre, post, v. split; [assumption|].
        split; eapply Forall_impl; try eassumption; cbv beta;
          intros e He Hterm; apply He; unfold of_term_one;
          now apply String.eqb_eq.
      * intros e He Hp. apply Hnan; [assumption|].
        now apply String.eqb_eq.
  - split; [reflexivity|]. intros Hsome.
    pose proof (proj1 (first_max_where_None _ _ _) E) as Hnone.
    apply class_averages_of_term_one in Hnone. congruence.
Qed.

Lemma analyse_highest_term_one_subject_witness :
  exists a,
    analyse [mkRow "s1" "1" [10; 90.5; 50; 40; 50; 60; 70; 90.5];
             mkRow "s2" "1" [10; 70; 60; 40; 50; 60; 70; 70]] = Ok a /\
    highest_term_one_subject a = "Eng" /\
    exists avg,
      In ("1", "Eng", avg)
        [("1", "Chi", 10); ("1", "Eng", 80.25); ("1", "Math", 55);
         ("1", "GS", 40); ("1", "CS", 50); ("1", "Music", 60);
         ("1", "VA", 70); ("1", "PE", 80.25)].
Proof.
  destruct (analyse_highest_term_one_subject
              [mkRow "s1" "1" [10; 90.5; 50; 40; 50; 60; 70; 90.5];
               mkRow "s2" "1" [10; 70; 60; 40; 50; 60; 70; 70]])
    as (a & averages & Ha & Havg & _ & Hsubject);
    [reflexivity | reflexivity |].
  exists a. split; [exact Ha|].
  destruct (Hsubject eq_refl) as [Hin _].
  vm_compute in Ha. injection Ha as <-.
  vm_compute in Havg. injection Havg as <-.
  split; [reflexivity | exact Hin].
Defined.

(** A trend that is not positive and not NaN is below every positive
    one. *)
Lemma below_positive (x change : float) :
  is_nan x = false -> (0 <? x) = false -> (0 <? change) = true ->
  (x <? change) = true.
Proof.
  intros Hx Hneg Hpos. apply (leb_ltb_trans x 0 change); [|assumption].
  apply not_ltb_leb; [reflexivity | assumption | assumption].
Qed.

(** X9: when no analysis raises, the subject [main] reports as the one with
    the highest positive trend is "N/A" when no trend is positive;
    otherwise it is the subject of the first trend entry with the greatest
    percent change, which is positive: every entry before it whose change
    is not NaN has a strictly smaller change, and no entry after it has a
    greater one. *)
Theorem analyse_highest_trend_subject (data_list : list row) :
  has_short_record data_list = false ->
  divides_by_zero data_list = false ->
  exists a trends,
    analyse data_list = Ok a /\
    analyze_performance_trends data_list = Ok trends /\
    ((forall t, In t trends -> (0 <? snd t) = false) ->
     highest_trend_subject a = "N/A") /\
    (forall t, In t trends -> (0 <? snd t) = true ->
     exists pre post change,
       trends = pre ++ (highest_trend_subject a, change) :: post /\
       (0 <? change) = true /\
       Forall (fun e : trend =>
                 is_nan (snd e) = false -> (snd e <? change) = true) pre /\
       Forall (fun e : trend =>
                 is_nan (snd e) = false -> (snd e <=? change) = true) post).
Proof.
  intros Hshort Hzero.
  destruct (analyse_outcome data_list Hshort Hzero) as (improved & _ & Ha).
  eexists. exists (trends_of data_list). split; [exact Ha|].
  split; [now rewrite analyze_performance_trends_outcome, Hshort, Hzero|].
  cbn [highest_trend_subject].
  destruct (first_max_where positive_trend snd (trends_of data_list))
    as [[s v]|] eqn:E.
  - pose proof (first_max_where_In _ _ _ _ E) as [Hin Hr].
    unfold positive_trend in Hr. cbn [snd] in Hr. split.
    + intros Hall. apply Hall in Hin. cbn [snd] in Hin. congruence.
    + intros _ _ _. apply first_max_where_Some in E.
      * destruct E as (pre & post & Hsplit & _ & Hpre & Hpost).
        exists pre, post, v. split; [assumption|]. split; [assumption|].
        split; eapply Forall_impl; try eassumption; cbv beta;
          intros e He Hnan; cbn [snd] in He;
          (destruct (positive_trend e) eqn:Hp; [now apply He|]).
        -- now apply below_positive.
        -- apply ltb_leb. now apply below_positive.
      * intros e _ Hp. unfold positive_trend in Hp.
        destruct (is_nan (snd e)) eqn:Hnan; [|reflexivity].
        destruct (ltb_nan (snd e) 0 Hnan) as [_ H']. congruence.
  - split; [reflexivity|]. intros t Hin Hpos. exfalso.
    rewrite first_max_where_None in E. apply E in Hin.
    unfold positive_trend in Hin. congruence.
Qed.

(** The Chi trend is NaN (the term-2 average is infinite, and so is the
    term-1 average); it stands before the entry reported, the one of Eng,
    and is not compared with it. *)
Lemma analyse_highest_trend_subject_witness :
  exists a,
    analyse [mkRow "s1" "1" [infinity; 20; 50; 40; 50; 60; 70; 80];
             mkRow "s1" "2" [infinity; 30; 75; 40; 50; 60; 35; 81]] = Ok a /\
    highest_trend_subject a = "Eng" /\
    exists pre post change,
      [("Chi", nan); ("Eng", 50); ("Math", 50); ("GS", 0); ("CS", 0);
       ("Music", 0); ("VA", -50); ("PE", 1.25)]
      = pre ++ ("Eng", change) :: post /\
      (0 <? change) = true /\
      Forall (fun e : trend =>
                is_nan (snd e) = false -> (snd e <? change) = true) pre /\
      Forall (fun e : trend =>
                is_nan (snd e) = false -> (snd e <=? change) = true) post.
Proof.
  destruct (analyse_highest_trend_subject
              [mkRow "s1" "1" [infinity; 20; 50; 40; 50; 60; 70; 80];
               mkRow "s1" "2" [infinity; 30; 75; 40; 50; 60; 35; 81]])
    as (a & trends & Ha & Ht & _ & Hsubject); [reflexivity | reflexivity |].
  exists a. split; [exact Ha|].
  vm_compute in Ha. injection Ha as <-.
  vm_compute in Ht. injection Ht as <-.
  split; [reflexivity|].
  apply (Hsubject ("Eng", 50)); [simpl; tauto | reflexivity].
Defined.

(** X10: [main] writes its report only when every analysis returns.  It
    raises [IndexError] when some record of term "1" or "2" has fewer than
    8 scores, otherwise [ZeroDivisionError] when some subject has a zero
    class average in term "1" and a class average in term "2", and
    otherwise produces the text of the report. *)
Theorem main_report_errors (data_list : list row) :
  (has_short_record data_list = true ->
   main_report data_list = Raise IndexError) /\
  (has_short_record data_list = false ->
   divides_by_zero data_list = true ->
   main_report data_list = Raise ZeroDivisionError) /\
  (has_short_record data_list = false ->
   divides_by_zero data_list = false ->
   exists text, main_report data_list = Ok text).
Proof.
  split; [|split].
  - intros Hshort. unfold main_report, analyse.
    rewrite calculate_student_averages_groups,
      calculate_class_averages_outcome, Hshort. reflexivity.
  - intros Hshort Hzero. unfold main_report, analyse.
    rewrite calculate_student_averages_groups,
      calculate_class_averages_outcome.
    unfold identify_highest_achieving_students,
      identify_lowest_achieving_students, py_max, py_min.
    rewrite !identify_achievers_index_error,
      analyze_performance_trends_outcome, Hshort, Hzero. reflexivity.
  - intros Hshort Hzero.
    destruct (analyse_outcome data_list Hshort Hzero) as (improved & _ & Ha).
    unfold main_report. rewrite Ha. cbn [bind]. eauto.
Qed.

Lemma main_report_errors_witness :
  main_report [mkRow "s1" "1" [10; 20; 50; 40; 50; 60; 70]]
    = Raise IndexError /\
  main_report [mkRow "s1" "1" [0; 20; 50; 40; 50; 60; 70; 80];
               mkRow "s1" "2" [10; 30; 75; 40; 50; 60; 35; 81]]
    = Raise ZeroDivisionError /\
  exists text,
    main_report [mkRow "s1" "1" [10; 20; 50; 40; 50; 60; 70; 80];
                 mkRow "s1" "2" [10; 30; 75; 40; 50; 60; 35; 81]] = Ok text.
Proof.
  split; [|split].
  - apply (main_report_errors
             [mkRow "s1" "1" [10; 20; 50; 40; 50; 60; 70]]). reflexivity.
  - apply (main_report_errors
             [mkRow "s1" "1" [0; 20; 50; 40; 50; 60; 70; 80];
              mkRow "s1" "2" [10; 30; 75; 40; 50; 60; 35; 81]]);
      reflexivity.
  - apply (main_report_errors
             [mkRow "s1" "1" [10; 20; 50; 40; 50; 60; 70; 80];
              mkRow "s1" "2" [10; 30; 75; 40; 50; 60; 35; 81]]);
      reflexivity.
Defined.

(** The report of the empty dataset, and of one with both terms. *)
Example main_report_empty :
  main_report [] =
  Ok (String.concat newline
        ["The SID is None"; "The subject is N/A"; "The SID is N/A";
         "The SID is N/A"; "The subject is N/A"; ""]).
Proof. reflexivity. Qed.

Example main_report_example :
  main_report [mkRow "s1" "1" [10; 20; 50; 40; 50; 60; 70; 80];
               mkRow "s2" "1" [10; 20; 60; 40; 50; 60; 70; 80];
               mkRow "s1" "2" [10; 30; 75; 40; 50; 60; 35; 81]] =
  Ok (String.concat newline
        ["The SID is s1"; "The subject is PE"; "The SID is s2";
         "The SID is s1"; "The subject is Eng"; ""]).
Proof. reflexivity. Qed.

(** ** get_data_list *)

Section GetDataList.
Variable float : string -> option PrimFloat.float.

Lemma floats_Some (fields : list string) (qs : list PrimFloat.float) :
  floats float fields = Some qs <->
  Forall2 (fun x q => float x = Some q) fields qs.
Proof.
  revert qs. induction fields as [|x fields IH]; intros qs; cbn [floats].
  - split; [intros H; injection H as <-; constructor|].
    intros H. now inversion H.
  - destruct (float x) as [q|] eqn:Hx.
    + destruct (floats float fields) as [qs'|].
      * split.
        -- intros H. injection H as <-. constructor; [assumption|].
           now apply IH.
        -- intros H. inversion H as [|? q' ? qs'' Hq Hqs]; subst.
           apply IH in Hqs. congruence.
      * split; [discriminate|].
        intros H. inversion H as [|? q' ? qs'' Hq Hqs]; subst.
        apply IH in Hqs. discriminate.
    + split; [discriminate|].
      intros H. inversion H; subst. congruence.
Qed.

Lemma num_row_Loaded (fields : list string) (r : row) :
  num_row float fields = Loaded r <-> line_record float fields r.
Proof.
  unfold num_row, line_record. split.
  - destruct fields as [|sid [|term rest]]; try discriminate.
    destruct (floats float rest) as [scores|] eqn:E; [|discriminate].
    intros H. injection H as <-. exists rest. split; [reflexivity|].
    now apply floats_Some.
  - intros (rest & -> & H). apply floats_Some in H. rewrite H.
    now destruct r.
Qed.

Lemma read_rows_Loaded (rows : list (list string)) :
  forall acc data_list,
    read_rows float rows acc = Loaded data_list <->
    exists rs, data_list = acc ++ rs /\ Forall2 (line_record float) rows rs.
Proof.
  induction rows as [|fields rows IH]; intros acc data_list;
    cbn [read_rows].
  - split.
    + intros H. injection H as <-. exists []. rewrite app_nil_r.
      split; [reflexivity | constructor].
    + intros (rs & -> & H). inversion H. now rewrite app_nil_r.
  - split.
    + destruct (num_row float fields) as [r| | |] eqn:E; try discriminate.
      intros H. apply IH in H. destruct H as (rs & -> & H).
      exists (r :: rs). rewrite <- app_assoc. split; [reflexivity|].
      constructor; [now apply num_row_Loaded | assumption].
    + intros (rs & -> & H). inversion H as [|? r ? rs' Hr Hrs]; subst.
      apply num_row_Loaded in Hr. rewrite Hr. apply IH.
      exists rs'. now rewrite <- app_assoc.
Qed.

Lemma get_data_list_Loaded (file : option (list (list string)))
  (data_list : list row) :
  get_data_list float file = Loaded data_list <->
  exists header rows,
    file = Some (header :: rows) /\
    Forall2 (line_record float) rows data_list.
Proof.
  unfold get_data_list. split.
  - destruct file as [[|header rows]|]; try discriminate.
    intros H. apply read_rows_Loaded in H. destruct H as (rs & -> & H).
    now exists header, rows.
  - intros (header & rows & -> & H). apply read_rows_Loaded.
    now exists data_list.
Qed.

(** The rows before the first row that is not loaded do not change how the
    loop ends. *)
Lemma read_rows_stops (good : list (list string)) (bad : list string)
  (rest : list (list string)) (outcome : loaded (list row)) :
  Forall (loadable float) good ->
  (forall acc, read_rows float (bad :: rest) acc = outcome) ->
  forall acc, read_rows float (good ++ bad :: rest) acc = outcome.
Proof.
  intros Hgood Hbad.
  induction Hgood as [|fields good [r Hr] _ IH]; intros acc; [apply Hbad|].
  apply num_row_Loaded in Hr. cbn [app read_rows]. rewrite Hr. apply IH.
Qed.
End GetDataList.

(** X11: [get_data_list] returns exactly when the file exists, has a
    header row, and every row after it has at least two fields and only
    numbers after them; the list it returns has one record per such row, in
    order, made of the first two fields as they are and of one score per
    other field.  The number of fields of a row is not checked. *)
Theorem get_data_list_returns (float : string -> option PrimFloat.float)
  (file : option (list (list string))) (data_list : list row) :
  get_data_list float file = Loaded data_list <->
  exists header rows,
    file = Some (header :: rows) /\
    Forall2 (line_record float) rows data_list.
Proof. apply get_data_list_Loaded. Qed.

(** X12: [get_data_list] exits with status 1 when the file does not exist,
    and lets [StopIteration] escape when the file has no header row.  Past
    the header, the first row that cannot be loaded decides: with fewer than
    two fields it lets [IndexError] escape, with a field after the second
    that is not a number it exits with status 1, whatever the rows after
    it. *)
Theorem get_data_list_failures (float : string -> option PrimFloat.float) :
  get_data_list float None = SysExit 1 /\
  get_data_list float (Some []) = StopIteration /\
  forall header good bad rest,
    Forall (loadable float) good ->
    ((List.length bad < 2)%nat ->
     get_data_list float (Some (header :: good ++ bad :: rest))
     = Propagates IndexError) /\
    ((2 <= List.length bad)%nat -> floats float (skipn 2 bad) = None ->
     get_data_list float (Some (header :: good ++ bad :: rest))
     = SysExit 1).
Proof.
  split; [reflexivity|]. split; [reflexivity|].
  intros header good bad rest Hgood. cbn [get_data_list]. split.
  - intros Hlen. apply read_rows_stops; [assumption|]. intros acc.
    destruct bad as [|a [|b bad]]; cbn in Hlen; try lia; reflexivity.
  - intros Hlen Hfloat. apply read_rows_stops; [assumption|]. intros acc.
    destruct bad as [|a [|b bad]]; cbn in Hlen; try lia.
    cbn [skipn] in Hfloat. cbn [read_rows num_row]. now rewrite Hfloat.
Qed.

Lemma get_data_list_failures_witness :
  get_data_list (fun x => if String.eqb x "7" then Some 7 else None)
    (Some [["SID"; "Term"; "Chi"]; ["s1"; "1"; "7"]; ["s2"];
           ["s3"; "1"; "x"]])
  = Propagates IndexError /\
  get_data_list (fun x => if String.eqb x "7" then Some 7 else None)
    (Some [["SID"; "Term"; "Chi"]; ["s1"; "1"; "7"]; ["s3"; "1"; "x"];
           ["s2"]])
  = SysExit 1.
Proof.
  split.
  - apply (get_data_list_failures
             (fun x => if String.eqb x "7" then Some 7 else None))
      with (good := [["s1"; "1"; "7"]]).
    + repeat constructor. exists (mkRow "s1" "1" [7]), ["7"].
      split; [reflexivity|]. repeat constructor.
    + cbn. lia.
  - apply (get_data_list_failures
             (fun x => if String.eqb x "7" then Some 7 else None))
      with (good := [["s1"; "1"; "7"]]).
    + repeat constructor. exists (mkRow "s1" "1" [7]), ["7"].
      split; [reflexivity|]. repeat constructor.
    + cbn. lia.
    + reflexivity.
Defined.

(** ** From the file to the report *)

Lemma line_record_shape (float : string -> option PrimFloat.float)
  (fields : list string)
  (r : row) :
  line_record float fields r ->
  List.length fields = (2 + List.length (row_scores r))%nat /\
  nth 1 fields "" = row_term r.
Proof.
  intros (rest & -> & H). apply Forall2_length in H. cbn. now rewrite H.
Qed.

Lemma main_report_index_error (data_list : list row) :
  main_report data_list = Raise IndexError <->
  has_short_record data_list = true.
Proof.
  split.
  - intros H. destruct (has_short_record data_list) eqn:Hshort;
      [reflexivity|].
    unfold main_report, analyse in H.
    rewrite calculate_student_averages_groups,
      calculate_class_averages_outcome in H.
    unfold identify_highest_achieving_students,
      identify_lowest_achieving_students, py_max, py_min in H.
    rewrite !identify_achievers_index_error,
      analyze_performance_trends_outcome, Hshort in H.
    destruct (divides_by_zero data_list) eqn:Hzero; [discriminate|].
    destruct (analyse_outcome data_list Hshort Hzero) as (improved & _ & Ha).
    unfold analyse in Ha.
    rewrite calculate_student_averages_groups,
      calculate_class_averages_outcome in Ha.
    unfold identify_highest_achieving_students,
      identify_lowest_achieving_students, py_max, py_min in Ha.
    rewrite !identify_achievers_index_error,
      analyze_performance_trends_outcome, Hshort, Hzero in Ha.
    rewrite Ha in H. discriminate.
  - intros Hshort. unfold main_report, analyse.
    rewrite calculate_student_averages_groups,
      calculate_class_averages_outcome, Hshort. reflexivity.
Qed.

Lemma loaded_short_record (float : string -> option PrimFloat.float)
  (rows : list (list string)) (data_list : list row) :
  Forall2 (line_record float) rows data_list ->
  has_short_record data_list = true <->
  Exists (fun fields =>
            In (nth 1 fields "") terms /\ (List.length fields < 10)%nat)
    rows.
Proof.
  unfold has_short_record.
  induction 1 as [|fields r rows data_list Hr _ IH]; cbn [existsb].
  - split; [discriminate | intros H; inversion H].
  - apply line_record_shape in Hr. destruct Hr as [Hlen Hterm].
    rewrite orb_true_iff, Exists_cons, IH.
    assert (Hhead : short_record r = true <->
              In (nth 1 fields "") terms /\ (List.length fields < 10)%nat).
    { unfold short_record. rewrite andb_true_iff, Nat.ltb_lt, Hterm, Hlen.
      cbn [List.length subjects]. split.
      - intros [Ht Hl]. apply existsb_exists in Ht.
        destruct Ht as (t & Hin & Ht). apply String.eqb_eq in Ht.
        subst t. split; [assumption | lia].
      - intros [Ht Hl]. split; [|lia]. apply existsb_exists.
        exists (row_term r). split; [assumption | apply String.eqb_refl]. }
    now rewrite Hhead.
Qed.

Lemma loaded_well_formed (float : string -> option PrimFloat.float)
  (rows : list (list string)) (data_list : list row) :
  Forall2 (line_record float) rows data_list ->
  well_formed data_list <->
  Forall (fun fields => List.length fields = 10%nat) rows.
Proof.
  unfold well_formed.
  induction 1 as [|fields r rows data_list Hr _ IH].
  - split; constructor.
  - apply line_record_shape in Hr. destruct Hr as [Hlen _].
    rewrite !Forall_cons_iff, IH, Hlen. cbn [List.length subjects].
    split; intros [H1 H2]; split; auto; lia.
Qed.

(** X13: the records [get_data_list] returns satisfy the invariant of the
    analyses (8 scores each) exactly when every row after the header has 10
    fields, which it does not check; and [main] then raises [IndexError]
    exactly when some row of term "1" or "2" has fewer than 10 fields. *)
Theorem loaded_rows_and_index_error (float : string -> option PrimFloat.float)
  (header : list string) (rows : list (list string)) (data_list : list row) :
  get_data_list float (Some (header :: rows)) = Loaded data_list ->
  (well_formed data_list <->
   Forall (fun fields => List.length fields = 10%nat) rows) /\
  (main_report data_list = Raise IndexError <->
   Exists (fun fields =>
             In (nth 1 fields "") terms /\ (List.length fields < 10)%nat)
     rows).
Proof.
  intros H. apply get_data_list_Loaded in H.
  destruct H as (header' & rows' & E & H). injection E as _ <-.
  split; [now apply loaded_well_formed with (float := float)|].
  rewrite main_report_index_error.
  now apply loaded_short_record with (float := float).
Qed.

Lemma loaded_rows_and_index_error_witness :
  main_report [mkRow "s1" "1" [7; 7; 7; 7; 7; 7; 7; 7];
               mkRow "s2" "2" [7; 7; 7]] = Raise IndexError.
Proof.
  apply (loaded_rows_and_index_error
           (fun x => if String.eqb x "7" then Some 7 else None)
           ["SID"; "Term"; "Chi"; "Eng"; "Math"; "GS"; "CS"; "Music"; "VA";
            "PE"]
           [["s1"; "1"; "7"; "7"; "7"; "7"; "7"; "7"; "7"; "7"];
            ["s2"; "2"; "7"; "7"; "7"]]).
  - reflexivity.
  - apply Exists_cons_tl, Exists_cons_hd. cbn. split; [auto | lia].
Defined.

(** ** Accuracy and shape of the trends *)

Lemma round_half_even_close (q : Q) :
  (- (1 # 2) <= inject_Z (round_half_even q) - q /\
   inject_Z (round_half_even q) - q <= 1 # 2)%Q.
Proof.
  destruct q as [n d]. unfold round_half_even. cbn [Qnum Qden].
  pose proof (Z.div_mod n (Zpos d) ltac:(discriminate)) as Hdm.
  pose proof (Z.mod_pos_bound n (Zpos d) ltac:(reflexivity)) as Hr.
  set (f := (n / Zpos d)%Z) in *. set (r := (n mod Zpos d)%Z) in *.
  assert (Hlow : forall z : Z,
             (2 * (n - z * Zpos d) <= Zpos d)%Z ->
             (- (1 # 2) <= inject_Z z - (n # d))%Q).
  { intros z H. unfold Qle, Qminus, Qplus, Qopp, inject_Z. cbn. lia. }
  assert (Hhigh : forall z : Z,
             (2 * (z * Zpos d - n) <= Zpos d)%Z ->
             (inject_Z z - (n # d) <= 1 # 2)%Q).
  { intros z H. unfold Qle, Qminus, Qplus, Qopp, inject_Z. cbn. lia. }
  destruct (Z.compare_spec (2 * r) (Zpos d)) as [E | E | E];
    [destruct (Z.even f)| |]; split; (apply Hlow || apply Hhigh); lia.
Qed.

Lemma round_half_even_nonneg (q : Q) :
  (0 <= q)%Q -> (0 <= round_half_even q)%Z.
Proof.
  destruct q as [n d]. unfold Qle, round_half_even. cbn [Qnum Qden].
  intros H. rewrite Z.mul_1_r in H. cbn in H.
  assert (Hf : (0 <= n / Zpos d)%Z) by (apply Z.div_pos; lia).
  destruct (2 * (n mod Zpos d) ?= Zpos d)%Z; [destruct (Z.even _)| |]; lia.
Qed.

Lemma magnitude_pos (m : positive) (e : Z) : (0 < magnitude m e)%Q.
Proof.
  unfold magnitude. apply Qmult_lt_0_compat; [reflexivity|].
  now apply Qpower_0_lt.
Qed.

Lemma py_round2_accuracy (x : float) :
  match exact x with
  | Some q =>
      exists k : Z,
        exact (py_round2 x) = exact (hundredths k) /\
        (Qabs (inject_Z k - q * 100) <= 1 # 2)%Q
  | None => py_round2 x = x
  end.
Proof.
  unfold py_round2. unfold exact at 1.
  destruct (Prim2SF x) as [s|s| |s m e] eqn:E; try reflexivity.
  - exists 0%Z. split; [|vm_compute; discriminate].
    unfold exact at 1. rewrite E. vm_compute. reflexivity.
  - pose proof (magnitude_pos m e) as Hpos.
    pose proof (round_half_even_close (magnitude m e * 100)) as [Hlo Hhi].
    assert (Hz : (0 <= round_half_even (magnitude m e * 100))%Z)
      by (apply round_half_even_nonneg; lra).
    set (z := round_half_even (magnitude m e * 100)) in *.
    destruct s.
    + exists (- z)%Z. split.
      * destruct (Z.eq_dec z 0) as [-> | Hne]; [vm_compute; reflexivity|].
        unfold hundredths.
        replace (- z <? 0)%Z with true by (symmetry; apply Z.ltb_lt; lia).
        now rewrite Z.abs_opp, Z.abs_eq.
      * rewrite Qred_correct, inject_Z_opp.
        apply Qabs_Qle_condition. split; lra.
    + exists z. split.
      * unfold hundredths.
        replace (z <? 0)%Z with false by (symmetry; apply Z.ltb_ge; lia).
        now rewrite Z.abs_eq.
      * rewrite Qred_correct. apply Qabs_Qle_condition. split; lra.
Qed.

Lemma trends_of_In (data_list : list row) (subject : string)
  (change : float) :
  In (subject, change) (trends_of data_list) ->
  exists i one two,
    nth_error subjects i = Some subject /\
    class_average_at data_list "1" i = Some one /\
    class_average_at data_list "2" i = Some two /\
    change = py_round2 ((two - one) / one * 100).
Proof.
  unfold trends_of. intros H. apply in_flat_map in H.
  destruct H as ([i s] & Hin & H). apply in_enumerate in Hin.
  destruct (class_average_at data_list "1" i) as [one|] eqn:H1;
    [|contradiction].
  destruct (class_average_at data_list "2" i) as [two|] eqn:H2;
    [|contradiction].
  destruct H as [H | []]. injection H as -> <-. now exists i, one, two.
Qed.

Lemma analyze_performance_trends_Ok (data_list : list row)
  (trends : list trend) :
  analyze_performance_trends data_list = Ok trends ->
  has_short_record data_list = false /\
  divides_by_zero data_list = false /\
  trends = trends_of data_list.
Proof.
  rewrite analyze_performance_trends_outcome.
  destruct (has_short_record data_list); [discriminate|].
  destruct (divides_by_zero data_list); [discriminate|].
  intros H. injection H as <-. auto.
Qed.

(** X14: every entry [analyze_performance_trends] returns belongs to a
    subject with a non-zero class average in term "1" and a class average
    in term "2".  When the float ((term2 - term1) / term1) * 100 is finite,
    the percent change of the entry stands for a whole number of
    hundredths (it is the float nearest to it, the sign of a zero apart)
    that lies within 0.005 of the exact value of this float; when it is
    an infinity or NaN, the percent change is this float. *)
Theorem trend_accuracy (data_list : list row) (trends : list trend)
  (subject : string) (change : float) :
  analyze_performance_trends data_list = Ok trends ->
  In (subject, change) trends ->
  exists i one two,
    nth_error subjects i = Some subject /\
    class_average_at data_list "1" i = Some one /\
    class_average_at data_list "2" i = Some two /\
    (one =? 0) = false /\
    match exact ((two - one) / one * 100) with
    | Some q =>
        exists k : Z,
          exact change = exact (hundredths k) /\
          (Qabs (inject_Z k - q * 100) <= 1 # 2)%Q
    | None => change = (two - one) / one * 100
    end.
Proof.
  intros Hok Hin. apply analyze_performance_trends_Ok in Hok.
  destruct Hok as (_ & Hzero & ->). apply trends_of_In in Hin.
  destruct Hin as (i & one & two & Hs & H1 & H2 & ->).
  exists i, one, two. repeat (split; [assumption|]).
  split; [|apply py_round2_accuracy].
  assert (Hi : In i (seq 0 (List.length subjects))).
  { apply in_seq. split; [lia|]. apply nth_error_Some. congruence. }
  pose proof (existsb_false_In _ _ i Hzero Hi) as Hnz. cbv beta in Hnz.
  now rewrite H1, H2 in Hnz.
Qed.

(** The Chi class averages 80 and 91.5: the float of the formula is
    14.374999999999998 and the percent change 14.37 stands for 1437
    hundredths. *)
Lemma trend_accuracy_witness :
  exists i one two,
    nth_error subjects i = Some "Chi" /\
    class_average_at
      [mkRow "s1" "1" [60; 20; 50; 30; 50; 60; 70; 80];
       mkRow "s2" "1" [100; 20; 50; 30; 50; 60; 70; 80];
       mkRow "s1" "2" [91; 30; 75; 40; 50; 60; 35; 81];
       mkRow "s2" "2" [92; 30; 75; 40; 50; 60; 35; 81]] "1" i = Some one /\
    class_average_at
      [mkRow "s1" "1" [60; 20; 50; 30; 50; 60; 70; 80];
       mkRow "s2" "1" [100; 20; 50; 30; 50; 60; 70; 80];
       mkRow "s1" "2" [91; 30; 75; 40; 50; 60; 35; 81];
       mkRow "s2" "2" [92; 30; 75; 40; 50; 60; 35; 81]] "2" i = Some two /\
    (one =? 0) = false /\
    match exact ((two - one) / one * 100) with
    | Some q =>
        exists k : Z,
          exact 14.37 = exact (hundredths k) /\
          (Qabs (inject_Z k - q * 100) <= 1 # 2)%Q
    | None => 14.37 = (two - one) / one * 100
    end.
Proof.
  apply (trend_accuracy
           [mkRow "s1" "1" [60; 20; 50; 30; 50; 60; 70; 80];
            mkRow "s2" "1" [100; 20; 50; 30; 50; 60; 70; 80];
            mkRow "s1" "2" [91; 30; 75; 40; 50; 60; 35; 81];
            mkRow "s2" "2" [92; 30; 75; 40; 50; 60; 35; 81]]
           [("Chi", 14.37); ("Eng", 50); ("Math", 50); ("GS", 33.33);
            ("CS", 0); ("Music", 0); ("VA", -50); ("PE", 1.25)]).
  - vm_compute. reflexivity.
  - now left.
Defined.

Lemma keys_of_cells {A B : Type} (f : nat -> A -> B) (l : list A) :
  forall n,
    map fst (flat_map (fun '(i, x) => [(x, f i x)])
               (combine (seq n (List.length l)) l)) = l.
Proof.
  induction l as [|x l IH]; intros n; [reflexivity|].
  cbn [List.length seq combine flat_map app map fst]. now rewrite IH.
Qed.

Lemma no_cells {A B : Type} (l : list (nat * A)) :
  flat_map (fun '(_, _) => @nil B) l = [].
Proof. induction l as [|[i x] l IH]; [reflexivity | exact IH]. Qed.

Lemma trends_of_subjects (data_list : list row) :
  map fst (trends_of data_list) =
  if has_records data_list "1" && has_records data_list "2"
  then subjects else [].
Proof.
  unfold trends_of, class_average_at.
  destruct (has_records data_list "1"), (has_records data_list "2");
    cbn [andb].
  - apply (keys_of_cells
             (fun i (_ : string) =>
                py_round2
                  ((mean (column data_list "2" i)
                    - mean (column data_list "1" i))
                   / mean (column data_list "1" i) * 100))).
  - rewrite (flat_map_ext _ (fun '(_, _) => @nil trend));
      [now rewrite no_cells | now intros [i s]].
  - rewrite (flat_map_ext _ (fun '(_, _) => @nil trend));
      [now rewrite no_cells | now intros [i s]].
  - rewrite (flat_map_ext _ (fun '(_, _) => @nil trend));
      [now rewrite no_cells | now intros [i s]].
Qed.

(** X15: the trends are all or nothing: whenever
    [analyze_performance_trends] returns, its entries are those of the 8
    subjects in fixed order when both terms have a record, and there is no
    entry when a term has none. *)
Theorem trends_all_or_nothing (data_list : list row) (trends : list trend) :
  analyze_performance_trends data_list = Ok trends ->
  map fst trends =
  if has_records data_list "1" && has_records data_list "2"
  then subjects else [].
Proof.
  intros Hok. apply analyze_performance_trends_Ok in Hok.
  destruct Hok as (_ & _ & ->). apply trends_of_subjects.
Qed.

Lemma trends_all_or_nothing_witness :
  map fst [("Chi", 33.33); ("Eng", 50); ("Math", 50); ("GS", 0);
           ("CS", 0); ("Music", 0); ("VA", -50); ("PE", 1.25)] = subjects.
Proof.
  apply (trends_all_or_nothing
           [mkRow "s1" "1" [30; 20; 50; 40; 50; 60; 70; 80];
            mkRow "s1" "2" [40; 30; 75; 40; 50; 60; 35; 81]]).
  vm_compute. reflexivity.
Defined.

(** ** Records of another term *)

Lemma rows_of_term_known (data_list : list row) (term : string) :
  In term terms ->
  rows_of_term (filter of_known_term data_list) term =
  rows_of_term data_list term.
Proof.
  intros Hterm. unfold rows_of_term.
  induction data_list as [|r l IH]; [reflexivity|]. cbn [filter].
  destruct (of_known_term r) eqn:Hk; cbn [filter]; rewrite IH;
    [reflexivity|].
  destruct (String.eqb_spec (row_term r) term) as [E | _]; [|reflexivity].
  exfalso. apply Bool.not_true_iff_false in Hk. apply Hk.
  unfold of_known_term. apply existsb_exists. exists term.
  split; [assumption|]. rewrite E. apply String.eqb_refl.
Qed.

Lemma has_records_known (data_list : list row) (term : string) :
  In term terms ->
  has_records (filter of_known_term data_list) term =
  has_records data_list term.
Proof.
  intros Hterm. now rewrite !has_records_rows, rows_of_term_known.
Qed.

Lemma has_short_record_known (data_list : list row) :
  has_short_record (filter of_known_term data_list) =
  has_short_record data_list.
Proof.
  unfold has_short_record.
  induction data_list as [|r l IH]; [reflexivity|]. cbn [filter existsb].
  destruct (of_known_term r) eqn:Hk; cbn [existsb]; rewrite IH;
    [reflexivity|].
  unfold short_record. fold (of_known_term r). now rewrite Hk.
Qed.

Lemma per_term_subject_ext {R X : Type} (group group' : string -> list R)
  (entry : string -> nat -> string -> R -> list R -> X) :
  (forall t, In t terms -> group t = group' t) ->
  per_term_subject group entry = per_term_subject group' entry.
Proof.
  intros H. unfold per_term_subject. apply flat_map_ext_In.
  intros t Ht. now rewrite (H t Ht).
Qed.

Lemma class_averages_of_known (data_list : list row) :
  class_averages_of (filter of_known_term data_list) =
  class_averages_of data_list.
Proof.
  unfold class_averages_of. apply per_term_subject_ext.
  intros; now apply rows_of_term_known.
Qed.

Lemma achievers_of_known (better : float -> float -> bool) (data_list : list row) :
  achievers_of better (filter of_known_term data_list) =
  achievers_of better data_list.
Proof.
  unfold achievers_of. apply per_term_subject_ext.
  intros; now apply rows_of_term_known.
Qed.

Lemma class_average_at_known (data_list : list row) (term : string)
  (i : nat) :
  In term terms ->
  class_average_at (filter of_known_term data_list) term i =
  class_average_at data_list term i.
Proof.
  intros Hterm. unfold class_average_at, column.
  now rewrite has_records_known, rows_of_term_known.
Qed.

Lemma trends_known (data_list : list row) :
  divides_by_zero (filter of_known_term data_list) =
    divides_by_zero data_list /\
  trends_of (filter of_known_term data_list) = trends_of data_list.
Proof.
  unfold divides_by_zero, trends_of. split.
  - induction (seq 0 (List.length subjects)) as [|i l IH]; [reflexivity|].
    cbn [existsb]. now rewrite IH, !class_average_at_known by (cbn; auto).
  - apply flat_map_ext. intros [i s].
    now rewrite !class_average_at_known by (cbn; auto).
Qed.

(** X16: the class averages, the extremum identifiers and the trends never
    look at a record whose term is neither "1" nor "2": removing these
    records changes neither what they return nor what they raise.  (The
    student averages do count them.) *)
Theorem other_terms_ignored (data_list : list row) :
  calculate_class_averages (filter of_known_term data_list) =
    calculate_class_averages data_list /\
  identify_highest_achieving_students (filter of_known_term data_list) =
    identify_highest_achieving_students data_list /\
  identify_lowest_achieving_students (filter of_known_term data_list) =
    identify_lowest_achieving_students data_list /\
  analyze_performance_trends (filter of_known_term data_list) =
    analyze_performance_trends data_list.
Proof.
  destruct (trends_known data_list) as [Hz Ht].
  unfold identify_highest_achieving_students,
    identify_lowest_achieving_students, py_max, py_min.
  rewrite !calculate_class_averages_outcome, !identify_achievers_index_error,
    !analyze_performance_trends_outcome, has_short_record_known,
    class_averages_of_known, !achievers_of_known, Hz, Ht.
  auto.
Qed.

(** A record of term "3", even without scores, leaves the class averages
    alone and has its own student average. *)
Example other_term_record :
  calculate_class_averages
    [mkRow "s1" "1" [1; 2; 3; 4; 5; 6; 7; 8]; mkRow "s1" "3" [9]] =
  calculate_class_averages [mkRow "s1" "1" [1; 2; 3; 4; 5; 6; 7; 8]] /\
  calculate_student_averages
    [mkRow "s1" "1" [1; 2; 3; 4; 5; 6; 7; 8]; mkRow "s1" "3" [9]] =
  Ok [("1", "s1", 4.5); ("3", "s1", 9)].
Proof. split; reflexivity. Qed.
